(** * Dock Tally reconciliation core: identifier and date normalisation,
      Master List reconciliation and upload diffing.

    The development embeds the JavaScript of [src/lib/database.js] (the
    Supabase-backed gateway), of the local-storage gateway, of the earlier
    revision of [database.js] and of [csvUtils.js], and states the
    properties of the reconciliation core over these embeddings.

    Conventions of the embedding:
    - a JavaScript string is a [string]; characters are ASCII code units,
      [String.prototype.trim] strips TAB, LF, VT, FF, CR and SPACE and
      [toUpperCase] maps [a-z] to [A-Z];
    - [null] and [undefined] are [None];
    - a JavaScript number is a [number]: NaN, a signed infinity or a finite
      rational; what [parseFloat] and [String(n)] compute is a parameter of
      the functions that call them, and [DecimalRuntime] gives an instance
      that reads and prints decimals exactly;
    - a table of the database is a list of records in table order. *)

From Stdlib Require Import ZArith QArith Qround Ascii String List Bool Lia DecimalString.
From stdpp Require Import base tactics option list gmap strings.

Close Scope Q_scope.
Local Open Scope string_scope.
Local Open Scope list_scope.

(** ** JavaScript strings *)

Module JsString.

Definition is_whitespace (c : ascii) : bool :=
  let n := nat_of_ascii c in
  ((9 <=? n)%nat && (n <=? 13)%nat) || (n =? 32)%nat.

Definition is_digit (c : ascii) : bool :=
  let n := nat_of_ascii c in (48 <=? n)%nat && (n <=? 57)%nat.

Definition is_lower (c : ascii) : bool :=
  let n := nat_of_ascii c in (97 <=? n)%nat && (n <=? 122)%nat.

Definition upper_char (c : ascii) : ascii :=
  if is_lower c then ascii_of_nat (nat_of_ascii c - 32) else c.

(** [s.toUpperCase()] *)
Fixpoint toUpperCase (s : string) : string :=
  match s with
  | EmptyString => EmptyString
  | String c s' => String (upper_char c) (toUpperCase s')
  end.

(** [s.trimStart()] *)
Fixpoint trimStart (s : string) : string :=
  match s with
  | EmptyString => EmptyString
  | String c s' => if is_whitespace c then trimStart s' else s
  end.

(** [s.trimEnd()] *)
Fixpoint trimEnd (s : string) : string :=
  match s with
  | EmptyString => EmptyString
  | String c s' =>
      match trimEnd s' with
      | EmptyString => if is_whitespace c then EmptyString else String c EmptyString
      | t => String c t
      end
  end.

(** [s.trim()] *)
Definition trim (s : string) : string := trimEnd (trimStart s).

(** [s.includes(c)] for a one-character needle *)
Fixpoint includes_char (c : ascii) (s : string) : bool :=
  match s with
  | EmptyString => false
  | String d s' => if Ascii.eqb c d then true else includes_char c s'
  end.

(** JavaScript truthiness of a string: [""] is falsy. *)
Definition truthy (s : string) : bool :=
  match s with EmptyString => false | _ => true end.

(** [s.padStart(2, '0')] *)
Definition padStart2 (s : string) : string :=
  match s with
  | EmptyString => "00"
  | String c EmptyString => String "0" (String c EmptyString)
  | _ => s
  end.

(** [arr.join(', ')] *)
Fixpoint join_comma (l : list string) : string :=
  match l with
  | [] => ""
  | [x] => x
  | x :: rest => x +:+ ", " +:+ join_comma rest
  end.

(** [v || null] for a cell that is a string or missing. *)
Definition or_null (v : option string) : option string :=
  match v with
  | Some s => if truthy s then Some s else None
  | None => None
  end.

(** [(v || '')] for an optional string. *)
Definition or_empty (v : option string) : string :=
  match v with Some s => s | None => "" end.

(** The first and the last character of a string. *)
Definition first_char (s : string) : option ascii :=
  match s with EmptyString => None | String c _ => Some c end.

Fixpoint last_char (s : string) : option ascii :=
  match s with
  | EmptyString => None
  | String c EmptyString => Some c
  | String _ s' => last_char s'
  end.

(** A string is trimmed when neither end is a whitespace character. *)
Definition is_trimmed (s : string) : Prop :=
  (forall c, first_char s = Some c -> is_whitespace c = false) /\
  (forall c, last_char s = Some c -> is_whitespace c = false).

End JsString.
Import JsString.

(** ** JavaScript numbers *)

Module JsNumber.

(** A Number value: NaN, plus or minus infinity, or a finite value.  A
    finite binary64 value is a rational; the embedding keeps the rational
    and leaves the rounding of arithmetic results out. *)
Inductive number : Type :=
  | NaN
  | Infinity (negative : bool)
  | Finite (q : Q).

Definition isNaN (n : number) : bool :=
  match n with NaN => true | _ => false end.

(** [Math.floor(n)] *)
Definition Math_floor (n : number) : number :=
  match n with
  | Finite q => Finite (inject_Z (Qfloor q))
  | _ => n
  end.

(** [n > k] and [n < k] for an integer literal [k]. *)
Definition gt (n : number) (k : Z) : bool :=
  match n with
  | NaN => false
  | Infinity neg => negb neg
  | Finite q => negb (Qle_bool q (inject_Z k))
  end.

Definition lt (n : number) (k : Z) : bool :=
  match n with
  | NaN => false
  | Infinity neg => neg
  | Finite q => negb (Qle_bool (inject_Z k) q)
  end.

(** [n * k] for an integer [k > 0]. *)
Definition mulZ (n : number) (k : Z) : number :=
  match n with
  | Finite q => Finite (q * inject_Z k)%Q
  | _ => n
  end.

(** [a + b] *)
Definition add (a b : number) : number :=
  match a, b with
  | NaN, _ => NaN
  | _, NaN => NaN
  | Infinity n1, Infinity n2 => if Bool.eqb n1 n2 then a else NaN
  | Infinity _, Finite _ => a
  | Finite _, Infinity _ => b
  | Finite p, Finite q => Finite (p + q)%Q
  end.

(** ToIntegerOrInfinity on a finite value: truncation towards zero. *)
Definition Qtrunc (q : Q) : Z :=
  if Qle_bool 0 q then Qfloor q else Qceiling q.

(** [String(z)] for an integer. *)
Definition string_of_Z (z : Z) : string :=
  NilZero.string_of_int (Z.to_int z).

End JsNumber.
Import JsNumber.

(** ** A runtime that reads and prints decimals exactly

    [parseFloat] below returns the mathematical value of the longest
    prefix that is a decimal literal, and [numberToString] prints an
    integer-valued number in positional notation.  They agree with
    ECMAScript wherever the literal and the integer are exactly
    representable in binary64 (every integer below 2^53). *)

Module DecimalRuntime.

Definition digit_value (c : ascii) : Z := Z.of_nat (nat_of_ascii c) - 48.

(** Reads the longest run of digits: accumulated value, number of digits
    read, and the rest of the input. *)
Fixpoint read_digits (s : string) (acc : Z) (count : nat) : Z * nat * string :=
  match s with
  | String c s' =>
      if is_digit c then read_digits s' (10 * acc + digit_value c)%Z (S count)
      else (acc, count, s)
  | EmptyString => (acc, count, s)
  end.

Definition read_sign (s : string) : bool * string :=
  match s with
  | String "-" s' => (true, s')
  | String "+" s' => (false, s')
  | _ => (false, s)
  end.

(** The exponent part, when a complete one follows. *)
Definition read_exponent (s : string) : Z :=
  match s with
  | String c s' =>
      if Ascii.eqb c "e" || Ascii.eqb c "E" then
        let '(neg, s1) := read_sign s' in
        let '(e, n, _) := read_digits s1 0 0 in
        match n with
        | O => 0
        | _ => if neg then - e else e
        end
      else 0
  | EmptyString => 0
  end%Z.

(** [m * 10^k] *)
Definition scale (m k : Z) : Q :=
  if (0 <=? k)%Z then inject_Z (m * 10 ^ k)
  else Qmake m (Z.to_pos (10 ^ (- k))).

Definition parseFloat (input : string) : number :=
  let '(neg, s) := read_sign (trimStart input) in
  if String.prefix "Infinity" s then Infinity neg
  else
    let '(ip, ni, s1) := read_digits s 0 0 in
    let '(m, nf, s2) :=
      match s1 with
      | String "." s1' => read_digits s1' ip 0
      | _ => (ip, O, s1)
      end in
    match (ni + nf)%nat with
    | O => NaN
    | _ =>
        let k := (read_exponent s2 - Z.of_nat nf)%Z in
        Finite (scale (if neg then - m else m) k)
    end.

Definition numberToString (n : number) : string :=
  match n with
  | NaN => "NaN"
  | Infinity neg => if neg then "-Infinity" else "Infinity"
  | Finite q => string_of_Z (Qfloor q)
  end.

End DecimalRuntime.

(** ** JavaScript dates

    A time value is a number of milliseconds since 1970-01-01T00:00Z, or
    [None] for an invalid date.  [new Date(y, m, d)] and the getters
    [getFullYear], [getMonth] and [getDate] work in local time: the offset
    of local time from UTC is the runtime's, [LocalTZA] of ECMAScript, a
    parameter here as [parseFloat] is. *)

Module JsDate.

Local Open Scope Z_scope.

Definition msPerDay : Z := 86400000.

(** Day number of the first day of year [y] (ECMAScript DayFromYear). *)
Definition DayFromYear (y : Z) : Z :=
  365 * (y - 1970) + (y - 1969) / 4 - (y - 1901) / 100 + (y - 1601) / 400.

Definition InLeapYear (y : Z) : bool :=
  ((y mod 4 =? 0) && negb (y mod 100 =? 0)) || (y mod 400 =? 0).

(** Days of the year before the first day of month [m] (0 is January). *)
Definition month_offset (leap : bool) (m : Z) : Z :=
  let l := if leap then 1 else 0 in
  match m with
  | 0 => 0 | 1 => 31 | 2 => 59 + l | 3 => 90 + l | 4 => 120 + l
  | 5 => 151 + l | 6 => 181 + l | 7 => 212 + l | 8 => 243 + l
  | 9 => 273 + l | 10 => 304 + l | _ => 334 + l
  end.

Definition days_in_month (leap : bool) (m : Z) : Z :=
  match m with
  | 1 => if leap then 29 else 28
  | 3 | 5 | 8 | 10 => 30
  | _ => 31
  end.

(** Day number of the calendar day [y]-[m+1]-[d] (ECMAScript MakeDay). *)
Definition MakeDay (y m d : Z) : Z :=
  DayFromYear y + month_offset (InLeapYear y) m + d - 1.

(** TimeClip on an integral time value. *)
Definition TimeClip (t : Z) : option Z :=
  if Z.abs t <=? 8640000000000000 then Some t else None.

(** [new Date(t)] for a Number [t]: TimeClip. *)
Definition Date_of_number (t : number) : option Z :=
  match t with
  | Finite q => TimeClip (Qtrunc q)
  | _ => None
  end.

(** [date.getTime()] *)
Definition getTime (date : option Z) : number :=
  match date with
  | Some t => Finite (inject_Z t)
  | None => NaN
  end.

(** Year, month (1 is January) and day of the month of a day number. *)
Definition civil_from_days (day : Z) : Z * Z * Z :=
  let z := day + 719468 in
  let era := z / 146097 in
  let doe := z - era * 146097 in
  let yoe := (doe - doe / 1460 + doe / 36524 - doe / 146096) / 365 in
  let doy := doe - (365 * yoe + yoe / 4 - yoe / 100) in
  let mp := (5 * doy + 2) / 153 in
  let d := doy - (153 * mp + 2) / 5 + 1 in
  let m := if mp <? 10 then mp + 3 else mp - 9 in
  let y := yoe + era * 400 + (if m <=? 2 then 1 else 0) in
  (y, m, d).

Definition Day (t : Z) : Z := t / msPerDay.

Section LocalTime.

(** [LocalTZA t isUTC]: the offset of local time from UTC in
    milliseconds, at the instant [t] when [isUTC] holds and at the local
    time [t] otherwise. *)
Variable LocalTZA : Z -> bool -> Z.

Definition LocalTime (t : Z) : Z := t + LocalTZA t true.

Definition UTC (t : Z) : Z := t - LocalTZA t false.

(** [new Date(y, m, d)]: local midnight of the day. *)
Definition Date_ymd (y m d : Z) : option Z :=
  TimeClip (UTC (MakeDay y m d * msPerDay)).

Definition getFullYear (date : option Z) : option Z :=
  match date with
  | Some t => let '(y, _, _) := civil_from_days (Day (LocalTime t)) in Some y
  | None => None
  end.

(** [getMonth()] counts from 0. *)
Definition getMonth (date : option Z) : option Z :=
  match date with
  | Some t => let '(_, m, _) := civil_from_days (Day (LocalTime t)) in Some (m - 1)
  | None => None
  end.

Definition getDate (date : option Z) : option Z :=
  match date with
  | Some t => let '(_, _, d) := civil_from_days (Day (LocalTime t)) in Some d
  | None => None
  end.

End LocalTime.

(** [String(v)] for the result of a getter; an invalid date gives NaN. *)
Definition String_of_field (v : option Z) : string :=
  match v with
  | Some z => string_of_Z z
  | None => "NaN"
  end.

(** [v + 1] on the result of a getter. *)
Definition succ_field (v : option Z) : option Z :=
  match v with Some z => Some (z + 1) | None => None end.

End JsDate.
Import JsDate.

(** ** Time zones *)

Module Zone.

Local Open Scope Z_scope.

(** Local time is UTC. *)
Definition utc (t : Z) (isUTC : bool) : Z := 0.

(** America/Bogota: 4 h 56 min 16 s behind UTC until 23 November 1914,
    five hours behind since (the daylight saving time of 1992 left out). *)
Definition bogota (t : Z) (isUTC : bool) : Z :=
  let change := MakeDay 1914 10 23 * msPerDay in
  if t <? (if isUTC then change + 17776000 else change)
  then - 17776000 else - 18000000.

(** America/New_York at the instants of 1899 and of 2012: five hours
    behind UTC, and four hours behind from 11 March 2012, 02:00 of
    standard time, to 4 November 2012, 02:00 of daylight saving time.  A
    local time that the change skips or repeats is read with the offset
    before the change. *)
Definition new_york_2012 (t : Z) (isUTC : bool) : Z :=
  let hour := 3600000 in
  let first := MakeDay 2012 2 11 * msPerDay in
  let last := MakeDay 2012 10 4 * msPerDay in
  let summer :=
    if isUTC then (first + 7 * hour <=? t) && (t <? last + 6 * hour)
    else (first + 3 * hour <=? t) && (t <? last + 2 * hour) in
  if summer then - 4 * hour else - 5 * hour.

End Zone.

(** ** Rows of a parsed manifest and rows of the tables *)

Module Schema.

(** A parsed CSV row: column header to raw cell. *)
Abbreviation csv_row := (gmap string string).

(** The seventeen manifest columns as stored ([hb] is always a string,
    the other columns are [null] when the cell is empty). *)
Record fields : Type := {
  container : option string;
  seal_number : option string;
  carrier : option string;
  mbl : option string;
  mi : option string;
  vessel : option string;
  hb : string;
  outer_quantity : option string;
  pcs : option string;
  wt_lbs : option string;
  cnee : option string;
  frl : option string;
  file_no : option string;
  dest : option string;
  volume : option string;
  vbond : option string;
  tdf : option string
}.

(** The object literal that [saveReportData] and [updateMasterList] build
    from a row, given the normalised [hb]. *)
Definition fields_of_row (row : csv_row) (hb : string) : fields := {|
  container := or_null (row !! "CONTAINER");
  seal_number := or_null (row !! "SEAL #");
  carrier := or_null (row !! "CARRIER");
  mbl := or_null (row !! "MBL");
  mi := or_null (row !! "MI");
  vessel := or_null (row !! "VESSEL");
  hb := hb;
  outer_quantity := or_null (row !! "OUTER QUANTITY");
  pcs := or_null (row !! "PCS");
  wt_lbs := or_null (row !! "WT_LBS");
  cnee := or_null (row !! "CNEE");
  frl := or_null (row !! "FRL");
  file_no := or_null (row !! "FILE_NO");
  dest := or_null (row !! "DEST");
  volume := or_null (row !! "VOLUME");
  vbond := or_null (row !! "VBOND#");
  tdf := or_null (row !! "TDF")
|}.

(** [uploads] *)
Record upload : Type := {
  upload_id : string;
  filename : string;
  row_count : nat;
  upload_date : Z
}.

(** [report_data] *)
Record report_row : Type := {
  report_upload_id : string;
  report_fields : fields
}.

(** [master_list] *)
Record master_item : Type := {
  item_id : nat;
  item_fields : fields;
  first_seen_upload_id : option string;
  last_updated_upload_id : option string;
  last_update_reason : option string;
  created_at : option Z;
  updated_at : option Z
}.

(** What [updateMasterList] reports. *)
Record counts : Type := { itemsAdded : nat; itemsUpdated : nat }.

End Schema.
Import Schema.

(** ** [csvUtils.js] *)

Module CsvUtils.

(** The test [/^-?\d+\.?\d*[eE][+-]?\d+$/.test(s)]. *)
Fixpoint skip_digits (s : string) : string :=
  match s with
  | String c s' => if is_digit c then skip_digits s' else s
  | EmptyString => s
  end.

Definition starts_with_digit (s : string) : bool :=
  match s with String c _ => is_digit c | EmptyString => false end.

Definition scientific_notation (s : string) : bool :=
  let s1 := match s with String "-" s' => s' | _ => s end in
  starts_with_digit s1 &&
  let s2 := skip_digits s1 in
  let s3 := match s2 with String "." s' => s' | _ => s2 end in
  let s4 := skip_digits s3 in
  match s4 with
  | String c s5 =>
      (Ascii.eqb c "e" || Ascii.eqb c "E") &&
      let s6 := match s5 with
                | String "+" s' => s'
                | String "-" s' => s'
                | _ => s5
                end in
      starts_with_digit s6 &&
      match skip_digits s6 with EmptyString => true | _ => false end
  | EmptyString => false
  end.

Section Runtime.

Variable parseFloat : string -> number.
Variable numberToString : number -> string.

(** [normalizeHB] of [csvUtils.js]; the local-storage gateway has the same
    function. *)
Definition normalizeHB (value : option string) : string :=
  match value with
  | None => ""
  | Some "" => ""
  | Some v =>
      let strValue := trim v in
      if scientific_notation strValue then
        let num := parseFloat strValue in
        if negb (isNaN num) then numberToString (Math_floor num)
        else strValue
      else strValue
  end.

End Runtime.

End CsvUtils.

(** ** The earlier revision of [database.js] *)

Module Legacy.

Section Runtime.

Variable parseFloat : string -> number.
Variable numberToString : number -> string.

Definition normalizeHB (value : option string) : string :=
  match value with
  | None => ""
  | Some "" => ""
  | Some v =>
      let num := parseFloat v in
      if negb (isNaN num) then numberToString (Math_floor num)
      else trim v
  end.

End Runtime.

(** The upload that the comparison functions take as the previous one:
    [.lt('id', currentUploadId).order('id', {ascending: false}).limit(1)]. *)
Fixpoint insert_by_id_desc (u : upload) (l : list upload) : list upload :=
  match l with
  | [] => [u]
  | v :: l' =>
      if String.ltb (upload_id u) (upload_id v) then v :: insert_by_id_desc u l'
      else u :: l
  end.

Definition order_by_id_desc (l : list upload) : list upload :=
  foldr insert_by_id_desc [] l.

Definition previousUpload (uploads : list upload) (currentUploadId : string)
  : option upload :=
  head (order_by_id_desc
          (List.filter (fun u => String.ltb (upload_id u) currentUploadId) uploads)).

End Legacy.

(** ** [database.js]: the Supabase gateway *)

Module Supabase.

Definition normalizeHB (value : option string) : string :=
  match value with
  | None => ""
  | Some "" => ""
  | Some v => toUpperCase (trim v)
  end.

Definition hasValueChanged (oldVal newVal : option string) : bool :=
  let old := trim (or_empty oldVal) in
  let now := trim (or_empty newVal) in
  if negb (truthy old) && truthy now then true
  else if truthy old && truthy now && negb (String.eqb old now) then true
  else false.

Section Runtime.

Variable LocalTZA : Z -> bool -> Z.
Variable parseFloat : string -> number.

Definition normalizeFrlForComparison (frlValue : option string) : string :=
  match frlValue with
  | None => ""
  | Some v =>
      if negb (truthy v) || String.eqb (trim v) "" then ""
      else
        let trimmed := trim v in
        if includes_char "/" trimmed then trimmed
        else
          let num := parseFloat trimmed in
          if negb (isNaN num) && gt num 40000 && lt num 60000 then
            let excelEpoch := Date_ymd LocalTZA 1899 11 30 in
            let date :=
              Date_of_number
                (add (getTime excelEpoch) (mulZ num (24 * 60 * 60 * 1000))) in
            let month :=
              padStart2 (String_of_field (succ_field (getMonth LocalTZA date))) in
            let day := padStart2 (String_of_field (getDate LocalTZA date)) in
            let year := String_of_field (getFullYear LocalTZA date) in
            month +:+ "/" +:+ day +:+ "/" +:+ year
          else trimmed
  end.

End Runtime.

(** *** The tables

    [next_item_id] stands for the generator of [master_list.id]. *)
Record database : Type := {
  uploads : list upload;
  report_data : list report_row;
  master_list : list master_item;
  next_item_id : nat
}.

(** The error a statement can come back with. *)
Inductive pg_error : Type :=
  | unique_violation
  | cardinality_violation
  | foreign_key_violation.

(** The object staged for one row. *)
Record itemData : Type := {
  data_fields : fields;
  data_last_updated_upload_id : string;
  data_updated_at : Z;
  data_id : option nat;
  data_last_update_reason : option string;
  data_first_seen_upload_id : option string;
  data_created_at : option Z
}.

(** A row of [.select('id, hb, frl, tdf, vbond')]. *)
Record existing_item : Type := {
  existing_id : nat;
  existing_hb : string;
  existing_frl : option string;
  existing_tdf : option string;
  existing_vbond : option string
}.

Definition select_existing (m : master_item) : existing_item := {|
  existing_id := item_id m;
  existing_hb := hb (item_fields m);
  existing_frl := frl (item_fields m);
  existing_tdf := tdf (item_fields m);
  existing_vbond := vbond (item_fields m)
|}.

Definition string_in (s : string) (l : list string) : bool :=
  existsb (String.eqb s) l.

Fixpoint distinct (l : list string) : bool :=
  match l with
  | [] => true
  | x :: l' => negb (string_in x l') && distinct l'
  end.

Fixpoint distinct_ids (l : list nat) : bool :=
  match l with
  | [] => true
  | x :: l' => negb (existsb (Nat.eqb x) l') && distinct_ids l'
  end.

(** The row that a staged object becomes when it is inserted. *)
Definition new_row (i : nat) (d : itemData) : master_item := {|
  item_id := i;
  item_fields := data_fields d;
  first_seen_upload_id := data_first_seen_upload_id d;
  last_updated_upload_id := Some (data_last_updated_upload_id d);
  last_update_reason := data_last_update_reason d;
  created_at := data_created_at d;
  updated_at := Some (data_updated_at d)
|}.

(** The row after [ON CONFLICT (id) DO UPDATE] with the columns that
    [updateMasterList] puts in a staged update. *)
Definition overwrite (m : master_item) (d : itemData) : master_item := {|
  item_id := item_id m;
  item_fields := data_fields d;
  first_seen_upload_id := first_seen_upload_id m;
  last_updated_upload_id := Some (data_last_updated_upload_id d);
  last_update_reason := data_last_update_reason d;
  created_at := created_at m;
  updated_at := Some (data_updated_at d)
|}.

Fixpoint number_rows (i : nat) (batch : list itemData) : list master_item :=
  match batch with
  | [] => []
  | d :: batch' => new_row i d :: number_rows (S i) batch'
  end.

(** The foreign keys [first_seen_upload_id] and [last_updated_upload_id
    REFERENCES uploads(id)]: a reference that is not null names a recorded
    upload. *)
Definition recorded_id (db : database) (r : option string) : bool :=
  match r with
  | Some u => string_in u (map upload_id (uploads db))
  | None => true
  end.

Definition references_recorded (db : database) (d : itemData) : bool :=
  recorded_id db (data_first_seen_upload_id d)
  && recorded_id db (Some (data_last_updated_upload_id d)).

(** [supabase.from('master_list').insert(batch)]: one statement; the
    schema declares [hb TEXT UNIQUE], which is checked as each row goes in,
    and the two foreign keys, which are checked when the statement ends; a
    violation leaves the table as it was. *)
Definition insert_master (batch : list itemData) (db : database)
  : database * option pg_error :=
  let table := master_list db ++ number_rows (next_item_id db) batch in
  if distinct (map (fun m => hb (item_fields m)) table) then
    if forallb (references_recorded db) batch then
      ({| uploads := uploads db; report_data := report_data db;
          master_list := table;
          next_item_id := next_item_id db + length batch |}, None)
    else (db, Some foreign_key_violation)
  else (db, Some unique_violation).

Definition has_id (i : nat) (m : master_item) : bool := Nat.eqb (item_id m) i.

Definition upsert_row (table : list master_item) (d : itemData)
  : list master_item :=
  match data_id d with
  | Some i =>
      if existsb (has_id i) table
      then map (fun m => if has_id i m then overwrite m d else m) table
      else table ++ [new_row i d]
  | None => table
  end.

(** [supabase.from('master_list').upsert(batch)] on the primary key, for a
    batch whose objects all carry an [id]: one statement, which may not
    touch a row twice, has to keep [hb] unique and, when it ends, has to
    satisfy the foreign keys. *)
Definition upsert_master (batch : list itemData) (db : database)
  : database * option pg_error :=
  if distinct_ids (omap data_id batch) then
    let table := foldl upsert_row (master_list db) batch in
    if distinct (map (fun m => hb (item_fields m)) table) then
      if forallb (references_recorded db) batch then
        ({| uploads := uploads db; report_data := report_data db;
            master_list := table; next_item_id := next_item_id db |}, None)
      else (db, Some foreign_key_violation)
    else (db, Some unique_violation)
  else (db, Some cardinality_violation).

(** The slices [items.slice(i, i + batchSize)] for [i = 0, batchSize, ...]. *)
Fixpoint batches_aux {A} (fuel : nat) (batchSize : nat) (items : list A)
  : list (list A) :=
  match fuel, items with
  | S fuel', _ :: _ =>
      take batchSize items :: batches_aux fuel' batchSize (drop batchSize items)
  | _, _ => []
  end.

Definition batches {A} (batchSize : nat) (items : list A) : list (list A) :=
  batches_aux (length items) batchSize items.

(** Runs one statement per batch; the second component collects what each
    statement returned. *)
Fixpoint run_batches (op : list itemData -> database -> database * option pg_error)
    (bs : list (list itemData)) (db : database)
  : database * list (option pg_error) :=
  match bs with
  | [] => (db, [])
  | b :: bs' =>
      let '(db1, r) := op b db in
      let '(db2, rs) := run_batches op bs' db1 in
      (db2, r :: rs)
  end.

(** One turn of the loop [for (const row of rows)] of [updateMasterList]. *)
Definition stage_row (now : Z) (uploadId : string)
    (existingMap : gmap string existing_item)
    (staged : list itemData * list itemData) (row : csv_row)
  : list itemData * list itemData :=
  let '(itemsToInsert, itemsToUpdate) := staged in
  let hb := normalizeHB (row !! "HB") in
  if negb (truthy hb) then staged
  else
    let fs := fields_of_row row hb in
    match existingMap !! hb with
    | Some existing =>
        let updateReason :=
          (if hasValueChanged (existing_frl existing) (row !! "FRL")
           then ["FRL"] else []) ++
          (if hasValueChanged (existing_tdf existing) (row !! "TDF")
           then ["TDF"] else []) ++
          (if hasValueChanged (existing_vbond existing) (row !! "VBOND#")
           then ["VBOND"] else []) in
        if (0 <? length updateReason)%nat then
          (itemsToInsert,
           itemsToUpdate ++
           [{| data_fields := fs;
               data_last_updated_upload_id := uploadId;
               data_updated_at := now;
               data_id := Some (existing_id existing);
               data_last_update_reason := Some (join_comma updateReason);
               data_first_seen_upload_id := None;
               data_created_at := None |}])
        else staged
    | None =>
        (itemsToInsert ++
         [{| data_fields := fs;
             data_last_updated_upload_id := uploadId;
             data_updated_at := now;
             data_id := None;
             data_last_update_reason := None;
             data_first_seen_upload_id := Some uploadId;
             data_created_at := Some now |}],
         itemsToUpdate)
    end.

(** [existingMap]: the rows of [.in('hb', hbsToCheck)], keyed by [hb]. *)
Definition existing_map (hbsToCheck : list string) (table : list master_item)
  : gmap string existing_item :=
  foldl (fun m item => <[existing_hb item := item]> m) ∅
    (map select_existing
       (List.filter (fun m => string_in (hb (item_fields m)) hbsToCheck) table)).

Definition stage (now : Z) (uploadId : string) (rows : list csv_row)
    (db : database) : list itemData * list itemData :=
  let hbsToCheck :=
    List.filter truthy (map (fun row => normalizeHB (row !! "HB")) rows) in
  foldl (stage_row now uploadId (existing_map hbsToCheck (master_list db)))
    ([], []) rows.

(** [updateMasterList(uploadId, rows)], with the clock reading [now].  The
    results of the statements are dropped, as in the source. *)
Definition updateMasterList (now : Z) (uploadId : string) (rows : list csv_row)
    (db : database) : database * counts :=
  let hbsToCheck :=
    List.filter truthy (map (fun row => normalizeHB (row !! "HB")) rows) in
  match hbsToCheck with
  | [] => (db, {| itemsAdded := 0; itemsUpdated := 0 |})
  | _ =>
      let '(itemsToInsert, itemsToUpdate) := stage now uploadId rows db in
      let '(db1, _) := run_batches insert_master (batches 1000 itemsToInsert) db in
      let '(db2, _) := run_batches upsert_master (batches 1000 itemsToUpdate) db1 in
      (db2, {| itemsAdded := length itemsToInsert;
               itemsUpdated := length itemsToUpdate |})
  end.

(** [saveReportData(uploadId, rows)] *)
Definition saveReportData (uploadId : string) (rows : list csv_row)
    (db : database) : database * nat :=
  let dataToInsert :=
    map (fun row =>
           {| report_upload_id := uploadId;
              report_fields := fields_of_row row (normalizeHB (row !! "HB")) |})
        rows in
  ({| uploads := uploads db;
      report_data := report_data db ++ dataToInsert;
      master_list := master_list db;
      next_item_id := next_item_id db |}, length dataToInsert).

(** *** Deleting an upload *)

Definition references (uploadId : string) (r : option string) : bool :=
  match r with
  | Some u => String.eqb u uploadId
  | None => false
  end.

Definition set_null (uploadId : string) (r : option string) : option string :=
  if references uploadId r then None else r.

(** Row level security is enabled on the three tables, and the client
    acts as the role [authenticated].  The policies of
    [supabase-schema.sql] let that role select from and insert into every
    table, delete from [uploads] and [report_data], and update
    [master_list]; no policy lets it delete from [master_list]. *)
Inductive table_name : Type := uploads_table | report_data_table | master_list_table.

Inductive command : Type := SELECT | INSERT | UPDATE | DELETE.

Definition policy (t : table_name) (c : command) : bool :=
  match t, c with
  | uploads_table, (SELECT | INSERT | DELETE) => true
  | report_data_table, (SELECT | INSERT | DELETE) => true
  | master_list_table, (SELECT | INSERT | UPDATE) => true
  | _, _ => false
  end.

(** [.from(t).delete().eq(...)]: the rows that the statement deletes are
    those that match and that a DELETE policy lets the client see; without
    such a policy it deletes none, and returns no error. *)
Definition delete_where {A} (t : table_name) (matches : A -> bool)
    (rows : list A) : list A :=
  if policy t DELETE then List.filter (fun r => negb (matches r)) rows
  else rows.

(** [.from('uploads').delete().eq('id', uploadId)] with the actions of
    the foreign keys, which are not subject to the policies:
    [report_data.upload_id] is [ON DELETE CASCADE] in the schema, and the
    cascade migration makes both references of [master_list]
    [ON DELETE SET NULL]. *)
Definition delete_upload_record (uploadId : string) (db : database) : database := {|
  uploads :=
    delete_where uploads_table (fun u => String.eqb (upload_id u) uploadId)
      (uploads db);
  report_data :=
    List.filter (fun r => negb (String.eqb (report_upload_id r) uploadId))
      (report_data db);
  master_list :=
    map (fun m =>
           {| item_id := item_id m;
              item_fields := item_fields m;
              first_seen_upload_id := set_null uploadId (first_seen_upload_id m);
              last_updated_upload_id := set_null uploadId (last_updated_upload_id m);
              last_update_reason := last_update_reason m;
              created_at := created_at m;
              updated_at := updated_at m |})
        (master_list db);
  next_item_id := next_item_id db
|}.

(** [deleteUpload(uploadId)]; none of the three statements can fail on
    these tables, so the function returns [true]. *)
Definition deleteUpload (uploadId : string) (db : database) : database * bool :=
  let db1 := {|
    uploads := uploads db;
    report_data := report_data db;
    master_list :=
      delete_where master_list_table
        (fun m => references uploadId (first_seen_upload_id m))
        (master_list db);
    next_item_id := next_item_id db |} in
  let db2 := {|
    uploads := uploads db1;
    report_data :=
      delete_where report_data_table
        (fun r => String.eqb (report_upload_id r) uploadId)
        (report_data db1);
    master_list := master_list db1;
    next_item_id := next_item_id db1 |} in
  (delete_upload_record uploadId db2, true).

(** *** Comparison between uploads *)

(** [.single()] *)
Definition single {A} (l : list A) : option A :=
  match l with
  | [x] => Some x
  | _ => None
  end.

(** [.order('upload_date', { ascending: false })] *)
Fixpoint insert_by_date_desc (u : upload) (l : list upload) : list upload :=
  match l with
  | [] => [u]
  | v :: l' =>
      if (upload_date u <? upload_date v)%Z then v :: insert_by_date_desc u l'
      else u :: l
  end.

Definition order_by_date_desc (l : list upload) : list upload :=
  foldr insert_by_date_desc [] l.

(** The two queries that open each comparison function: the current
    upload's date, then
    [.lt('upload_date', currentUpload.upload_date)
     .order('upload_date', { ascending: false }).limit(1)]. *)
Definition previousUpload (db : database) (currentUploadId : string)
  : option upload :=
  match single (List.filter (fun u => String.eqb (upload_id u) currentUploadId)
                  (uploads db)) with
  | None => None
  | Some currentUpload =>
      head (take 1
              (order_by_date_desc
                 (List.filter
                    (fun u => (upload_date u <? upload_date currentUpload)%Z)
                    (uploads db))))
  end.

(** [.from('report_data').select('*').eq('upload_id', uploadId)] *)
Definition rows_of (db : database) (uploadId : string) : list fields :=
  map report_fields
    (List.filter (fun r => String.eqb (report_upload_id r) uploadId)
       (report_data db)).

(** [.select('hb').eq('upload_id', uploadId).not('hb', 'is', null).neq('hb', '')] *)
Definition hbs_of (db : database) (uploadId : string) : list string :=
  List.filter truthy (map hb (rows_of db uploadId)).

(** [new Set(...)] and [set.has(x)] *)
Definition Set_of (l : list string) : gset string := list_to_set l.

Definition has (s : gset string) (x : string) : bool := bool_decide (x ∈ s).

Definition detectNewItems (db : database) (currentUploadId : string) : nat :=
  match previousUpload db currentUploadId with
  | None => 0
  | Some prev =>
      let currentHBs := hbs_of db currentUploadId in
      let prevHBs := hbs_of db (upload_id prev) in
      let prevHBSet := Set_of prevHBs in
      let newItems := List.filter (fun h => negb (has prevHBSet h)) currentHBs in
      length newItems
  end.

Definition detectRemovedItems (db : database) (currentUploadId : string) : nat :=
  match previousUpload db currentUploadId with
  | None => 0
  | Some prev =>
      let currentHBs := hbs_of db currentUploadId in
      let prevHBs := hbs_of db (upload_id prev) in
      let currentHBSet := Set_of currentHBs in
      let removedItems := List.filter (fun h => negb (has currentHBSet h)) prevHBs in
      length removedItems
  end.

Definition getNewItemsData (db : database) (currentUploadId : string)
  : list fields :=
  match previousUpload db currentUploadId with
  | None => []
  | Some prev =>
      let prevHBSet := Set_of (hbs_of db (upload_id prev)) in
      List.filter (fun r => truthy (hb r) && negb (has prevHBSet (hb r)))
        (rows_of db currentUploadId)
  end.

Definition getRemovedItemsData (db : database) (currentUploadId : string)
  : list fields :=
  match previousUpload db currentUploadId with
  | None => []
  | Some prev =>
      let currentHBSet := Set_of (hbs_of db currentUploadId) in
      List.filter (fun r => truthy (hb r) && negb (has currentHBSet (hb r)))
        (rows_of db (upload_id prev))
  end.

Section Released.

Variable LocalTZA : Z -> bool -> Z.
Variable parseFloat : string -> number.

(** [.not('frl', 'is', null).neq('frl', '')] *)
Definition has_frl (r : fields) : bool :=
  match frl r with
  | Some s => truthy s
  | None => false
  end.

(** [prevFrlMap] *)
Definition prev_frl_map (prevData : list fields) : gmap string string :=
  foldl (fun m item =>
           <[hb item := normalizeFrlForComparison LocalTZA parseFloat (Some (or_empty (frl item)))]> m)
        ∅ prevData.

(** The predicate of [currentWithFrl.filter(...)]. *)
Definition newly_frld (prevFrlMap : gmap string string) (item : fields) : bool :=
  let prevFrl := prevFrlMap !! hb item in
  let currentFrl := normalizeFrlForComparison LocalTZA parseFloat (frl item) in
  match prevFrl with
  | Some p =>
      if negb (truthy p) || String.eqb p "" then negb (String.eqb currentFrl "")
      else false
  | None => negb (String.eqb currentFrl "")
  end.

Definition detectNewlyFrld (db : database) (currentUploadId : string) : nat :=
  match previousUpload db currentUploadId with
  | None => 0
  | Some prev =>
      let currentWithFrl := List.filter has_frl (rows_of db currentUploadId) in
      match currentWithFrl with
      | [] => 0
      | _ =>
          let prevData := rows_of db (upload_id prev) in
          let prevFrlMap := prev_frl_map prevData in
          let newlyFrld := List.filter (newly_frld prevFrlMap) currentWithFrl in
          length newlyFrld
      end
  end.

End Released.

End Supabase.

(** ** The local-storage gateway *)

Module LocalStorage.

(** The arrays kept under the three storage keys; [next_id] stands for
    [generateId]. *)
Record storage : Type := {
  uploads : list upload;
  report_data : list report_row;
  master_list : list master_item;
  next_id : nat
}.

(** [arr.findIndex(p)], with [None] for [-1]. *)
Fixpoint findIndex {A} (p : A -> bool) (l : list A) : option nat :=
  match l with
  | [] => None
  | x :: l' => if p x then Some 0%nat else S <$> findIndex p l'
  end.

(** [deleteUpload(uploadId)] *)
Definition deleteUpload (uploadId : string) (st : storage) : storage * bool :=
  ({| uploads :=
        List.filter (fun u => negb (String.eqb (upload_id u) uploadId)) (uploads st);
      report_data :=
        List.filter (fun r => negb (String.eqb (report_upload_id r) uploadId))
          (report_data st);
      master_list := master_list st;
      next_id := next_id st |}, true).

(** [{ ...existing, ...itemData }] *)
Definition merge (existing : master_item) (fs : fields) (uploadId : string)
    (now : Z) : master_item := {|
  item_id := item_id existing;
  item_fields := fs;
  first_seen_upload_id := first_seen_upload_id existing;
  last_updated_upload_id := Some uploadId;
  last_update_reason := last_update_reason existing;
  created_at := created_at existing;
  updated_at := Some now
|}.

Section Runtime.

Variable parseFloat : string -> number.
Variable numberToString : number -> string.

(** The gateway's own copy of [normalizeHB] is the text of the one in
    [csvUtils.js]. *)
Definition normalizeHB : option string -> string :=
  CsvUtils.normalizeHB parseFloat numberToString.

(** The state of the loop of [updateMasterList]. *)
Record loop_state : Type := {
  masterList : list master_item;
  fresh : nat;
  added : nat;
  updated : nat
}.

Definition reconcile_row (now : Z) (uploadId : string) (s : loop_state)
    (row : csv_row) : loop_state :=
  let hb := normalizeHB (row !! "HB") in
  if negb (truthy hb) then s
  else
    let existingIndex :=
      findIndex (fun m => String.eqb (Schema.hb (item_fields m)) hb) (masterList s) in
    let fs := fields_of_row row hb in
    match existingIndex with
    | Some i =>
        match masterList s !! i with
        | Some existing =>
            {| masterList := <[i := merge existing fs uploadId now]> (masterList s);
               fresh := fresh s;
               added := added s;
               updated := S (updated s) |}
        | None => s
        end
    | None =>
        {| masterList :=
             masterList s ++
             [{| item_id := fresh s;
                 item_fields := fs;
                 first_seen_upload_id := Some uploadId;
                 last_updated_upload_id := Some uploadId;
                 last_update_reason := None;
                 created_at := Some now;
                 updated_at := Some now |}];
           fresh := S (fresh s);
           added := S (added s);
           updated := updated s |}
    end.

(** [updateMasterList(uploadId, rows)], with the clock reading [now]. *)
Definition updateMasterList (now : Z) (uploadId : string) (rows : list csv_row)
    (st : storage) : storage * counts :=
  let s := foldl (reconcile_row now uploadId)
             {| masterList := master_list st; fresh := next_id st;
                added := 0; updated := 0 |} rows in
  ({| uploads := uploads st; report_data := report_data st;
      master_list := masterList s; next_id := fresh s |},
   {| itemsAdded := added s; itemsUpdated := updated s |}).

End Runtime.

(** The upload that the comparison functions take as the previous one:
    [uploads[currentIndex + 1]]. *)
Definition previousUpload (st : storage) (currentUploadId : string)
  : option upload :=
  match findIndex (fun u => String.eqb (upload_id u) currentUploadId) (uploads st) with
  | Some currentIndex => uploads st !! S currentIndex
  | None => None
  end.

Definition hb_set (st : storage) (uploadId : string) : gset string :=
  list_to_set
    (map (fun r => hb (report_fields r))
       (List.filter
          (fun r => String.eqb (report_upload_id r) uploadId
                    && truthy (hb (report_fields r)))
          (report_data st))).

Definition detectNewItems (st : storage) (currentUploadId : string) : nat :=
  match previousUpload st currentUploadId with
  | None =>
      length (List.filter (fun r => String.eqb (report_upload_id r) currentUploadId)
                (report_data st))
  | Some prev =>
      let currentHBs := hb_set st currentUploadId in
      let prevHBs := hb_set st (upload_id prev) in
      length (List.filter (fun h => negb (bool_decide (h ∈ prevHBs)))
                (elements currentHBs))
  end.

Definition detectRemovedItems (st : storage) (currentUploadId : string) : nat :=
  match previousUpload st currentUploadId with
  | None => 0
  | Some prev =>
      let currentHBs := hb_set st currentUploadId in
      let prevHBs := hb_set st (upload_id prev) in
      length (List.filter (fun h => negb (bool_decide (h ∈ currentHBs)))
                (elements prevHBs))
  end.

End LocalStorage.

(** ** [csvUtils.js]: validation and cleaning *)

Module CsvClean.

Definition REQUIRED_COLUMNS : list string :=
  ["CONTAINER"; "SEAL #"; "CARRIER"; "MBL"; "MI"; "VESSEL"; "HB";
   "OUTER QUANTITY"; "PCS"; "WT_LBS"; "CNEE"; "FRL"; "FILE_NO";
   "DEST"; "VOLUME"; "VBOND#"; "TDF"].

Definition AIR_REQUIRED_COLUMNS : list string :=
  ["MAWB"; "HAWB"; "Consignee"; "Carrier"; "FLIGHT NUMBER";
   "FREIGHT LOCATION"; "ORIGIN"; "DESTINATION"; "File Number";
   "QTY"; "Shipment Type"; "SLAC"; "WEIGHT"; "ETA"; "ETA TIME";
   "LOG"; "Flt Date"].

Record validation : Type := {
  isValid : bool;
  message : string;
  missingColumns : list string
}.

(** [validateColumns(headers, mode)] *)
Definition validateColumns (headers : list string) (mode : string) : validation :=
  let requiredCols :=
    if String.eqb mode "air" then AIR_REQUIRED_COLUMNS else REQUIRED_COLUMNS in
  let missing :=
    List.filter (fun col => negb (Supabase.string_in col headers)) requiredCols in
  if (0 <? length missing)%nat then
    {| isValid := false;
       message := "Missing required columns: " +:+ join_comma missing;
       missingColumns := missing |}
  else
    {| isValid := true; message := "CSV is valid"; missingColumns := [] |}.

Definition is_upper (c : ascii) : bool :=
  let n := nat_of_ascii c in (65 <=? n)%nat && (n <=? 90)%nat.

Definition lower_char (c : ascii) : ascii :=
  if is_upper c then ascii_of_nat (nat_of_ascii c + 32) else c.

(** [s.toLowerCase()] *)
Fixpoint toLowerCase (s : string) : string :=
  match s with
  | EmptyString => EmptyString
  | String c s' => String (lower_char c) (toLowerCase s')
  end.

(** [v && v !== '' && v.toLowerCase() !== 'nan'] *)
Definition present (v : option string) : bool :=
  match v with
  | Some s => truthy s && negb (String.eqb s "")
              && negb (String.eqb (toLowerCase s) "nan")
  | None => false
  end.

Definition keep_row (row : csv_row) : bool :=
  present (row !! "CONTAINER") || present (row !! "HB") || present (row !! "MBL").

Section Runtime.

Variable parseFloat : string -> number.
Variable numberToString : number -> string.

(** The body of the loop over [Object.keys(row)]. *)
Definition clean_cell (key value : string) : string :=
  let value := trim value in
  if String.eqb key "HB"
  then CsvUtils.normalizeHB parseFloat numberToString (Some value)
  else value.

(** [cleaned[key] = value] on the object literal [{}]: the key
    [__proto__] reaches the prototype setter, which ignores a string, so no
    property is created for it. *)
Definition clean_row (row : csv_row) : csv_row :=
  map_imap (fun key value =>
              if String.eqb key "__proto__" then None
              else Some (clean_cell key value)) row.

(** [cleanData(data)] *)
Definition cleanData (data : list csv_row) : list csv_row :=
  List.filter keep_row (map clean_row data).

End Runtime.

End CsvClean.

(** * Properties *)

(** ** Strings *)

Section StringFacts.

Lemma upper_char_idem (c : ascii) : upper_char (upper_char c) = upper_char c.
Proof. destruct c as [[] [] [] [] [] [] [] []]; reflexivity. Qed.

Lemma upper_char_whitespace (c : ascii) :
  is_whitespace (upper_char c) = is_whitespace c.
Proof. destruct c as [[] [] [] [] [] [] [] []]; reflexivity. Qed.

Lemma toUpperCase_idem (s : string) : toUpperCase (toUpperCase s) = toUpperCase s.
Proof.
  induction s as [|c s IH]; simpl; [reflexivity|].
  now rewrite upper_char_idem, IH.
Qed.

Lemma toUpperCase_empty (s : string) : toUpperCase s = "" -> s = "".
Proof. destruct s; simpl; [reflexivity | discriminate]. Qed.

Lemma trimStart_toUpperCase (s : string) :
  trimStart (toUpperCase s) = toUpperCase (trimStart s).
Proof.
  induction s as [|c s IH]; simpl; [reflexivity|].
  rewrite upper_char_whitespace. destruct (is_whitespace c); [exact IH | reflexivity].
Qed.

Lemma trimEnd_toUpperCase (s : string) :
  trimEnd (toUpperCase s) = toUpperCase (trimEnd s).
Proof.
  induction s as [|c s IH]; simpl; [reflexivity|].
  rewrite IH, upper_char_whitespace.
  destruct (trimEnd s) as [|d t]; simpl.
  - destruct (is_whitespace c); reflexivity.
  - reflexivity.
Qed.

Lemma trim_toUpperCase (s : string) : trim (toUpperCase s) = toUpperCase (trim s).
Proof. unfold trim. now rewrite trimStart_toUpperCase, trimEnd_toUpperCase. Qed.

Lemma trimEnd_idem (s : string) : trimEnd (trimEnd s) = trimEnd s.
Proof.
  induction s as [|c s IH]; simpl; [reflexivity|].
  destruct (trimEnd s) as [|d t] eqn:E.
  - destruct (is_whitespace c) eqn:W; simpl; [reflexivity|]. now rewrite W.
  - simpl in *. now rewrite IH.
Qed.

Lemma trimStart_first (s : string) (c : ascii) :
  first_char (trimStart s) = Some c -> is_whitespace c = false.
Proof.
  induction s as [|d s IH]; simpl; [discriminate|].
  destruct (is_whitespace d) eqn:W; [exact IH|].
  simpl. intros [= <-]. exact W.
Qed.

Lemma trimStart_fixed (s : string) :
  (forall c, first_char s = Some c -> is_whitespace c = false) -> trimStart s = s.
Proof.
  destruct s as [|d s]; simpl; [reflexivity|].
  intros H. now rewrite (H d eq_refl).
Qed.

Lemma trimEnd_first (s : string) :
  (forall c, first_char s = Some c -> is_whitespace c = false) ->
  first_char (trimEnd s) = first_char s.
Proof.
  destruct s as [|d s]; simpl; [reflexivity|].
  intros H. destruct (trimEnd s); [|reflexivity].
  now rewrite (H d eq_refl).
Qed.

Lemma trimEnd_last (s : string) (c : ascii) :
  last_char (trimEnd s) = Some c -> is_whitespace c = false.
Proof.
  induction s as [|d s IH]; simpl; [discriminate|].
  destruct (trimEnd s) as [|e t] eqn:E.
  - destruct (is_whitespace d) eqn:W; simpl; [discriminate|].
    intros [= <-]. exact W.
  - intros H. apply IH. exact H.
Qed.

Lemma trim_is_trimmed (s : string) : is_trimmed (trim s).
Proof.
  split; intros c H.
  - unfold trim in H. rewrite trimEnd_first in H by apply trimStart_first.
    now apply trimStart_first in H.
  - now apply trimEnd_last in H.
Qed.

Lemma trimEnd_fixed (s : string) :
  (forall c, last_char s = Some c -> is_whitespace c = false) -> trimEnd s = s.
Proof.
  induction s as [|d s IH]; simpl; [reflexivity|].
  intros H. destruct s as [|e s'].
  - simpl. now rewrite (H d eq_refl).
  - rewrite IH by exact H. reflexivity.
Qed.

Lemma trim_fixed (s : string) : is_trimmed s -> trim s = s.
Proof.
  intros [Hf Hl]. unfold trim. rewrite trimStart_fixed by exact Hf.
  now apply trimEnd_fixed.
Qed.

Lemma trim_idem (s : string) : trim (trim s) = trim s.
Proof. apply trim_fixed, trim_is_trimmed. Qed.

Lemma truthy_false (s : string) : truthy s = false <-> s = "".
Proof. destruct s; simpl; split; congruence. Qed.

Lemma truthy_true (s : string) : truthy s = true <-> s <> "".
Proof. destruct s; simpl; split; congruence. Qed.

Lemma eqb_empty (s : string) : String.eqb s "" = negb (truthy s).
Proof. destruct s; reflexivity. Qed.

Lemma append_nil (b : string) : "" +:+ b = b.
Proof. reflexivity. Qed.

Lemma append_cons (c : ascii) (a b : string) :
  String c a +:+ b = String c (a +:+ b).
Proof. reflexivity. Qed.

Lemma append_first (a b : string) (c : ascii) :
  first_char a = Some c -> first_char (a +:+ b) = Some c.
Proof. destruct a; [discriminate | rewrite append_cons; auto]. Qed.

Lemma append_nonempty (a b : string) : b <> "" -> a +:+ b <> "".
Proof. destruct a; [now rewrite append_nil | now rewrite append_cons]. Qed.

Lemma append_last (a b : string) :
  b <> "" -> last_char (a +:+ b) = last_char b.
Proof.
  intros Hb. induction a as [|c a IH]; [reflexivity|].
  rewrite append_cons. pose proof (append_nonempty a b Hb) as Hne.
  simpl. destruct (a +:+ b); [congruence | exact IH].
Qed.

Lemma includes_char_append (c : ascii) (a b : string) :
  includes_char c (a +:+ b) = includes_char c a || includes_char c b.
Proof.
  induction a as [|d a IH]; [reflexivity|].
  rewrite append_cons. simpl.
  destruct (Ascii.eqb c d); [reflexivity | exact IH].
Qed.

End StringFacts.

(** ** Identifier normalisation *)

Section NormalizeHB.

Variable parseFloat : string -> number.
Variable numberToString : number -> string.

(** The round trip that ECMAScript guarantees of Number::toString, at the
    number [n]: the string printed for [Math.floor(n)] has no white space
    around it and, read back, prints the same. *)
Definition prints_back (n : number) : Prop :=
  let r := numberToString (Math_floor n) in
  trim r = r /\
  (isNaN (parseFloat r) = false ->
   numberToString (Math_floor (parseFloat r)) = r).

Lemma supabase_normalizeHB_some (v : string) :
  Supabase.normalizeHB (Some v) = toUpperCase (trim v).
Proof. destruct v; reflexivity. Qed.

Lemma supabase_normalizeHB_idem (x : option string) :
  Supabase.normalizeHB (Some (Supabase.normalizeHB x)) = Supabase.normalizeHB x.
Proof.
  rewrite supabase_normalizeHB_some.
  destruct x as [v|]; [|reflexivity].
  rewrite supabase_normalizeHB_some.
  now rewrite trim_toUpperCase, trim_idem, toUpperCase_idem.
Qed.

Lemma csv_normalizeHB_some (v : string) :
  CsvUtils.normalizeHB parseFloat numberToString (Some v) =
  if CsvUtils.scientific_notation (trim v) then
    if negb (isNaN (parseFloat (trim v)))
    then numberToString (Math_floor (parseFloat (trim v)))
    else trim v
  else trim v.
Proof. destruct v; reflexivity. Qed.

Lemma csv_normalizeHB_idem (x : option string) :
  prints_back (parseFloat (trim (or_empty x))) ->
  CsvUtils.normalizeHB parseFloat numberToString
    (Some (CsvUtils.normalizeHB parseFloat numberToString x)) =
  CsvUtils.normalizeHB parseFloat numberToString x.
Proof.
  intros [Ht Hr]. destruct x as [v|]; [|reflexivity]. simpl in Ht, Hr.
  rewrite (csv_normalizeHB_some v).
  destruct (CsvUtils.scientific_notation (trim v)) eqn:Hsci.
  - destruct (isNaN (parseFloat (trim v))) eqn:Hnan; cbn [negb].
    + rewrite csv_normalizeHB_some, trim_idem, Hsci, Hnan. reflexivity.
    + set (r := numberToString (Math_floor (parseFloat (trim v)))) in *.
      rewrite csv_normalizeHB_some, Ht.
      destruct (CsvUtils.scientific_notation r); [|reflexivity].
      destruct (isNaN (parseFloat r)) eqn:Hnan'; cbn [negb]; [reflexivity|].
      now apply Hr.
  - rewrite csv_normalizeHB_some, trim_idem, Hsci. reflexivity.
Qed.

(** What [normalizeHB] of [csvUtils.js] returns, case by case: the empty
    string on an empty or missing cell, the floored number printed when the
    trimmed cell is in scientific notation and parses, and the trimmed cell
    itself, letter case kept, in every other case. *)
Lemma csv_normalizeHB_cases (value : option string) :
  let r := CsvUtils.normalizeHB parseFloat numberToString value in
  let s := trim (or_empty value) in
  (or_empty value = "" -> r = "") /\
  (CsvUtils.scientific_notation s = false -> r = s) /\
  (CsvUtils.scientific_notation s = true ->
   isNaN (parseFloat s) = false -> r = numberToString (Math_floor (parseFloat s))) /\
  (CsvUtils.scientific_notation s = true -> isNaN (parseFloat s) = true -> r = s).
Proof.
  destruct value as [v|]; cbv zeta; cbn [or_empty].
  - rewrite (csv_normalizeHB_some v). repeat split.
    + intros ->. reflexivity.
    + intros ->. reflexivity.
    + intros -> ->. reflexivity.
    + intros -> ->. reflexivity.
  - repeat split; try reflexivity; discriminate.
Qed.

End NormalizeHB.

(** The normalisation of [database.js] upper-cases: a lower-case letter
    in the trimmed cell makes the result differ from the trimmed cell. *)
Lemma supabase_normalizeHB_changes_case (v : string) :
  toUpperCase (trim v) <> trim v -> Supabase.normalizeHB (Some v) <> trim v.
Proof. now rewrite supabase_normalizeHB_some. Qed.

(** C2.  [normalizeHB] of [database.js] at the identifier ["62r0537240"]
    and at ["6.17e+08"]: the first comes back upper-cased, not unchanged,
    and the second is not converted to ["617000000"], which is what
    [normalizeHB] of [csvUtils.js] makes of it. *)
Theorem supabase_normalizeHB_upper_cases :
  Supabase.normalizeHB (Some "62r0537240") = "62R0537240" /\
  Supabase.normalizeHB (Some "62r0537240") <> trim "62r0537240" /\
  Supabase.normalizeHB (Some "6.17e+08") = "6.17E+08" /\
  CsvUtils.normalizeHB DecimalRuntime.parseFloat DecimalRuntime.numberToString
    (Some "62r0537240") = "62r0537240" /\
  CsvUtils.normalizeHB DecimalRuntime.parseFloat DecimalRuntime.numberToString
    (Some "6.17e+08") = "617000000".
Proof. repeat split; try reflexivity. discriminate. Qed.

(** The two examples of the specification, on [csvUtils.js]. *)
Example csv_normalizeHB_examples :
  CsvUtils.normalizeHB DecimalRuntime.parseFloat DecimalRuntime.numberToString
    (Some "6.17E+08") = "617000000" /\
  CsvUtils.normalizeHB DecimalRuntime.parseFloat DecimalRuntime.numberToString
    (Some "62R0537240") = "62R0537240".
Proof. split; reflexivity. Qed.

(** ** FRL dates *)

Section FrlDates.

Local Open Scope Z_scope.

(** [MM/DD/YYYY] *)
Definition formatted (y m d : Z) : string :=
  padStart2 (string_of_Z m) +:+ "/" +:+ padStart2 (string_of_Z d) +:+ "/" +:+
  string_of_Z y.

Fixpoint no_whitespace (s : string) : bool :=
  match s with
  | EmptyString => true
  | String c s' => negb (is_whitespace c) && no_whitespace s'
  end.

(** Between 1901 and 2099 the leap years are the multiples of four. *)
Lemma leap_in_range (y : Z) :
  1901 <= y < 2100 -> InLeapYear y = (y mod 4 =? 0).
Proof.
  intros Hy. unfold InLeapYear.
  destruct (Z.eqb_spec (y mod 4) 0) as [H4|H4];
    destruct (Z.eqb_spec (y mod 100) 0) as [H100|H100];
    destruct (Z.eqb_spec (y mod 400) 0) as [H400|H400]; simpl; try reflexivity;
    exfalso; revert H4 H100 H400; Z.div_mod_to_equations; lia.
Qed.

(** Evaluates the month, the carry into the year and the day offset of
    the month with index [k] counted from March. *)
Ltac month_case k :=
  let m := eval compute in (if k <? 10 then k + 3 else k - 9) in
  let c := eval compute in (if m <=? 2 then 1 else 0) in
  let m1 := eval compute in (m - 1) in
  let off := eval compute in ((153 * k + 2) / 5) in
  change (if k <? 10 then k + 3 else k - 9) with m;
  change (if m <=? 2 then 1 else 0) with c;
  change (m - 1) with m1;
  change ((153 * k + 2) / 5) with off.

(** For the days of the serial numbers 40000 to 59999 and the two days
    before and after them, the fields that the getters compute name the
    day: a year, a month and a day of that month whose day number
    (ECMAScript MakeDay) is the day given. *)
Lemma civil_from_days_in_range (day : Z) :
  14429 <= day <= 34432 ->
  exists y m d,
    civil_from_days day = (y, m, d) /\
    2009 <= y <= 2064 /\ 1 <= m <= 12 /\
    1 <= d <= days_in_month (InLeapYear y) (m - 1) /\
    MakeDay y (m - 1) d = day.
Proof.
  intros Hday. unfold civil_from_days.
  remember (day + 719468) as z eqn:Hz.
  assert (Hera : z / 146097 = 5) by (subst z; Z.div_mod_to_equations; lia).
  rewrite Hera.
  remember (z - 5 * 146097) as doe eqn:Edoe.
  assert (Hdoe : 3412 <= doe <= 23415) by lia.
  assert (H1 : doe / 36524 = 0) by (Z.div_mod_to_equations; lia).
  assert (H2 : doe / 146096 = 0) by (Z.div_mod_to_equations; lia).
  rewrite H1, H2.
  remember ((doe - doe / 1460 + 0 - 0) / 365) as yoe eqn:Eyoe.
  assert (Hyoe : 9 <= yoe <= 64) by (subst yoe; Z.div_mod_to_equations; lia).
  assert (H3 : yoe / 100 = 0) by (Z.div_mod_to_equations; lia).
  rewrite H3.
  remember (doe - (365 * yoe + yoe / 4 - 0)) as doy eqn:Edoy.
  assert (Hdoy : 0 <= doy <= 365 /\ (doy = 365 -> (yoe + 1) mod 4 = 0)).
  { subst doy yoe. Z.div_mod_to_equations. lia. }
  remember ((5 * doy + 2) / 153) as mp eqn:Emp.
  assert (Hmp : 0 <= mp <= 11) by (subst mp; Z.div_mod_to_equations; lia).
  assert (Hlater : yoe = 64 -> mp <= 1).
  { intros ->. subst mp. Z.div_mod_to_equations. lia. }
  eexists _, _, _. split; [reflexivity|].
  assert (Hcases : mp = 0 \/ mp = 1 \/ mp = 2 \/ mp = 3 \/ mp = 4 \/ mp = 5 \/
                   mp = 6 \/ mp = 7 \/ mp = 8 \/ mp = 9 \/ mp = 10 \/ mp = 11) by lia.
  clear Hmp Hera H1 H2 H3.
  destruct Hcases as [E|[E|[E|[E|[E|[E|[E|[E|[E|[E|[E|E]]]]]]]]]]];
    rewrite E in *;
    [ month_case 0 | month_case 1 | month_case 2 | month_case 3
    | month_case 4 | month_case 5 | month_case 6 | month_case 7
    | month_case 8 | month_case 9 | month_case 10 | month_case 11 ].
  all: rewrite leap_in_range by lia.
  all: unfold MakeDay, DayFromYear; rewrite leap_in_range by lia.
  all: cbn [days_in_month month_offset].
  all: try match goal with
           | |- context [?y mod 4 =? 0] =>
               destruct (Z.eqb_spec (y mod 4) 0) as [L|L]
           end.
  all: Z.div_mod_to_equations; lia.
Qed.

Lemma days_in_month_le (leap : bool) (m : Z) : days_in_month leap m <= 31.
Proof.
  unfold days_in_month.
  repeat match goal with
         | |- context [match ?x with _ => _ end] => destruct x
         end; lia.
Qed.

Lemma length_append (a b : string) :
  String.length (a +:+ b) = (String.length a + String.length b)%nat.
Proof.
  induction a as [|c a IH]; [reflexivity|].
  rewrite append_cons. simpl. now rewrite IH.
Qed.

Lemma padded_lengths_checked :
  forallb (fun k => Nat.eqb (String.length (padStart2 (string_of_Z (Z.of_nat k)))) 2)
    (seq 1 31) = true.
Proof. vm_compute. reflexivity. Qed.

Lemma year_lengths_checked :
  forallb (fun k => Nat.eqb (String.length (string_of_Z (Z.of_nat k + 2009))) 4)
    (seq 0 56) = true.
Proof. vm_compute. reflexivity. Qed.

(** A date of the years 2009 to 2064 prints in ten characters. *)
Lemma formatted_length (y m d : Z) :
  2009 <= y <= 2064 -> 1 <= m <= 12 -> 1 <= d <= 31 ->
  String.length (formatted y m d) = 10%nat.
Proof.
  intros Hy Hm Hd. unfold formatted. rewrite !length_append.
  pose proof padded_lengths_checked as Hp. rewrite forallb_forall in Hp.
  pose proof year_lengths_checked as Hyr. rewrite forallb_forall in Hyr.
  pose proof (Hp (Z.to_nat m)) as Pm. pose proof (Hp (Z.to_nat d)) as Pd.
  pose proof (Hyr (Z.to_nat (y - 2009))) as Py.
  rewrite Z2Nat.id in Pm, Pd, Py by lia.
  replace (y - 2009 + 2009) with y in Py by lia.
  rewrite in_seq in Pm, Pd, Py.
  apply Nat.eqb_eq in Pm; [|lia]. apply Nat.eqb_eq in Pd; [|lia].
  apply Nat.eqb_eq in Py; [|lia].
  rewrite Pm, Pd, Py. reflexivity.
Qed.

Lemma no_whitespace_append (a b : string) :
  no_whitespace (a +:+ b) = no_whitespace a && no_whitespace b.
Proof.
  induction a as [|c a IH]; [reflexivity|].
  rewrite append_cons. simpl. rewrite IH. now rewrite andb_assoc.
Qed.

Lemma no_whitespace_trimmed (s : string) : no_whitespace s = true -> is_trimmed s.
Proof.
  intros H. split.
  - destruct s as [|c s]; simpl; [discriminate|].
    intros d [= <-]. simpl in H. apply andb_true_iff in H as [H _].
    now apply negb_true_iff.
  - induction s as [|c s IH]; simpl; [discriminate|].
    simpl in H. apply andb_true_iff in H as [Hc Hs].
    destruct s as [|e s'].
    + intros d [= <-]. now apply negb_true_iff.
    + intros d Hd. now apply IH.
Qed.

Lemma no_whitespace_uint (d : Decimal.uint) :
  no_whitespace (NilEmpty.string_of_uint d) = true.
Proof. induction d; simpl; auto. Qed.

Lemma no_whitespace_string_of_Z (z : Z) : no_whitespace (string_of_Z z) = true.
Proof.
  unfold string_of_Z. destruct (Z.to_int z) as [d|d]; simpl.
  - destruct d; try reflexivity; apply (no_whitespace_uint (_ d)).
  - destruct d; try reflexivity; apply (no_whitespace_uint (_ d)).
Qed.

Lemma no_whitespace_field (v : option Z) : no_whitespace (String_of_field v) = true.
Proof. destruct v; [apply no_whitespace_string_of_Z | reflexivity]. Qed.

Lemma no_whitespace_padStart2 (s : string) :
  no_whitespace s = true -> no_whitespace (padStart2 s) = true.
Proof.
  destruct s as [|c [|d s]]; simpl; try reflexivity; auto.
Qed.

Lemma gt_Finite (q : Q) (k : Z) : gt (Finite q) k = true <-> (inject_Z k < q)%Q.
Proof.
  simpl. rewrite negb_true_iff. split.
  - intros H. apply Qnot_le_lt. intros Hle. apply Qle_bool_iff in Hle. congruence.
  - intros H. destruct (Qle_bool q (inject_Z k)) eqn:E; [|reflexivity].
    apply Qle_bool_iff in E. exfalso. eapply Qlt_not_le; eauto.
Qed.

Lemma lt_Finite (q : Q) (k : Z) : lt (Finite q) k = true <-> (q < inject_Z k)%Q.
Proof.
  simpl. rewrite negb_true_iff. split.
  - intros H. apply Qnot_le_lt. intros Hle. apply Qle_bool_iff in Hle. congruence.
  - intros H. destruct (Qle_bool (inject_Z k) q) eqn:E; [|reflexivity].
    apply Qle_bool_iff in E. exfalso. eapply Qlt_not_le; eauto.
Qed.

Lemma serial_floor_range (q : Q) :
  (inject_Z 40000 < q)%Q -> (q < inject_Z 60000)%Q -> 40000 <= Qfloor q < 60000.
Proof.
  intros Hlo Hhi. split.
  - rewrite <- (Qfloor_Z 40000). apply Qfloor_resp_le. now apply Qlt_le_weak.
  - pose proof (Qfloor_le q) as H.
    assert (inject_Z (Qfloor q) < inject_Z 60000)%Q by (eapply Qle_lt_trans; eauto).
    now rewrite <- Zlt_Qlt in H0.
Qed.

End FrlDates.

Section NormalizeFrl.

Variable LocalTZA : Z -> bool -> Z.
Variable parseFloat : string -> number.

Local Open Scope Z_scope.

(** The string that [normalizeFrlForComparison] builds for a serial
    number. *)
Definition serial_to_string (num : number) : string :=
  let date :=
    Date_of_number
      (add (getTime (Date_ymd LocalTZA 1899 11 30))
         (mulZ num (24 * 60 * 60 * 1000))) in
  padStart2 (String_of_field (succ_field (getMonth LocalTZA date))) +:+ "/" +:+
  padStart2 (String_of_field (getDate LocalTZA date)) +:+ "/" +:+
  String_of_field (getFullYear LocalTZA date).

Definition in_serial_range (num : number) : bool :=
  negb (isNaN num) && gt num 40000 && lt num 60000.

(** The local time value of the midnight that opens 30 December 1899. *)
Definition excel_epoch : Z := MakeDay 1899 11 30 * msPerDay.

(** The instant that lies the serial number [q] of days of 86400 seconds
    after the local midnight of 30 December 1899, in whole milliseconds. *)
Definition serial_instant (q : Q) : Z :=
  UTC LocalTZA excel_epoch + Qfloor (q * inject_Z msPerDay).

(** Local time is never more than a day from UTC. *)
Definition bounded_offsets : Prop :=
  forall t isUTC, Z.abs (LocalTZA t isUTC) <= msPerDay.

Lemma normalizeFrl_nonempty (v : string) :
  trim v <> "" ->
  Supabase.normalizeFrlForComparison LocalTZA parseFloat (Some v) =
  if includes_char "/" (trim v) then trim v
  else if in_serial_range (parseFloat (trim v))
       then serial_to_string (parseFloat (trim v))
       else trim v.
Proof.
  intros Ht. unfold Supabase.normalizeFrlForComparison.
  assert (Hv : truthy v = true) by (destruct v; [now elim Ht | reflexivity]).
  rewrite Hv, eqb_empty. apply truthy_true in Ht. rewrite Ht. reflexivity.
Qed.

Lemma normalizeFrl_empty (x : option string) :
  trim (or_empty x) = "" ->
  Supabase.normalizeFrlForComparison LocalTZA parseFloat x = "".
Proof.
  destruct x as [v|]; [|reflexivity]. cbn [or_empty]. intros Ht.
  unfold Supabase.normalizeFrlForComparison. rewrite Ht.
  now rewrite orb_true_r.
Qed.

Lemma serial_to_string_no_whitespace (num : number) :
  no_whitespace (serial_to_string num) = true.
Proof.
  unfold serial_to_string. rewrite !no_whitespace_append.
  rewrite !no_whitespace_padStart2 by apply no_whitespace_field.
  now rewrite no_whitespace_field.
Qed.

Lemma serial_to_string_slash (num : number) :
  includes_char "/" (serial_to_string num) = true.
Proof.
  unfold serial_to_string. rewrite !includes_char_append.
  simpl (includes_char "/" "/"). now rewrite orb_true_r.
Qed.

Lemma includes_nonempty (c : ascii) (s : string) : includes_char c s = true -> s <> "".
Proof. destruct s; [discriminate | congruence]. Qed.

Lemma serial_value (e a : Z) (b : positive) :
  (inject_Z e + (a # b) * inject_Z 86400000 ==
   (e * Z.pos b + a * 86400000) # b)%Q.
Proof. unfold Qeq, Qplus, Qmult, inject_Z. simpl. lia. Qed.

Lemma serial_floor (a : Z) (b : positive) :
  Qfloor ((a # b) * inject_Z msPerDay) = a * 86400000 / Z.pos b.
Proof.
  unfold Qmult, inject_Z, Qfloor, msPerDay. simpl. now rewrite Pos.mul_1_r.
Qed.

(** The time value built for a serial number in range is valid: it is
    the instant named above; its local day lies within two days of the
    serial numbers' days, and, when local time has the same offset then as
    at the midnight of the epoch, it is the whole part of the serial number
    counted in days from 1899-12-30. *)
Lemma serial_time (q : Q) :
  bounded_offsets ->
  (inject_Z 40000 < q)%Q -> (q < inject_Z 60000)%Q ->
  Date_of_number
    (add (getTime (Date_ymd LocalTZA 1899 11 30))
       (mulZ (Finite q) (24 * 60 * 60 * 1000))) = Some (serial_instant q) /\
  14429 <= Day (LocalTime LocalTZA (serial_instant q)) <= 34432 /\
  (LocalTZA (serial_instant q) true = LocalTZA excel_epoch false ->
   Day (LocalTime LocalTZA (serial_instant q)) = MakeDay 1899 11 30 + Qfloor q).
Proof.
  intros Hb Hlo Hhi. destruct q as [a b].
  unfold Qlt in Hlo, Hhi. simpl in Hlo, Hhi.
  unfold serial_instant, UTC, LocalTime. rewrite serial_floor.
  change (MakeDay 1899 11 30) with (-25569).
  change excel_epoch with (-2209161600000).
  change (24 * 60 * 60 * 1000) with 86400000.
  pose proof (Hb (-2209161600000) false) as Ho.
  set (o := LocalTZA (-2209161600000) false) in *.
  set (F := a * 86400000 / Z.pos b).
  assert (HF : 40000 * 86400000 <= F < 60000 * 86400000).
  { unfold F. split.
    - apply Z.div_le_lower_bound; lia.
    - apply Z.div_lt_upper_bound; lia. }
  pose proof (Hb (-2209161600000 - o + F) true) as Ho'.
  set (o' := LocalTZA (-2209161600000 - o + F) true) in *.
  unfold msPerDay in Ho, Ho'.
  split; [|split].
  - unfold Date_ymd, UTC, TimeClip.
    change (MakeDay 1899 11 30 * msPerDay) with (-2209161600000). fold o.
    destruct (Z.leb_spec (Z.abs (-2209161600000 - o)) 8640000000000000) as [_|H];
      [|lia].
    cbn [getTime mulZ add Date_of_number]. unfold Qtrunc.
    pose proof (serial_value (-2209161600000 - o) a b) as HV.
    set (V := (inject_Z (-2209161600000 - o) + (a # b) * inject_Z 86400000)%Q) in *.
    assert (Hnum : 0 <= (-2209161600000 - o) * Z.pos b + a * 86400000) by nia.
    assert (Hpos : Qle_bool 0 V = true).
    { apply Qle_bool_iff. rewrite HV. unfold Qle. simpl. lia. }
    rewrite Hpos, (Qfloor_comp _ _ HV). unfold Qfloor.
    rewrite Z.div_add_l by lia. fold F. unfold TimeClip.
    destruct (Z.leb_spec (Z.abs (-2209161600000 - o + F)) 8640000000000000)
      as [_|H]; [reflexivity | lia].
  - unfold Day, msPerDay. split.
    + apply Z.div_le_lower_bound; lia.
    + assert ((-2209161600000 - o + F + o') / 86400000 < 34433); [|lia].
      apply Z.div_lt_upper_bound; lia.
  - intros Esame. fold o' in Esame. rewrite Esame. unfold Day, msPerDay.
    replace (-2209161600000 - o + F + o) with (-25569 * 86400000 + F) by lia.
    rewrite Z.div_add_l by lia. f_equal. unfold F, Qfloor.
    rewrite Z.div_div by lia. now rewrite Z.div_mul_cancel_r by lia.
Qed.

Lemma date_string_of_fields (t y m d : Z) :
  civil_from_days (Day (LocalTime LocalTZA t)) = (y, m, d) ->
  padStart2 (String_of_field (succ_field (getMonth LocalTZA (Some t)))) +:+ "/" +:+
  padStart2 (String_of_field (getDate LocalTZA (Some t))) +:+ "/" +:+
  String_of_field (getFullYear LocalTZA (Some t)) = formatted y m d.
Proof.
  intros E. unfold getMonth, getDate, getFullYear. rewrite E.
  cbn [succ_field String_of_field]. rewrite Z.sub_add. reflexivity.
Qed.

(** The string built from a valid time value whose local day is in the
    range of the serial numbers. *)
Lemma date_string_of_day (t : Z) :
  14429 <= Day (LocalTime LocalTZA t) <= 34432 ->
  exists y m d,
    padStart2 (String_of_field (succ_field (getMonth LocalTZA (Some t)))) +:+ "/" +:+
    padStart2 (String_of_field (getDate LocalTZA (Some t))) +:+ "/" +:+
    String_of_field (getFullYear LocalTZA (Some t)) = formatted y m d /\
    String.length (formatted y m d) = 10%nat /\
    1 <= m <= 12 /\ 1 <= d <= days_in_month (InLeapYear y) (m - 1) /\
    MakeDay y (m - 1) d = Day (LocalTime LocalTZA t).
Proof.
  intros Hday.
  destruct (civil_from_days_in_range _ Hday)
    as (y & m & d & E & Hy & Hm & Hd & Hmake).
  exists y, m, d. split; [now apply date_string_of_fields|].
  split; [|auto].
  apply formatted_length; [exact Hy | exact Hm |].
  pose proof (days_in_month_le (InLeapYear y) (m - 1)). lia.
Qed.

Lemma serial_to_string_date (q : Q) :
  bounded_offsets ->
  (inject_Z 40000 < q)%Q -> (q < inject_Z 60000)%Q ->
  exists y m d,
    serial_to_string (Finite q) = formatted y m d /\
    String.length (formatted y m d) = 10%nat /\
    1 <= m <= 12 /\ 1 <= d <= days_in_month (InLeapYear y) (m - 1) /\
    MakeDay y (m - 1) d = Day (LocalTime LocalTZA (serial_instant q)) /\
    (LocalTZA (serial_instant q) true = LocalTZA excel_epoch false ->
     MakeDay y (m - 1) d = MakeDay 1899 11 30 + Qfloor q).
Proof.
  intros Hb Hlo Hhi.
  destruct (serial_time q Hb Hlo Hhi) as (Ht & Hday & Hsame).
  unfold serial_to_string. rewrite Ht.
  destruct (date_string_of_day (serial_instant q) Hday)
    as (y & m & d & E & Hlen & Hm & Hd & Hmake).
  exists y, m, d. split; [exact E|]. split; [exact Hlen|].
  split; [exact Hm|]. split; [exact Hd|]. split; [exact Hmake|].
  intros Esame. rewrite Hmake. now apply Hsame.
Qed.


End NormalizeFrl.

(** The serial number 41000 is 1 April 2012 where local time is UTC;
    the formatted date and the serial number normalise to the same string.
    In Bogota, where local time was 4 h 56 min 16 s behind UTC in 1899 and
    is five hours behind in 2012, the instant falls on 31 March 2012, at
    23:56:16.  In New York, five hours behind in 1899 and four in April
    2012, the serial number 41000.99 falls on 2 April 2012, at 00:45:36. *)
Example normalizeFrl_examples :
  Supabase.normalizeFrlForComparison Zone.bogota DecimalRuntime.parseFloat
    (Some "41000") = "03/31/2012" /\
  Supabase.normalizeFrlForComparison Zone.new_york_2012 DecimalRuntime.parseFloat
    (Some "41000.99") = "04/02/2012" /\
  Supabase.normalizeFrlForComparison Zone.new_york_2012 DecimalRuntime.parseFloat
    (Some "41000") = "04/01/2012" /\
  Supabase.normalizeFrlForComparison Zone.utc DecimalRuntime.parseFloat (Some "41000")
    = "04/01/2012" /\
  Supabase.normalizeFrlForComparison Zone.utc DecimalRuntime.parseFloat (Some " 04/01/2012 ")
    = "04/01/2012" /\
  Supabase.normalizeFrlForComparison Zone.utc DecimalRuntime.parseFloat (Some "40000")
    = "40000" /\
  Supabase.normalizeFrlForComparison Zone.utc DecimalRuntime.parseFloat (Some "  ") = "" /\
  Supabase.normalizeFrlForComparison Zone.utc DecimalRuntime.parseFloat None = "".
Proof. repeat split; reflexivity. Qed.


(** ** Lists filtered with a boolean test *)

Section ListFacts.

Context {A : Type}.

Lemma elem_of_List_filter (f : A -> bool) (l : list A) (x : A) :
  x ∈ List.filter f l <-> x ∈ l /\ f x = true.
Proof. rewrite !list_elem_of_In. apply filter_In. Qed.

Lemma NoDup_List_filter (f : A -> bool) (l : list A) :
  NoDup l -> NoDup (List.filter f l).
Proof.
  induction 1 as [|x l Hx Hl IH]; simpl; [constructor|].
  destruct (f x); [|exact IH].
  constructor; [|exact IH].
  rewrite elem_of_List_filter. tauto.
Qed.

Lemma List_filter_false (f : A -> bool) (l : list A) :
  (forall x, x ∈ l -> f x = false) -> List.filter f l = [].
Proof.
  induction l as [|x l IH]; intros H; simpl; [reflexivity|].
  rewrite (H x) by constructor.
  apply IH. intros y Hy. apply H. now constructor.
Qed.

Lemma List_filter_length_le (f : A -> bool) (l : list A) :
  (length (List.filter f l) <= length l)%nat.
Proof. induction l as [|x l IH]; simpl; [lia|]. destruct (f x); simpl; lia. Qed.

End ListFacts.

Lemma NoDup_map_inj {A B} (f : A -> B) (l : list A) (x y : A) :
  NoDup (map f l) -> x ∈ l -> y ∈ l -> f x = f y -> x = y.
Proof.
  induction l as [|a l IH]; intros Hnd Hx Hy E; [inversion Hx|].
  simpl in Hnd. apply NoDup_cons in Hnd as [Ha Hl].
  apply elem_of_cons in Hx as [->|Hx]; apply elem_of_cons in Hy as [->|Hy].
  - reflexivity.
  - elim Ha. rewrite E. apply list_elem_of_fmap. now exists y.
  - elim Ha. rewrite <- E. apply list_elem_of_fmap. now exists x.
  - now apply IH.
Qed.

(** ** The previous upload *)

Section PreviousUpload.

Local Open Scope Z_scope.

(** [p] is an upload of [l] with the latest date. *)
Definition latest_of (p : upload) (l : list upload) : Prop :=
  p ∈ l /\ forall u, u ∈ l -> upload_date u <= upload_date p.

Lemma head_insert_by_date_desc (u : upload) (l : list upload) :
  head (Supabase.insert_by_date_desc u l) =
  match head l with
  | Some v => if upload_date u <? upload_date v then Some v else Some u
  | None => Some u
  end.
Proof.
  destruct l as [|v l]; simpl; [reflexivity|].
  destruct (upload_date u <? upload_date v); reflexivity.
Qed.

Lemma head_order_by_date_desc (l : list upload) :
  match head (Supabase.order_by_date_desc l) with
  | Some p => latest_of p l
  | None => l = []
  end.
Proof.
  induction l as [|u l IH]; simpl; [reflexivity|].
  rewrite head_insert_by_date_desc.
  destruct (head (Supabase.order_by_date_desc l)) as [v|].
  - destruct IH as [Hv Hmax].
    destruct (Z.ltb_spec (upload_date u) (upload_date v)).
    + split; [now constructor|].
      intros w Hw. apply elem_of_cons in Hw as [->|Hw]; [lia | now apply Hmax].
    + split; [constructor|].
      intros w Hw. apply elem_of_cons in Hw as [->|Hw]; [lia|].
      specialize (Hmax w Hw). lia.
  - subst l. split; [constructor|].
    intros w Hw. apply elem_of_cons in Hw as [->|Hw]; [lia|].
    inversion Hw.
Qed.

Lemma head_take_1 {A} (l : list A) : head (take 1 l) = head l.
Proof. destruct l; reflexivity. Qed.

(** The selection of [database.js]: among the uploads dated strictly
    before the current one, one with the latest date; none when there is
    no earlier upload, or when the current upload is not in the table. *)
Lemma supabase_previousUpload_spec (db : Supabase.database) (cur : string) :
  match Supabase.single
          (List.filter (fun u => String.eqb (upload_id u) cur) (Supabase.uploads db)) with
  | Some current =>
      match Supabase.previousUpload db cur with
      | Some p =>
          p ∈ Supabase.uploads db /\ upload_date p < upload_date current /\
          forall u, u ∈ Supabase.uploads db ->
                    upload_date u < upload_date current ->
                    upload_date u <= upload_date p
      | None =>
          forall u, u ∈ Supabase.uploads db ->
                    ~ upload_date u < upload_date current
      end
  | None => Supabase.previousUpload db cur = None
  end.
Proof.
  unfold Supabase.previousUpload.
  destruct (Supabase.single _) as [current|]; [|reflexivity].
  rewrite head_take_1.
  pose proof (head_order_by_date_desc
                (List.filter (fun u => upload_date u <? upload_date current)
                   (Supabase.uploads db))) as H.
  destruct (head _) as [p|].
  - destruct H as [Hp Hmax]. apply elem_of_List_filter in Hp as [Hp Hlt].
    apply Z.ltb_lt in Hlt. split; [exact Hp|]. split; [exact Hlt|].
    intros u Hu Hdate. apply Hmax. apply elem_of_List_filter.
    split; [exact Hu | now apply Z.ltb_lt].
  - intros u Hu Hdate.
    assert (Hin : u ∈ List.filter (fun u => upload_date u <? upload_date current)
                    (Supabase.uploads db)).
    { apply elem_of_List_filter. split; [exact Hu | now apply Z.ltb_lt]. }
    rewrite H in Hin. inversion Hin.
Qed.

End PreviousUpload.

(** C4.  The selection of the previous upload in the three gateways, on
    two uploads of which the older has the greater identifier:
    [database.js] picks the older upload for the newer one, the earlier
    [database.js] orders by identifier and finds none (and takes the newer
    upload as the previous one of the older), and the local-storage gateway
    takes whatever follows in the array, here an upload of a later date. *)
Theorem previous_upload_selection_by_id_and_position :
  let older := {| upload_id := "b7"; filename := "mon.csv"; row_count := 2;
                  upload_date := 1000 |} in
  let newer := {| upload_id := "a3"; filename := "tue.csv"; row_count := 2;
                  upload_date := 2000 |} in
  let db := {| Supabase.uploads := [newer; older]; Supabase.report_data := [];
               Supabase.master_list := []; Supabase.next_item_id := 0 |} in
  let st := {| LocalStorage.uploads := [older; newer];
               LocalStorage.report_data := []; LocalStorage.master_list := [];
               LocalStorage.next_id := 0 |} in
  Supabase.previousUpload db "a3" = Some older /\
  Supabase.previousUpload db "b7" = None /\
  Legacy.previousUpload [newer; older] "a3" = None /\
  Legacy.previousUpload [newer; older] "b7" = Some newer /\
  LocalStorage.previousUpload st "b7" = Some newer.
Proof. repeat split; reflexivity. Qed.

Lemma List_filter_filter {A} (f g : A -> bool) (l : list A) :
  List.filter g (List.filter f l) = List.filter (fun x => f x && g x) l.
Proof.
  induction l as [|x l IH]; simpl; [reflexivity|].
  destruct (f x); simpl; [|exact IH].
  destruct (g x); now rewrite IH.
Qed.

(** ** New and removed items *)

Section NewAndRemoved.

Lemma has_spec (s : gset string) (x : string) : Supabase.has s x = true <-> x ∈ s.
Proof. unfold Supabase.has. apply bool_decide_eq_true. Qed.

Lemma Set_of_filter_absent (l : list string) (s : gset string) :
  Supabase.Set_of (List.filter (fun h => negb (Supabase.has s h)) l) =
  Supabase.Set_of l ∖ s.
Proof.
  unfold Supabase.Set_of. apply set_eq. intros x.
  rewrite elem_of_difference, !elem_of_list_to_set, elem_of_List_filter.
  rewrite negb_true_iff, <- not_true_iff_false, has_spec. reflexivity.
Qed.

Lemma length_filter_absent (l : list string) (s : gset string) :
  NoDup l ->
  length (List.filter (fun h => negb (Supabase.has s h)) l) =
  size (Supabase.Set_of l ∖ s).
Proof.
  intros Hl. rewrite <- Set_of_filter_absent. unfold Supabase.Set_of.
  rewrite size_list_to_set; [reflexivity|]. now apply NoDup_List_filter.
Qed.

Lemma Set_of_data (rows : list fields) (s : gset string) :
  Supabase.Set_of
    (map hb (List.filter (fun r => truthy (hb r) && negb (Supabase.has s (hb r))) rows)) =
  Supabase.Set_of (List.filter truthy (map hb rows)) ∖ s.
Proof.
  unfold Supabase.Set_of. apply set_eq. intros x.
  rewrite elem_of_difference, !elem_of_list_to_set, elem_of_List_filter.
  rewrite !list_elem_of_fmap. split.
  - intros (r & -> & Hr). apply elem_of_List_filter in Hr as [Hr Hb].
    apply andb_true_iff in Hb as [Ht Hs].
    rewrite negb_true_iff, <- not_true_iff_false, has_spec in Hs.
    split; [|exact Hs]. split; [|exact Ht]. now exists r.
  - intros [[(r & -> & Hr) Ht] Hs]. exists r. split; [reflexivity|].
    apply elem_of_List_filter. split; [exact Hr|].
    rewrite Ht. simpl. now rewrite negb_true_iff, <- not_true_iff_false, has_spec.
Qed.

Lemma filter_absent_rows (l : list string) (s : gset string) :
  List.filter (fun h => negb (Supabase.has s h)) (List.filter truthy l) =
  List.filter (fun h => bool_decide (h ∈ Supabase.Set_of (List.filter truthy l) ∖ s)) l.
Proof.
  rewrite List_filter_filter. apply List.filter_ext_in. intros h Hh.
  apply list_elem_of_In in Hh. apply eq_true_iff_eq.
  rewrite andb_true_iff, negb_true_iff, <- not_true_iff_false, has_spec.
  rewrite bool_decide_eq_true, elem_of_difference.
  unfold Supabase.Set_of. rewrite elem_of_list_to_set, elem_of_List_filter.
  tauto.
Qed.

(** C5, as amended.  With a chronologically previous upload, the new
    items are the non-empty identifiers of the current batch that are
    absent from the previous one and the removed items those of the
    previous batch absent from the current one.  [detectNewItems] returns
    the number of rows of the current batch whose identifier is a new item
    and [detectRemovedItems] the number of rows of the previous batch whose
    identifier is a removed item; these are the sizes of the two sets when
    the batch repeats no identifier.  Without a previous upload both
    functions return 0 and both data views are empty. *)
Theorem detect_new_and_removed_spec (db : Supabase.database) (cur : string) :
  (forall prev,
     Supabase.previousUpload db cur = Some prev ->
     let current := Supabase.Set_of (Supabase.hbs_of db cur) in
     let previous := Supabase.Set_of (Supabase.hbs_of db (upload_id prev)) in
     Supabase.Set_of (map hb (Supabase.getNewItemsData db cur)) = current ∖ previous /\
     Supabase.Set_of (map hb (Supabase.getRemovedItemsData db cur)) = previous ∖ current /\
     Supabase.detectNewItems db cur =
       length (List.filter (fun h => bool_decide (h ∈ current ∖ previous))
                 (map hb (Supabase.rows_of db cur))) /\
     Supabase.detectRemovedItems db cur =
       length (List.filter (fun h => bool_decide (h ∈ previous ∖ current))
                 (map hb (Supabase.rows_of db (upload_id prev)))) /\
     (NoDup (Supabase.hbs_of db cur) ->
      Supabase.detectNewItems db cur = size (current ∖ previous)) /\
     (NoDup (Supabase.hbs_of db (upload_id prev)) ->
      Supabase.detectRemovedItems db cur = size (previous ∖ current))) /\
  (Supabase.previousUpload db cur = None ->
   Supabase.detectNewItems db cur = 0%nat /\
   Supabase.detectRemovedItems db cur = 0%nat /\
   Supabase.getNewItemsData db cur = [] /\
   Supabase.getRemovedItemsData db cur = []).
Proof.
  split.
  - intros prev Hprev current previous.
    unfold Supabase.getNewItemsData, Supabase.getRemovedItemsData,
      Supabase.detectNewItems, Supabase.detectRemovedItems.
    rewrite Hprev. subst current previous. cbv zeta.
    split; [|split; [|split; [|split; [|split]]]].
    + unfold Supabase.hbs_of at 1. apply Set_of_data.
    + unfold Supabase.hbs_of at 1. apply Set_of_data.
    + unfold Supabase.hbs_of at 2 3. now rewrite filter_absent_rows.
    + unfold Supabase.hbs_of at 2 3. now rewrite filter_absent_rows.
    + intros Hc. now apply length_filter_absent.
    + intros Hp. now apply length_filter_absent.
  - intros Hnone.
    unfold Supabase.getNewItemsData, Supabase.getRemovedItemsData,
      Supabase.detectNewItems, Supabase.detectRemovedItems.
    rewrite Hnone. auto.
Qed.

End NewAndRemoved.

(** ** Sample tables *)

Module Sample.

(** A stored row with identifier [h] and FRL cell [f]. *)
Definition stored (h : string) (f : option string) : fields := {|
  container := None; seal_number := None; carrier := None; mbl := None;
  mi := None; vessel := None; hb := h; outer_quantity := None; pcs := None;
  wt_lbs := None; cnee := None; frl := f; file_no := None; dest := None;
  volume := None; vbond := None; tdf := None
|}.

(** A parsed row with the cells [HB] and [FRL]. *)
Definition parsed (h f : string) : csv_row :=
  <["HB" := h]> (<["FRL" := f]> ∅).

Definition monday : upload :=
  {| upload_id := "u1"; filename := "mon.csv"; row_count := 2; upload_date := 1000 |}.

Definition tuesday : upload :=
  {| upload_id := "u2"; filename := "tue.csv"; row_count := 3; upload_date := 2000 |}.

(** Monday lists X (not released) and Y (released, as a serial number);
    Tuesday lists Y (released, as a date), Z (released) and X (released). *)
Definition two_uploads : Supabase.database := {|
  Supabase.uploads := [tuesday; monday];
  Supabase.report_data :=
    [ {| report_upload_id := "u1"; report_fields := stored "X" None |};
      {| report_upload_id := "u1"; report_fields := stored "Y" (Some "41000") |};
      {| report_upload_id := "u2"; report_fields := stored "Y" (Some "04/01/2012") |};
      {| report_upload_id := "u2"; report_fields := stored "Z" (Some "04/02/2012") |};
      {| report_upload_id := "u2"; report_fields := stored "X" (Some "04/03/2012") |} ];
  Supabase.master_list := [];
  Supabase.next_item_id := 0
|}.

Definition empty_db : Supabase.database := {|
  Supabase.uploads := []; Supabase.report_data := [];
  Supabase.master_list := []; Supabase.next_item_id := 0
|}.

Definition empty_storage : LocalStorage.storage := {|
  LocalStorage.uploads := []; LocalStorage.report_data := [];
  LocalStorage.master_list := []; LocalStorage.next_id := 0
|}.

End Sample.

(** C5, counterexample.  Monday is the first upload and lists two
    identifiers; [detectNewItems] returns 0 for it and the view of new
    items is empty, where the claim has both identifiers new.  And when
    Tuesday lists the new identifier Z in two rows, [detectNewItems]
    returns 2 where the set of new items has one element. *)
Lemma detect_new_items_differs_from_claim :
  let db := {| Supabase.uploads := [Sample.tuesday; Sample.monday];
               Supabase.report_data :=
                 [ {| report_upload_id := "u1"; report_fields := Sample.stored "X" None |};
                   {| report_upload_id := "u2"; report_fields := Sample.stored "X" None |};
                   {| report_upload_id := "u2"; report_fields := Sample.stored "Z" None |};
                   {| report_upload_id := "u2"; report_fields := Sample.stored "Z" None |} ];
               Supabase.master_list := [];
               Supabase.next_item_id := 0 |} in
  (Supabase.previousUpload Sample.two_uploads "u1" = None /\
   size (Supabase.Set_of (Supabase.hbs_of Sample.two_uploads "u1")) = 2%nat /\
   Supabase.detectNewItems Sample.two_uploads "u1" = 0%nat /\
   Supabase.getNewItemsData Sample.two_uploads "u1" = []) /\
  (Supabase.previousUpload db "u2" = Some Sample.monday /\
   size (Supabase.Set_of (Supabase.hbs_of db "u2")
           ∖ Supabase.Set_of (Supabase.hbs_of db "u1")) = 1%nat /\
   Supabase.detectNewItems db "u2" = 2%nat).
Proof. repeat split; vm_compute; reflexivity. Qed.

Lemma detect_new_and_removed_witness :
  let current := Supabase.Set_of (Supabase.hbs_of Sample.two_uploads "u2") in
  let previous := Supabase.Set_of (Supabase.hbs_of Sample.two_uploads "u1") in
  Supabase.Set_of (map hb (Supabase.getNewItemsData Sample.two_uploads "u2"))
    = current ∖ previous /\
  Supabase.Set_of (map hb (Supabase.getRemovedItemsData Sample.two_uploads "u2"))
    = previous ∖ current /\
  Supabase.detectNewItems Sample.two_uploads "u2" = size (current ∖ previous) /\
  Supabase.detectRemovedItems Sample.two_uploads "u2" = size (previous ∖ current).
Proof.
  destruct (proj1 (detect_new_and_removed_spec Sample.two_uploads "u2")
              Sample.monday eq_refl) as (H1 & H2 & _ & _ & H3 & H4).
  split; [exact H1|]. split; [exact H2|]. split.
  - apply H3. apply (bool_decide_unpack _). vm_compute. exact I.
  - apply H4. apply (bool_decide_unpack _). vm_compute. exact I.
Defined.

(** On the sample, Z is new on Tuesday and nothing was removed. *)
Example detect_new_and_removed_sample :
  Supabase.detectNewItems Sample.two_uploads "u2" = 1%nat /\
  Supabase.detectRemovedItems Sample.two_uploads "u2" = 0%nat /\
  map hb (Supabase.getNewItemsData Sample.two_uploads "u2") = ["Z"].
Proof. repeat split; vm_compute; reflexivity. Qed.

(** ** Newly released items *)

Section NewlyReleased.

Variable LocalTZA : Z -> bool -> Z.
Variable parseFloat : string -> number.

Abbreviation normalizeFrl := (Supabase.normalizeFrlForComparison LocalTZA parseFloat).

(** In the words of the specification: the identifier of [item] has a
    non-empty FRL value after normalisation in the current batch, and
    either does not appear in the previous batch or appears there with an
    FRL value that normalises to empty. *)
Definition newly_released (prevRows : list fields) (item : fields) : Prop :=
  normalizeFrl (frl item) <> "" /\
  (Forall (fun p => hb p <> hb item) prevRows \/
   Exists (fun p => hb p = hb item /\ normalizeFrl (frl p) = "") prevRows).

(** The last row of a batch that carries the identifier [h]; it is the
    one whose FRL value [prevFrlMap] ends up holding for [h]. *)
Definition last_with (h : string) (rows : list fields) : option fields :=
  last (List.filter (fun p => String.eqb (hb p) h) rows).

(** As the code decides it: the previous batch is read through the last
    row that carries the identifier. *)
Definition newly_released_by_last_row (prevRows : list fields) (item : fields)
  : Prop :=
  normalizeFrl (frl item) <> "" /\
  match last_with (hb item) prevRows with
  | Some p => normalizeFrl (frl p) = ""
  | None => True
  end.

#[local] Instance newly_released_dec prevRows item :
  Decision (newly_released prevRows item).
Proof. unfold newly_released. apply _. Defined.

#[global] Instance newly_released_by_last_row_dec prevRows item :
  Decision (newly_released_by_last_row prevRows item).
Proof.
  unfold newly_released_by_last_row.
  destruct (last_with (hb item) prevRows); cbv beta iota; apply _.
Defined.

Lemma normalizeFrl_or_empty (v : option string) :
  normalizeFrl (Some (or_empty v)) = normalizeFrl v.
Proof. destruct v; reflexivity. Qed.

Lemma last_with_cons (h : string) (x : fields) (l : list fields) :
  last_with h (x :: l) =
  match last_with h l with
  | Some p => Some p
  | None => if String.eqb (hb x) h then Some x else None
  end.
Proof.
  unfold last_with. cbn [List.filter].
  destruct (String.eqb (hb x) h); [|now destruct (last _)].
  destruct (List.filter _ l) as [|y l']; [reflexivity|].
  change (last (x :: y :: l')) with (last (y :: l')).
  destruct (last (y :: l')) eqn:E; [reflexivity|].
  apply last_None in E. discriminate.
Qed.

Lemma last_with_Some (h : string) (l : list fields) (p : fields) :
  last_with h l = Some p -> p ∈ l /\ hb p = h.
Proof.
  unfold last_with. intros H. apply last_Some in H as (l' & E).
  assert (Hp : p ∈ List.filter (fun p => String.eqb (hb p) h) l).
  { rewrite E. apply elem_of_app. right. constructor. }
  apply elem_of_List_filter in Hp as [Hp Hh].
  now apply String.eqb_eq in Hh.
Qed.

Lemma last_with_None (h : string) (l : list fields) :
  last_with h l = None <-> Forall (fun p => hb p <> h) l.
Proof.
  unfold last_with. rewrite last_None, Forall_forall. split.
  - intros E p Hp Hh.
    assert (Hin : p ∈ List.filter (fun p => String.eqb (hb p) h) l).
    { apply elem_of_List_filter. split; [exact Hp | now apply String.eqb_eq]. }
    rewrite E in Hin. inversion Hin.
  - intros H. apply List_filter_false. intros p Hp.
    apply String.eqb_neq. now apply H.
Qed.

(** What [prevFrlMap] holds for an identifier. *)
Lemma prev_frl_map_lookup (prevData : list fields) (m0 : gmap string string)
    (h : string) :
  foldl (fun m item =>
           <[hb item := normalizeFrl (Some (or_empty (frl item)))]> m)
        m0 prevData !! h =
  match last_with h prevData with
  | Some p => Some (normalizeFrl (frl p))
  | None => m0 !! h
  end.
Proof.
  revert m0. induction prevData as [|x l IH]; intros m0; [reflexivity|].
  cbn [foldl]. rewrite IH, last_with_cons.
  destruct (last_with h l) as [p|]; [reflexivity|].
  destruct (String.eqb_spec (hb x) h) as [E|E].
  - now rewrite E, lookup_insert_eq, normalizeFrl_or_empty.
  - now rewrite lookup_insert_ne.
Qed.

Lemma newly_frld_spec (prevData : list fields) (item : fields) :
  Supabase.newly_frld LocalTZA parseFloat
    (Supabase.prev_frl_map LocalTZA parseFloat prevData) item = true
  <-> newly_released_by_last_row prevData item.
Proof.
  unfold Supabase.newly_frld, Supabase.prev_frl_map, newly_released_by_last_row.
  rewrite prev_frl_map_lookup, lookup_empty.
  destruct (last_with (hb item) prevData) as [p|].
  - rewrite eqb_empty, orb_diag.
    destruct (truthy (normalizeFrl (frl p))) eqn:Hprev; cbn [negb].
    + apply truthy_true in Hprev. split; [discriminate | tauto].
    + apply truthy_false in Hprev.
      rewrite negb_true_iff, String.eqb_neq. tauto.
  - rewrite negb_true_iff, String.eqb_neq. tauto.
Qed.

(** When the previous batch lists no identifier twice, reading it
    through the last row with the identifier is reading it in the words of
    the specification. *)
Lemma newly_released_words (prevRows : list fields) (item : fields) :
  NoDup (map hb prevRows) ->
  newly_released_by_last_row prevRows item <-> newly_released prevRows item.
Proof.
  intros Hnd. unfold newly_released_by_last_row, newly_released.
  destruct (last_with (hb item) prevRows) as [p|] eqn:E.
  - apply last_with_Some in E as [Hp Hh]. split.
    + intros [Hcur Hprev]. split; [exact Hcur|]. right.
      apply Exists_exists. exists p. auto.
    + intros [Hcur [Hall|Hex]]; (split; [exact Hcur|]).
      * rewrite Forall_forall in Hall. now elim (Hall p Hp).
      * apply Exists_exists in Hex as (p' & Hp' & Hh' & Hempty).
        assert (p' = p) by (eapply (NoDup_map_inj hb); eauto; congruence).
        now subst p'.
  - apply last_with_None in E. split.
    + intros [Hcur _]. auto.
    + tauto.
Qed.

Lemma has_frl_of_released (item : fields) :
  normalizeFrl (frl item) <> "" -> Supabase.has_frl item = true.
Proof.
  unfold Supabase.has_frl.
  destruct (frl item) as [[|c s]|]; [|reflexivity|]; intros H; now elim H.
Qed.

Lemma List_filter_decide {A} (f : A -> bool) (P : A -> Prop)
    `{forall x, Decision (P x)} (l : list A) :
  (forall x, x ∈ l -> f x = true <-> P x) -> List.filter f l = filter P l.
Proof.
  induction l as [|x l IH]; intros Hf; [reflexivity|].
  simpl. rewrite filter_cons.
  assert (Hl : forall y, y ∈ l -> f y = true <-> P y).
  { intros y Hy. apply Hf. now constructor. }
  specialize (Hf x ltac:(constructor)).
  destruct (decide (P x)) as [HP|HP].
  - rewrite (proj2 Hf HP), IH by exact Hl. reflexivity.
  - destruct (f x) eqn:E; [now elim HP; apply Hf|]. now apply IH.
Qed.

(** C6, as amended.  For every upload with a chronologically previous
    upload, [detectNewlyFrld] counts the rows of the current batch whose
    FRL value is not empty after normalisation and whose identifier either
    is absent from the previous batch or has, in the last row of the
    previous batch that carries it, an FRL value that normalises to empty;
    a row whose identifier has a non-empty normalised FRL value in that
    last row is never counted, whatever the two strings are.  When the
    previous batch lists no identifier twice, this is the criterion in the
    words of the specification.  Without a previous upload the count
    is 0. *)
Theorem detectNewlyFrld_spec (db : Supabase.database) (cur : string) :
  (forall prev,
     Supabase.previousUpload db cur = Some prev ->
     let prevRows := Supabase.rows_of db (upload_id prev) in
     Supabase.detectNewlyFrld LocalTZA parseFloat db cur =
       length (filter (newly_released_by_last_row prevRows)
                 (Supabase.rows_of db cur)) /\
     (forall item p,
        last_with (hb item) prevRows = Some p -> normalizeFrl (frl p) <> "" ->
        ~ newly_released_by_last_row prevRows item /\
        Supabase.newly_frld LocalTZA parseFloat
          (Supabase.prev_frl_map LocalTZA parseFloat prevRows) item = false) /\
     (NoDup (map hb prevRows) ->
      forall item,
        newly_released_by_last_row prevRows item <->
        newly_released prevRows item)) /\
  (Supabase.previousUpload db cur = None ->
   Supabase.detectNewlyFrld LocalTZA parseFloat db cur = 0%nat).
Proof.
  split.
  - intros prev Hprev prevRows. split; [|split].
    + unfold Supabase.detectNewlyFrld. rewrite Hprev. fold prevRows.
      assert (E : List.filter
                    (Supabase.newly_frld LocalTZA parseFloat
                       (Supabase.prev_frl_map LocalTZA parseFloat prevRows))
                    (List.filter Supabase.has_frl (Supabase.rows_of db cur)) =
                  filter (newly_released_by_last_row prevRows)
                    (Supabase.rows_of db cur)).
      { rewrite List_filter_filter. apply List_filter_decide.
        intros item _. rewrite andb_true_iff, newly_frld_spec.
        split; [tauto|]. intros H. split; [|exact H].
        apply has_frl_of_released, H. }
      rewrite <- E.
      destruct (List.filter Supabase.has_frl (Supabase.rows_of db cur)); reflexivity.
    + intros item p Hlast Hne.
      assert (Hnot : ~ newly_released_by_last_row prevRows item).
      { unfold newly_released_by_last_row. rewrite Hlast. tauto. }
      split; [exact Hnot|].
      apply not_true_is_false. intros Ht. apply Hnot.
      now apply newly_frld_spec.
    + intros Hnd item. now apply newly_released_words.
  - intros Hnone. unfold Supabase.detectNewlyFrld. now rewrite Hnone.
Qed.

End NewlyReleased.

Lemma detectNewlyFrld_witness :
  let prevRows := Supabase.rows_of Sample.two_uploads "u1" in
  Supabase.detectNewlyFrld Zone.utc DecimalRuntime.parseFloat Sample.two_uploads "u2" =
    length (filter (newly_released_by_last_row Zone.utc DecimalRuntime.parseFloat
                      prevRows)
              (Supabase.rows_of Sample.two_uploads "u2")) /\
  forall item,
    newly_released_by_last_row Zone.utc DecimalRuntime.parseFloat prevRows item <->
    newly_released Zone.utc DecimalRuntime.parseFloat prevRows item.
Proof.
  intros prevRows.
  destruct (proj1 (detectNewlyFrld_spec Zone.utc DecimalRuntime.parseFloat
                     Sample.two_uploads "u2") Sample.monday eq_refl)
    as (Hcount & _ & Hwords).
  split; [exact Hcount|]. apply Hwords.
  apply (bool_decide_unpack _). vm_compute. exact I.
Defined.

(** On the sample, Tuesday releases Z (absent on Monday) and X (not
    released on Monday); Y was released on Monday under the serial number
    of the date it carries on Tuesday, and is not counted. *)
Example detectNewlyFrld_sample :
  Supabase.detectNewlyFrld Zone.utc DecimalRuntime.parseFloat Sample.two_uploads "u2" = 2%nat /\
  Supabase.detectNewlyFrld Zone.utc DecimalRuntime.parseFloat Sample.two_uploads "u1" = 0%nat /\
  Supabase.normalizeFrlForComparison Zone.utc DecimalRuntime.parseFloat (Some "41000") =
  Supabase.normalizeFrlForComparison Zone.utc DecimalRuntime.parseFloat (Some "04/01/2012").
Proof. repeat split; vm_compute; reflexivity. Qed.

(** C6, counterexample.  The previous batch lists the identifier X
    twice.  When X is released in the first row and blank in the second,
    a released X of the current batch is counted although X had a
    non-empty FRL value in both batches; when X is blank in the first row
    and released in the second, it is not counted although X appeared in
    the previous batch with an empty FRL value. *)
Lemma detectNewlyFrld_repeated_previous_identifier :
  let current := {| report_upload_id := "u2";
                    report_fields := Sample.stored "X" (Some "04/02/2012") |} in
  let released := {| report_upload_id := "u1";
                     report_fields := Sample.stored "X" (Some "04/01/2012") |} in
  let blank := {| report_upload_id := "u1";
                  report_fields := Sample.stored "X" None |} in
  let tables rows := {| Supabase.uploads := [Sample.tuesday; Sample.monday];
                        Supabase.report_data := rows;
                        Supabase.master_list := [];
                        Supabase.next_item_id := 0 |} in
  let normalize :=
    Supabase.normalizeFrlForComparison Zone.utc DecimalRuntime.parseFloat in
  Supabase.previousUpload (tables [released; blank; current]) "u2"
    = Some Sample.monday /\
  normalize (frl (report_fields released)) = "04/01/2012" /\
  normalize (frl (report_fields current)) = "04/02/2012" /\
  Supabase.detectNewlyFrld Zone.utc DecimalRuntime.parseFloat
    (tables [released; blank; current]) "u2" = 1%nat /\
  newly_released Zone.utc DecimalRuntime.parseFloat
    (Supabase.rows_of (tables [blank; released; current]) "u1")
    (report_fields current) /\
  Supabase.detectNewlyFrld Zone.utc DecimalRuntime.parseFloat
    (tables [blank; released; current]) "u2" = 0%nat.
Proof.
  intros current released blank tables normalize.
  split; [reflexivity|]. split; [reflexivity|]. split; [reflexivity|].
  split; [vm_compute; reflexivity|]. split; [|vm_compute; reflexivity].
  split.
  - change (normalize (frl (report_fields current)) <> "").
    replace (normalize (frl (report_fields current))) with "04/02/2012"
      by reflexivity.
    discriminate.
  - right. apply Exists_cons_hd. split; reflexivity.
Qed.

(** ** Reconciliation of the Master List *)

Section Reconciliation.

Abbreviation parseFloat := DecimalRuntime.parseFloat.
Abbreviation numberToString := DecimalRuntime.numberToString.

Lemma stage_row_skip (now : Z) (uploadId : string)
    (m : gmap string Supabase.existing_item)
    (staged : list Supabase.itemData * list Supabase.itemData) (row : csv_row) :
  truthy (Supabase.normalizeHB (row !! "HB")) = false ->
  Supabase.stage_row now uploadId m staged row = staged.
Proof.
  intros H. unfold Supabase.stage_row. destruct staged as [ins upd].
  now rewrite H.
Qed.

(** What [updateMasterList] of [database.js] reports is the number of
    objects it staged, whatever the statements returned. *)
Lemma supabase_updateMasterList_reports_staged (now : Z) (uploadId : string)
    (rows : list csv_row) (db : Supabase.database) :
  snd (Supabase.updateMasterList now uploadId rows db) =
  {| itemsAdded := length (fst (Supabase.stage now uploadId rows db));
     itemsUpdated := length (snd (Supabase.stage now uploadId rows db)) |}.
Proof.
  unfold Supabase.updateMasterList.
  destruct (List.filter truthy _) as [|h hs] eqn:Hhbs.
  - assert (Hskip : forall row, row ∈ rows ->
                truthy (Supabase.normalizeHB (row !! "HB")) = false).
    { intros row Hrow. apply not_true_is_false. intros Ht.
      assert (Hin : Supabase.normalizeHB (row !! "HB") ∈
                    List.filter truthy
                      (map (fun row => Supabase.normalizeHB (row !! "HB")) rows)).
      { apply elem_of_List_filter. split; [|exact Ht].
        apply list_elem_of_fmap. now exists row. }
      rewrite Hhbs in Hin. inversion Hin. }
    unfold Supabase.stage.
    generalize (Supabase.existing_map
                  (List.filter truthy
                     (map (fun row => Supabase.normalizeHB (row !! "HB")) rows))
                  (Supabase.master_list db)).
    intros m.
    assert (E : foldl (Supabase.stage_row now uploadId m) ([], []) rows = ([], [])).
    { clear Hhbs. induction rows as [|row rows IH]; [reflexivity|].
      cbn [foldl]. rewrite stage_row_skip by (apply Hskip; constructor).
      apply IH. intros r Hr. apply Hskip. now constructor. }
    rewrite E. reflexivity.
  - destruct (Supabase.stage now uploadId rows db) as [ins upd].
    destruct (Supabase.run_batches Supabase.insert_master _ db) as [db1 r1].
    destruct (Supabase.run_batches Supabase.upsert_master _ db1) as [db2 r2].
    reflexivity.
Qed.

(** C1.  The local-storage gateway on a batch reconciled twice: the
    second pass finds both identifiers in the Master List with every
    tracked field as it was, and still overwrites both entries and counts
    both as updated, where [database.js], with the two uploads recorded and
    the same batch, stores the two entries on the first pass, leaves them
    alone on the second and reports nothing. *)
Theorem local_updateMasterList_counts_unchanged_rows :
  let rows := [Sample.parsed "A1" "01/02/2024"; Sample.parsed "B2" ""] in
  let st1 := fst (LocalStorage.updateMasterList parseFloat numberToString
                    100 "u1" rows Sample.empty_storage) in
  let r2 := LocalStorage.updateMasterList parseFloat numberToString
              200 "u2" rows st1 in
  let db0 := {| Supabase.uploads := [Sample.tuesday; Sample.monday];
                Supabase.report_data := []; Supabase.master_list := [];
                Supabase.next_item_id := 0 |} in
  let db1 := fst (Supabase.updateMasterList 100 "u1" rows db0) in
  map (fun m => hb (item_fields m)) (LocalStorage.master_list st1) = ["A1"; "B2"] /\
  Forall (fun row =>
            exists m, m ∈ LocalStorage.master_list st1 /\
              hb (item_fields m) = Supabase.normalizeHB (row !! "HB") /\
              Supabase.hasValueChanged (frl (item_fields m)) (row !! "FRL") = false /\
              Supabase.hasValueChanged (tdf (item_fields m)) (row !! "TDF") = false /\
              Supabase.hasValueChanged (vbond (item_fields m)) (row !! "VBOND#") = false)
         rows /\
  snd r2 = {| itemsAdded := 0; itemsUpdated := 2 |} /\
  map last_updated_upload_id (LocalStorage.master_list (fst r2)) =
    [Some "u2"; Some "u2"] /\
  map (fun m => (hb (item_fields m), last_updated_upload_id m))
    (Supabase.master_list db1) = [("A1", Some "u1"); ("B2", Some "u1")] /\
  Supabase.updateMasterList 200 "u2" rows db1 =
    (db1, {| itemsAdded := 0; itemsUpdated := 0 |}).
Proof.
  split; [vm_compute; reflexivity|]. split.
  - repeat constructor.
    + eexists. split; [vm_compute; left|]; repeat split; vm_compute; reflexivity.
    + eexists. split; [vm_compute; right; left|]; repeat split; vm_compute; reflexivity.
  - repeat split; vm_compute; reflexivity.
Qed.

(** C3.  [database.js] on an empty Master List and a batch that lists
    the identifier A1 twice: both rows are staged for insertion, neither
    supersedes the other, the one [insert] statement breaks the uniqueness
    of [hb] and leaves the table empty, so that A1 has no entry although
    two additions are reported.  The local-storage gateway on the same
    batch ends with one entry for A1 that carries the second row's values. *)
Theorem supabase_updateMasterList_stages_duplicates :
  let rows := [Sample.parsed "A1" ""; Sample.parsed "A1" "01/02/2024"] in
  let staged := Supabase.stage 100 "u1" rows Sample.empty_db in
  let local := LocalStorage.updateMasterList parseFloat numberToString
                 100 "u1" rows Sample.empty_storage in
  map (fun d => (hb (Supabase.data_fields d), frl (Supabase.data_fields d)))
      (fst staged) = [("A1", None); ("A1", Some "01/02/2024")] /\
  snd staged = [] /\
  Supabase.insert_master (fst staged) Sample.empty_db =
    (Sample.empty_db, Some Supabase.unique_violation) /\
  Supabase.updateMasterList 100 "u1" rows Sample.empty_db =
    (Sample.empty_db, {| itemsAdded := 2; itemsUpdated := 0 |}) /\
  map (fun m => (hb (item_fields m), frl (item_fields m), first_seen_upload_id m))
      (LocalStorage.master_list (fst local)) =
    [("A1", Some "01/02/2024", Some "u1")] /\
  snd local = {| itemsAdded := 1; itemsUpdated := 1 |}.
Proof. repeat split; vm_compute; reflexivity. Qed.

(** C7.  [database.js] on an empty Master List and a batch of three rows
    of which two carry the same identifier: the [insert] statement comes
    back with a uniqueness violation and persists nothing; the result of
    [updateMasterList] is the one of a run without failure, and it
    reports three items added. *)
Theorem supabase_updateMasterList_swallows_failure :
  let rows := [Sample.parsed "A1" ""; Sample.parsed "B2" ""; Sample.parsed "A1" "x"] in
  let staged := Supabase.stage 100 "u1" rows Sample.empty_db in
  Supabase.run_batches Supabase.insert_master
    (Supabase.batches 1000 (fst staged)) Sample.empty_db =
    (Sample.empty_db, [Some Supabase.unique_violation]) /\
  Supabase.updateMasterList 100 "u1" rows Sample.empty_db =
    (Sample.empty_db, {| itemsAdded := 3; itemsUpdated := 0 |}) /\
  Supabase.master_list
    (fst (Supabase.updateMasterList 100 "u1" rows Sample.empty_db)) = [].
Proof. repeat split; vm_compute; reflexivity. Qed.

End Reconciliation.

(** ** Deleting an upload *)

Lemma List_filter_idem {A} (f : A -> bool) (l : list A) :
  List.filter f (List.filter f l) = List.filter f l.
Proof.
  induction l as [|x l IH]; [reflexivity|].
  simpl. destruct (f x) eqn:E; [|exact IH]. simpl. now rewrite E, IH.
Qed.

Section DeleteUpload.

(** The entry [m] with each of its two references set to [null] when it
    refers to [uploadId]. *)
Definition clear_references (uploadId : string) (m : master_item) : master_item := {|
  item_id := item_id m;
  item_fields := item_fields m;
  first_seen_upload_id := Supabase.set_null uploadId (first_seen_upload_id m);
  last_updated_upload_id :=
    Supabase.set_null uploadId (last_updated_upload_id m);
  last_update_reason := last_update_reason m;
  created_at := created_at m;
  updated_at := updated_at m
|}.

Lemma references_spec (uploadId : string) (r : option string) :
  Supabase.references uploadId r = true <-> r = Some uploadId.
Proof.
  destruct r as [u|]; simpl; [|split; discriminate].
  rewrite String.eqb_eq. split; congruence.
Qed.

Lemma set_null_spec (uploadId : string) (r : option string) :
  (r = Some uploadId -> Supabase.set_null uploadId r = None) /\
  (r <> Some uploadId -> Supabase.set_null uploadId r = r).
Proof.
  unfold Supabase.set_null.
  destruct (Supabase.references uploadId r) eqn:E.
  - apply references_spec in E. split; [reflexivity | congruence].
  - apply not_true_iff_false in E. rewrite references_spec in E.
    split; [congruence | reflexivity].
Qed.

(** C9, as amended.  In both gateways [deleteUpload] removes the report
    rows of the upload and keeps the others as they are, in their order.
    [deleteUpload] of [database.js] deletes no entry of the Master List
    (no policy lets the client delete from [master_list]); the foreign keys
    set to [null] every [first_seen_upload_id] and every
    [last_updated_upload_id] that refers to the deleted upload, in whatever
    entry, and nothing else of an entry changes.  [deleteUpload] of the
    local-storage gateway leaves the Master List as it is. *)
Theorem deleteUpload_spec (uploadId : string) (db : Supabase.database)
    (st : LocalStorage.storage) :
  let db' := fst (Supabase.deleteUpload uploadId db) in
  let st' := fst (LocalStorage.deleteUpload uploadId st) in
  (Supabase.report_data db' =
     List.filter (fun r => negb (String.eqb (report_upload_id r) uploadId))
       (Supabase.report_data db) /\
   LocalStorage.report_data st' =
     List.filter (fun r => negb (String.eqb (report_upload_id r) uploadId))
       (LocalStorage.report_data st)) /\
  (forall r, r ∈ Supabase.report_data db' <->
             r ∈ Supabase.report_data db /\ report_upload_id r <> uploadId) /\
  Supabase.master_list db' =
    map (clear_references uploadId) (Supabase.master_list db) /\
  (forall m,
     let m' := clear_references uploadId m in
     item_id m' = item_id m /\ item_fields m' = item_fields m /\
     last_update_reason m' = last_update_reason m /\
     created_at m' = created_at m /\ updated_at m' = updated_at m /\
     (first_seen_upload_id m = Some uploadId -> first_seen_upload_id m' = None) /\
     (first_seen_upload_id m <> Some uploadId ->
      first_seen_upload_id m' = first_seen_upload_id m) /\
     (last_updated_upload_id m = Some uploadId ->
      last_updated_upload_id m' = None) /\
     (last_updated_upload_id m <> Some uploadId ->
      last_updated_upload_id m' = last_updated_upload_id m)) /\
  LocalStorage.master_list st' = LocalStorage.master_list st.
Proof.
  intros db' st'.
  assert (Hr : Supabase.report_data db' =
               List.filter (fun r => negb (String.eqb (report_upload_id r) uploadId))
                 (Supabase.report_data db)).
  { subst db'. cbn. apply List_filter_idem. }
  split; [split; [exact Hr | reflexivity]|]. split; [|split; [|split]].
  - intros r. rewrite Hr, elem_of_List_filter, negb_true_iff, String.eqb_neq.
    reflexivity.
  - reflexivity.
  - intros m m'. subst m'. cbn [clear_references item_id item_fields
      last_update_reason created_at updated_at first_seen_upload_id
      last_updated_upload_id].
    pose proof (set_null_spec uploadId (first_seen_upload_id m)) as [H1 H2].
    pose proof (set_null_spec uploadId (last_updated_upload_id m)) as [H3 H4].
    repeat split; assumption.
  - reflexivity.
Qed.

End DeleteUpload.

(** C9, counterexample.  In [database.js], an entry first seen in upload
    u1 and last updated by upload u2: deleting u2 changes the entry, whose
    [last_updated_upload_id] becomes [null], although it was first seen
    under another upload.  In the local-storage gateway, an entry first
    seen in upload u2: deleting u2 neither deletes it nor sets its
    reference to [null]. *)
Lemma deleteUpload_differs_from_claim :
  let entry := {| item_id := 0; item_fields := Sample.stored "A1" (Some "01/02/2024");
                  first_seen_upload_id := Some "u1";
                  last_updated_upload_id := Some "u2";
                  last_update_reason := Some "FRL";
                  created_at := Some 1000%Z; updated_at := Some 2000%Z |} in
  let db := {| Supabase.uploads := [Sample.tuesday; Sample.monday];
               Supabase.report_data := [];
               Supabase.master_list := [entry];
               Supabase.next_item_id := 1 |} in
  let db' := fst (Supabase.deleteUpload "u2" db) in
  let later := {| item_id := 1; item_fields := Sample.stored "B2" None;
                  first_seen_upload_id := Some "u2";
                  last_updated_upload_id := Some "u2";
                  last_update_reason := None;
                  created_at := Some 2000%Z; updated_at := Some 2000%Z |} in
  let st := {| LocalStorage.uploads := [Sample.tuesday; Sample.monday];
               LocalStorage.report_data := [];
               LocalStorage.master_list := [later];
               LocalStorage.next_id := 2 |} in
  let st' := fst (LocalStorage.deleteUpload "u2" st) in
  first_seen_upload_id entry <> Some "u2" /\
  (entry ∈ Supabase.master_list db) /\
  (entry ∉ Supabase.master_list db') /\
  map last_updated_upload_id (Supabase.master_list db') = [None] /\
  map upload_id (LocalStorage.uploads st') = ["u1"] /\
  LocalStorage.master_list st' = [later] /\
  first_seen_upload_id later = Some "u2".
Proof.
  repeat split.
  - discriminate.
  - constructor.
  - vm_compute. intros H. apply list_elem_of_In in H as [H|[]]. discriminate.
Qed.

(** ** Identifiers from cleaning to the tables *)

(** C10.  The identifier ["62r0537240"] from the parsed file to the
    tables.  [cleanData] of [csvUtils.js] normalises it with its own
    [normalizeHB], which keeps it, and keeps it when applied again.
    [saveReportData] and [updateMasterList] of [database.js] normalise the
    cleaned identifier with the [normalizeHB] of [database.js], a different
    function: the report row and the Master List entry hold
    ["62R0537240"].  The [normalizeHB] of the earlier [database.js] reads
    the cleaned identifier as a number and gives ["62"].  The
    local-storage gateway, whose [normalizeHB] is the one of
    [csvUtils.js], stores the cleaned identifier as it is.  Each function
    applied to its own result changes nothing here; [normalizeHB] of
    [database.js] is idempotent on every input. *)
Theorem normalizeHB_changes_cleaned_identifier :
  let parseFloat := DecimalRuntime.parseFloat in
  let numberToString := DecimalRuntime.numberToString in
  let cleaned := CsvClean.cleanData parseFloat numberToString
                   [Sample.parsed " 62r0537240" ""] in
  let db0 := {| Supabase.uploads := [Sample.monday]; Supabase.report_data := [];
                Supabase.master_list := []; Supabase.next_item_id := 0 |} in
  let db1 := fst (Supabase.saveReportData "u1" cleaned db0) in
  let db2 := fst (Supabase.updateMasterList 100 "u1" cleaned db1) in
  let st := fst (LocalStorage.updateMasterList parseFloat numberToString 100 "u1"
                   cleaned Sample.empty_storage) in
  map (fun row => row !! "HB") cleaned = [Some "62r0537240"] /\
  CsvUtils.normalizeHB parseFloat numberToString (Some "62r0537240") = "62r0537240" /\
  Supabase.normalizeHB (Some "62r0537240") = "62R0537240" /\
  map (fun r => hb (report_fields r)) (Supabase.report_data db1) = ["62R0537240"] /\
  map (fun m => hb (item_fields m)) (Supabase.master_list db2) = ["62R0537240"] /\
  Legacy.normalizeHB parseFloat numberToString (Some "62r0537240") = "62" /\
  map (fun m => hb (item_fields m)) (LocalStorage.master_list st) = ["62r0537240"] /\
  Supabase.normalizeHB (Some "62R0537240") = "62R0537240" /\
  Legacy.normalizeHB parseFloat numberToString (Some "62") = "62" /\
  (forall x, Supabase.normalizeHB (Some (Supabase.normalizeHB x)) =
             Supabase.normalizeHB x).
Proof.
  intros parseFloat numberToString cleaned db0 db1 db2 st.
  split; [vm_compute; reflexivity|]. split; [vm_compute; reflexivity|].
  split; [vm_compute; reflexivity|]. split; [vm_compute; reflexivity|].
  split; [vm_compute; reflexivity|]. split; [vm_compute; reflexivity|].
  split; [vm_compute; reflexivity|]. split; [vm_compute; reflexivity|].
  split; [vm_compute; reflexivity|].
  apply supabase_normalizeHB_idem.
Qed.

(** * Further operations of the gateways and of [csvUtils.js] *)

(** ** [database.js]: the views of a report and of the Master List *)

Module Views.

Import Supabase.

(** [.or('frl.is.null,frl.eq.')] *)
Definition lacks_frl (r : fields) : bool :=
  match frl r with
  | Some s => String.eqb s ""
  | None => true
  end.

(** [getReportData(uploadId, filter)]; the rows come in table order. *)
Definition getReportData (db : database) (uploadId : string) (filter : string)
  : list fields :=
  let rows := rows_of db uploadId in
  if String.eqb filter "with_frl" then List.filter has_frl rows
  else if String.eqb filter "without_frl" then List.filter lacks_frl rows
  else rows.

(** [getMasterListData(filter)] *)
Definition getMasterListData (db : database) (filter : string)
  : list master_item :=
  let rows := master_list db in
  if String.eqb filter "with_frl"
  then List.filter (fun m => has_frl (item_fields m)) rows
  else if String.eqb filter "without_frl"
  then List.filter (fun m => lacks_frl (item_fields m)) rows
  else rows.

(** [r.frl && r.frl.trim() !== ''] *)
Definition frl_present (r : fields) : bool :=
  match frl r with
  | Some s => truthy s && negb (String.eqb (trim s) "")
  | None => false
  end.

Record metrics : Type := { totalRows : nat; withFrl : nat; withoutFrl : nat }.

(** [getMasterListMetrics()] *)
Definition getMasterListMetrics (db : database) : metrics :=
  let allData := map item_fields (master_list db) in
  let totalRows := length allData in
  let withFrl := length (List.filter frl_present allData) in
  {| totalRows := totalRows; withFrl := withFrl;
     withoutFrl := totalRows - withFrl |}.

(** [.order('upload_date', { ascending: false }).limit(1).single()] and
    [data?.id || null]; an upload whose id is the empty string counts as
    none. *)
Definition getLatestUploadId (db : database) : option string :=
  match single (take 1 (order_by_date_desc (uploads db))) with
  | Some u => if truthy (upload_id u) then Some (upload_id u) else None
  | None => None
  end.

(** [getMasterListNewItems()] *)
Definition getMasterListNewItems (db : database) : nat * list master_item :=
  match getLatestUploadId db with
  | None => (0%nat, [])
  | Some latestUploadId =>
      let data :=
        List.filter (fun m => references latestUploadId (first_seen_upload_id m))
          (master_list db) in
      (length data, data)
  end.

(** [getMasterListUpdatedItems()] *)
Definition getMasterListUpdatedItems (db : database) : nat * list master_item :=
  match getLatestUploadId db with
  | None => (0%nat, [])
  | Some latestUploadId =>
      let data :=
        List.filter
          (fun m => references latestUploadId (last_updated_upload_id m)
                    && match last_update_reason m with Some _ => true | None => false end)
          (master_list db) in
      (length data, data)
  end.

Section Released.

Variable LocalTZA : Z -> bool -> Z.
Variable parseFloat : string -> number.

(** [getNewlyFrldData(currentUploadId)] *)
Definition getNewlyFrldData (db : database) (currentUploadId : string)
  : list fields :=
  match previousUpload db currentUploadId with
  | None => []
  | Some prev =>
      let currentWithFrl := List.filter has_frl (rows_of db currentUploadId) in
      match currentWithFrl with
      | [] => []
      | _ =>
          let prevFrlMap := prev_frl_map LocalTZA parseFloat (rows_of db (upload_id prev)) in
          let newlyFrldHbs :=
            map hb (List.filter (newly_frld LocalTZA parseFloat prevFrlMap) currentWithFrl) in
          match newlyFrldHbs with
          | [] => []
          | _ =>
              List.filter (fun r => string_in (hb r) newlyFrldHbs)
                (rows_of db currentUploadId)
          end
      end
  end.

End Released.

End Views.

(** ** Properties of the views *)

Section ViewFacts.

Import Supabase.

Lemma length_List_filter_split {A} (f g : A -> bool) (l : list A) :
  (forall x, x ∈ l -> g x = negb (f x)) ->
  length l = (length (List.filter f l) + length (List.filter g l))%nat.
Proof.
  induction l as [|x l IH]; intros H; [reflexivity|].
  simpl. rewrite (H x) by constructor.
  rewrite (IH (fun y Hy => H y (list_elem_of_further _ _ _ Hy))).
  destruct (f x); simpl; lia.
Qed.

Lemma length_List_filter_le {A} (f g : A -> bool) (l : list A) :
  (forall x, x ∈ l -> f x = true -> g x = true) ->
  (length (List.filter f l) <= length (List.filter g l))%nat.
Proof.
  induction l as [|x l IH]; intros H; [reflexivity|].
  simpl. specialize (IH (fun y Hy => H y (list_elem_of_further _ _ _ Hy))).
  destruct (f x) eqn:Ef.
  - rewrite (H x) by (constructor || exact Ef). simpl. lia.
  - destruct (g x); simpl; lia.
Qed.

Lemma List_filter_ext_in {A} (f g : A -> bool) (l : list A) :
  (forall x, x ∈ l -> f x = g x) -> List.filter f l = List.filter g l.
Proof.
  intros H. apply filter_ext_in. intros x Hx. apply H. now apply list_elem_of_In.
Qed.

Lemma lacks_frl_has_frl (r : fields) : Views.lacks_frl r = negb (has_frl r).
Proof.
  unfold Views.lacks_frl, has_frl. destruct (frl r) as [s|]; [|reflexivity].
  now rewrite eqb_empty.
Qed.

(** X8.  The two FRL filters of [getReportData] split the rows of an upload:
    every row is in exactly one of the two filtered views, and any other
    filter string gives all the rows. *)
Theorem getReportData_partition (db : database) (uploadId : string) :
  let every := Views.getReportData db uploadId "all" in
  let released := Views.getReportData db uploadId "with_frl" in
  let pending := Views.getReportData db uploadId "without_frl" in
  (forall r, r ∈ every <-> r ∈ released \/ r ∈ pending) /\
  (forall r, r ∈ released -> r ∉ pending) /\
  length every = (length released + length pending)%nat /\
  (forall filter, filter <> "with_frl" -> filter <> "without_frl" ->
                  Views.getReportData db uploadId filter = every).
Proof.
  unfold Views.getReportData. cbn [String.eqb Ascii.eqb Bool.eqb].
  set (rows := rows_of db uploadId).
  repeat split.
  - intros Hr. destruct (has_frl r) eqn:E.
    + left. apply elem_of_List_filter. auto.
    + right. apply elem_of_List_filter. split; [exact Hr|].
      now rewrite lacks_frl_has_frl, E.
  - intros [H|H]; apply elem_of_List_filter in H; tauto.
  - intros r Hr Hp. apply elem_of_List_filter in Hr as [_ Hr].
    apply elem_of_List_filter in Hp as [_ Hp].
    rewrite lacks_frl_has_frl, Hr in Hp. discriminate.
  - apply length_List_filter_split. intros x _. apply lacks_frl_has_frl.
  - intros filter H1 H2.
    apply String.eqb_neq in H1, H2. now rewrite H1, H2.
Qed.

(** An FRL cell that is not empty but blank. *)
Definition blank_frl (r : fields) : bool :=
  match frl r with
  | Some s => truthy s && String.eqb (trim s) ""
  | None => false
  end.

(** X9.  The metrics of the Master List add up, and the count [withFrl],
    which trims the cell, is the length of the view filtered by
    [with_frl], which does not, less the entries whose FRL cell is blank. *)
Theorem getMasterListMetrics_spec (db : database) :
  let m := Views.getMasterListMetrics db in
  Views.totalRows m = length (Views.getMasterListData db "all") /\
  (Views.withFrl m + Views.withoutFrl m)%nat = Views.totalRows m /\
  (Views.withFrl m +
   length (List.filter (fun e => blank_frl (item_fields e)) (master_list db)))%nat =
  length (Views.getMasterListData db "with_frl").
Proof.
  unfold Views.getMasterListMetrics, Views.getMasterListData.
  cbn [String.eqb Ascii.eqb Bool.eqb Views.totalRows Views.withFrl Views.withoutFrl].
  induction (master_list db) as [|e l IH]; [repeat split|].
  destruct IH as (H1 & H2 & H3). cbn [map length List.filter].
  pose proof (List_filter_length_le Views.frl_present (map item_fields l)) as Hle.
  assert (Hcase : Views.frl_present (item_fields e) = true /\
                  blank_frl (item_fields e) = false /\
                  has_frl (item_fields e) = true
                  \/ Views.frl_present (item_fields e) = false /\
                     blank_frl (item_fields e) = true /\
                     has_frl (item_fields e) = true
                  \/ Views.frl_present (item_fields e) = false /\
                     blank_frl (item_fields e) = false /\
                     has_frl (item_fields e) = false).
  { unfold Views.frl_present, blank_frl, has_frl.
    destruct (frl (item_fields e)) as [s|]; [|tauto].
    destruct (truthy s); [|tauto].
    destruct (String.eqb (trim s) ""); simpl; tauto. }
  destruct Hcase as [(-> & -> & ->)|[(-> & -> & ->)|(-> & -> & ->)]];
    cbn [length]; repeat split; lia.
Qed.

Lemma length_filter_map {A B} (f : A -> B) (p : B -> bool) (l : list A) :
  length (List.filter p (map f l)) = length (List.filter (fun x => p (f x)) l).
Proof.
  induction l as [|x l IH]; [reflexivity|].
  simpl. destruct (p (f x)); simpl; now rewrite IH.
Qed.

(** X10.  The counts of new and of removed items are the lengths of the views
    of new and of removed items. *)
Theorem detect_counts_match_data (db : database) (cur : string) :
  detectNewItems db cur = length (getNewItemsData db cur) /\
  detectRemovedItems db cur = length (getRemovedItemsData db cur).
Proof.
  unfold detectNewItems, detectRemovedItems, getNewItemsData, getRemovedItemsData.
  destruct (previousUpload db cur) as [prev|]; [|split; reflexivity].
  unfold hbs_of. split.
  - rewrite List_filter_filter, length_filter_map. reflexivity.
  - rewrite List_filter_filter, length_filter_map. reflexivity.
Qed.

End ViewFacts.

(** ** Deleting an upload, continued *)

Section DeleteFacts.

Import Supabase.

Lemma set_null_not_references (u : string) (r : option string) :
  references u (set_null u r) = false.
Proof.
  unfold set_null. destruct (references u r) eqn:E; [reflexivity | exact E].
Qed.

Lemma set_null_fixed (u : string) (r : option string) :
  references u r = false -> set_null u r = r.
Proof. unfold set_null. now intros ->. Qed.

Lemma List_filter_all {A} (f : A -> bool) (l : list A) :
  (forall x, x ∈ l -> f x = true) -> List.filter f l = l.
Proof.
  induction l as [|x l IH]; intros H; [reflexivity|].
  simpl. rewrite (H x) by constructor.
  f_equal. apply IH. intros y Hy. apply H. now constructor.
Qed.

Lemma deleteUpload_clears (uploadId : string) (db : database) :
  (forall u, u ∈ uploads (fst (deleteUpload uploadId db)) ->
             upload_id u <> uploadId) /\
  (forall r, r ∈ report_data (fst (deleteUpload uploadId db)) ->
             report_upload_id r <> uploadId) /\
  (forall m, m ∈ master_list (fst (deleteUpload uploadId db)) ->
             first_seen_upload_id m <> Some uploadId /\
             last_updated_upload_id m <> Some uploadId).
Proof.
  simpl. repeat split.
  - intros u Hu. apply elem_of_List_filter in Hu as [_ Hu].
    now apply negb_true_iff, String.eqb_neq in Hu.
  - intros r Hr. apply elem_of_List_filter in Hr as [_ Hr].
    now apply negb_true_iff, String.eqb_neq in Hr.
  - apply list_elem_of_fmap in H as (k & -> & Hk). simpl.
    intros E. apply references_spec in E.
    now rewrite set_null_not_references in E.
  - apply list_elem_of_fmap in H as (k & -> & Hk). simpl.
    intros E. apply references_spec in E.
    now rewrite set_null_not_references in E.
Qed.

Lemma deleteUpload_without_reference (uploadId : string) (db : database) :
  (forall u, u ∈ uploads db -> upload_id u <> uploadId) ->
  (forall r, r ∈ report_data db -> report_upload_id r <> uploadId) ->
  (forall m, m ∈ master_list db ->
             first_seen_upload_id m <> Some uploadId /\
             last_updated_upload_id m <> Some uploadId) ->
  deleteUpload uploadId db = (db, true).
Proof.
  intros Hu Hr Hm.
  unfold deleteUpload, delete_upload_record, delete_where.
  cbn [policy fst uploads report_data master_list next_item_id].
  assert (E1 : List.filter (fun u => negb (String.eqb (upload_id u) uploadId))
                 (uploads db) = uploads db).
  { apply List_filter_all. intros u H. apply negb_true_iff, String.eqb_neq.
    now apply Hu. }
  assert (E2 : List.filter (fun r => negb (String.eqb (report_upload_id r) uploadId))
                 (report_data db) = report_data db).
  { apply List_filter_all. intros r H. apply negb_true_iff, String.eqb_neq.
    now apply Hr. }
  rewrite !E2, E1.
  assert (E4 : map (fun m =>
                 {| item_id := item_id m; item_fields := item_fields m;
                    first_seen_upload_id := set_null uploadId (first_seen_upload_id m);
                    last_updated_upload_id := set_null uploadId (last_updated_upload_id m);
                    last_update_reason := last_update_reason m;
                    created_at := created_at m; updated_at := updated_at m |})
                 (master_list db) = master_list db).
  { rewrite <- (map_id (master_list db)) at 2. apply map_ext_in.
    intros m H. apply list_elem_of_In, Hm in H as [H1 H2].
    rewrite !set_null_fixed
      by (apply not_true_is_false; now rewrite references_spec).
    now destruct m. }
  rewrite E4. now destruct db.
Qed.

(** X12.  After [deleteUpload] nothing in the three tables refers to the
    deleted upload, and deleting it a second time changes nothing. *)
Theorem deleteUpload_leaves_no_reference (uploadId : string) (db : database) :
  let db' := fst (deleteUpload uploadId db) in
  (forall u, u ∈ uploads db' -> upload_id u <> uploadId) /\
  (forall r, r ∈ report_data db' -> report_upload_id r <> uploadId) /\
  (forall m, m ∈ master_list db' ->
             first_seen_upload_id m <> Some uploadId /\
             last_updated_upload_id m <> Some uploadId) /\
  deleteUpload uploadId db' = (db', true).
Proof.
  intros db'. subst db'.
  destruct (deleteUpload_clears uploadId db) as (Hu & Hr & Hm).
  split; [exact Hu|]. split; [exact Hr|]. split; [exact Hm|].
  now apply deleteUpload_without_reference.
Qed.

End DeleteFacts.

(** ** Change detection *)

Section ChangeFacts.

Import Supabase.

(** X1.  [hasValueChanged] holds exactly when the new value is not blank and
    differs, once trimmed, from the old one; a value that stays the same or
    becomes blank is never a change. *)
Theorem hasValueChanged_spec (oldVal newVal : option string) :
  hasValueChanged oldVal newVal = true <->
  trim (or_empty newVal) <> "" /\ trim (or_empty oldVal) <> trim (or_empty newVal).
Proof.
  unfold hasValueChanged.
  set (old := trim (or_empty oldVal)). set (now := trim (or_empty newVal)).
  destruct (truthy old) eqn:Ho; destruct (truthy now) eqn:Hn; cbn [negb andb].
  - apply truthy_true in Ho, Hn.
    destruct (String.eqb old now) eqn:E; cbn [negb].
    + apply String.eqb_eq in E. split; [discriminate | tauto].
    + apply String.eqb_neq in E. tauto.
  - apply truthy_false in Hn. split; [discriminate | tauto].
  - apply truthy_false in Ho. apply truthy_true in Hn.
    split; [|reflexivity]. intros _. split; [exact Hn | congruence].
  - apply truthy_false in Hn. split; [discriminate | tauto].
Qed.

End ChangeFacts.

(** ** The latest upload and the items released since the previous one *)

Section LatestFacts.

Import Supabase.

Local Open Scope Z_scope.

(** X7.  [getLatestUploadId] returns the identifier of an upload with the
    latest date, and none when there is no upload. *)
Theorem getLatestUploadId_spec (db : database) :
  match Views.getLatestUploadId db with
  | Some i =>
      exists u, u ∈ uploads db /\ upload_id u = i /\
                forall v, v ∈ uploads db -> upload_date v <= upload_date u
  | None =>
      uploads db = [] \/
      exists u, u ∈ uploads db /\ upload_id u = "" /\
                forall v, v ∈ uploads db -> upload_date v <= upload_date u
  end.
Proof.
  unfold Views.getLatestUploadId.
  pose proof (head_order_by_date_desc (uploads db)) as H.
  destruct (order_by_date_desc (uploads db)) as [|u l]; simpl in *.
  - now left.
  - destruct H as [Hu Hmax]. destruct (truthy (upload_id u)) eqn:E.
    + exists u. auto.
    + right. exists u. apply truthy_false in E. auto.
Qed.

Variable LocalTZA : Z -> bool -> Z.
Variable parseFloat : string -> number.

Lemma string_in_spec (s : string) (l : list string) :
  string_in s l = true <-> s ∈ l.
Proof.
  unfold string_in. rewrite existsb_exists. split.
  - intros (x & Hx & E). apply String.eqb_eq in E. subst x.
    now apply list_elem_of_In.
  - intros H. exists s. split; [now apply list_elem_of_In | apply String.eqb_refl].
Qed.

(** X11.  The view of the newly released items holds every row that
    [detectNewlyFrld] counts, and only rows that carry the identifier of a
    counted row; the two agree in number when the current batch lists no
    identifier twice. *)
Theorem getNewlyFrldData_spec (db : database) (cur : string) :
  (detectNewlyFrld LocalTZA parseFloat db cur <=
   length (Views.getNewlyFrldData LocalTZA parseFloat db cur))%nat /\
  (NoDup (map hb (rows_of db cur)) ->
   detectNewlyFrld LocalTZA parseFloat db cur =
   length (Views.getNewlyFrldData LocalTZA parseFloat db cur)).
Proof.
  unfold detectNewlyFrld, Views.getNewlyFrldData.
  destruct (previousUpload db cur) as [prev|]; [|split; reflexivity].
  set (rows := rows_of db cur).
  set (m := prev_frl_map LocalTZA parseFloat (rows_of db (upload_id prev))).
  destruct (List.filter has_frl rows) as [|r0 rest] eqn:Ewith;
    [split; reflexivity|].
  rewrite <- Ewith. clear r0 rest Ewith.
  rewrite List_filter_filter.
  set (f := fun x => has_frl x && newly_frld LocalTZA parseFloat m x).
  set (counted := List.filter f rows).
  assert (Hsub : forall r, r ∈ rows -> f r = true -> hb r ∈ map hb counted).
  { intros r Hr Hf. apply list_elem_of_fmap. exists r. split; [reflexivity|].
    apply elem_of_List_filter. auto. }
  destruct (map hb counted) as [|h hs] eqn:Ehbs.
  - assert (counted = []) as -> by (now destruct counted).
    split; reflexivity.
  - rewrite <- Ehbs in *. clear h hs Ehbs. split.
    + apply length_List_filter_le. intros r Hr Hf.
      apply string_in_spec. now apply Hsub.
    + intros Hnd. f_equal. apply List_filter_ext_in. intros r Hr.
      destruct (string_in (hb r) (map hb counted)) eqn:E.
      * apply string_in_spec, list_elem_of_fmap in E as (r' & Ehb & Hr').
        apply elem_of_List_filter in Hr' as [Hr' Hf'].
        assert (r = r') as -> by (eapply (NoDup_map_inj hb); eauto).
        exact Hf'.
      * apply not_true_is_false. intros Hf.
        apply (Hsub r Hr), string_in_spec in Hf. congruence.
Qed.

End LatestFacts.

(** ** Staging in [updateMasterList] of [database.js] *)

Section Staging.

Import Supabase.

(** The tracked fields of the entry [m] that the row changes, by name. *)
Definition changed_fields (m : master_item) (row : csv_row) : list string :=
  (if hasValueChanged (frl (item_fields m)) (row !! "FRL") then ["FRL"] else []) ++
  (if hasValueChanged (tdf (item_fields m)) (row !! "TDF") then ["TDF"] else []) ++
  (if hasValueChanged (vbond (item_fields m)) (row !! "VBOND#") then ["VBOND"] else []).

(** What a staged insertion is: built from a row of the batch whose
    identifier is not empty and not in the Master List. *)
Definition staged_insert_ok (now : Z) (uploadId : string) (rows : list csv_row)
    (db : database) (d : itemData) : Prop :=
  exists row,
    row ∈ rows /\
    let h := normalizeHB (row !! "HB") in
    h <> "" /\
    (forall m, m ∈ master_list db -> hb (item_fields m) <> h) /\
    d = {| data_fields := fields_of_row row h;
           data_last_updated_upload_id := uploadId;
           data_updated_at := now;
           data_id := None;
           data_last_update_reason := None;
           data_first_seen_upload_id := Some uploadId;
           data_created_at := Some now |}.

(** What a staged update is: built from a row of the batch and an entry
    of the Master List with the row's identifier, of which the row changes
    a tracked field; it carries all the fields of the row and the names of
    the changed fields. *)
Definition staged_update_ok (now : Z) (uploadId : string) (rows : list csv_row)
    (db : database) (d : itemData) : Prop :=
  exists row m,
    row ∈ rows /\ m ∈ master_list db /\
    let h := normalizeHB (row !! "HB") in
    h <> "" /\ hb (item_fields m) = h /\
    changed_fields m row <> [] /\
    d = {| data_fields := fields_of_row row h;
           data_last_updated_upload_id := uploadId;
           data_updated_at := now;
           data_id := Some (item_id m);
           data_last_update_reason := Some (join_comma (changed_fields m row));
           data_first_seen_upload_id := None;
           data_created_at := None |}.

Lemma foldl_existing_lookup (l : list existing_item)
    (m0 : gmap string existing_item) (h : string) :
  match foldl (fun m item => <[existing_hb item := item]> m) m0 l !! h with
  | Some e => m0 !! h = Some e \/ (e ∈ l /\ existing_hb e = h)
  | None => m0 !! h = None /\ forall e, e ∈ l -> existing_hb e <> h
  end.
Proof.
  revert m0. induction l as [|x l IH]; intros m0; cbn [foldl].
  - destruct (m0 !! h); [now left|]. split; [reflexivity|].
    intros e He. inversion He.
  - specialize (IH (<[existing_hb x := x]> m0)).
    destruct (foldl _ _ l !! h) as [e|].
    + destruct IH as [IH|[IH1 IH2]].
      * destruct (decide (existing_hb x = h)) as [E|E].
        -- rewrite E, lookup_insert_eq in IH. injection IH as <-.
           right. split; [constructor | exact E].
        -- rewrite lookup_insert_ne in IH by exact E. now left.
      * right. split; [now constructor | exact IH2].
    + destruct IH as [IH1 IH2].
      destruct (decide (existing_hb x = h)) as [E|E].
      * rewrite E, lookup_insert_eq in IH1. discriminate.
      * rewrite lookup_insert_ne in IH1 by exact E. split; [exact IH1|].
        intros e He. apply elem_of_cons in He as [->|He]; [exact E | now apply IH2].
Qed.

Lemma existing_map_lookup (hbs : list string) (table : list master_item)
    (h : string) :
  string_in h hbs = true ->
  match existing_map hbs table !! h with
  | Some e => exists m, m ∈ table /\ hb (item_fields m) = h /\ e = select_existing m
  | None => forall m, m ∈ table -> hb (item_fields m) <> h
  end.
Proof.
  intros Hin. unfold existing_map.
  pose proof (foldl_existing_lookup
                (map select_existing
                   (List.filter (fun m => string_in (hb (item_fields m)) hbs) table))
                ∅ h) as H.
  destruct (foldl _ _ _ !! h) as [e|].
  - destruct H as [H|[H1 H2]]; [now rewrite lookup_empty in H|].
    apply list_elem_of_fmap in H1 as (m & -> & Hm).
    apply elem_of_List_filter in Hm as [Hm _]. now exists m.
  - destruct H as [_ H]. intros m Hm E.
    apply (H (select_existing m)); [|exact E].
    apply list_elem_of_fmap. exists m. split; [reflexivity|].
    apply elem_of_List_filter. split; [exact Hm|]. now rewrite E.
Qed.

Lemma hb_in_hbsToCheck (rows : list csv_row) (row : csv_row) :
  row ∈ rows -> truthy (normalizeHB (row !! "HB")) = true ->
  string_in (normalizeHB (row !! "HB"))
    (List.filter truthy (map (fun row => normalizeHB (row !! "HB")) rows)) = true.
Proof.
  intros Hrow Ht. apply string_in_spec, elem_of_List_filter.
  split; [|exact Ht]. apply list_elem_of_fmap. now exists row.
Qed.

(** X2.  Every object that [updateMasterList] stages is what the
    reconciliation calls for: an insertion for an identifier that the
    Master List lacks, or a full overwrite of an entry of which a tracked
    field changed, labelled with the names of the changed fields. *)
Theorem stage_sound (now : Z) (uploadId : string) (rows : list csv_row)
    (db : database) :
  Forall (staged_insert_ok now uploadId rows db) (fst (stage now uploadId rows db)) /\
  Forall (staged_update_ok now uploadId rows db) (snd (stage now uploadId rows db)).
Proof.
  unfold stage.
  set (hbs := List.filter truthy (map (fun row => normalizeHB (row !! "HB")) rows)).
  set (M := existing_map hbs (master_list db)).
  assert (Hgen : forall l acc,
             (forall r, r ∈ l -> r ∈ rows) ->
             Forall (staged_insert_ok now uploadId rows db) (fst acc) /\
             Forall (staged_update_ok now uploadId rows db) (snd acc) ->
             Forall (staged_insert_ok now uploadId rows db)
               (fst (foldl (stage_row now uploadId M) acc l)) /\
             Forall (staged_update_ok now uploadId rows db)
               (snd (foldl (stage_row now uploadId M) acc l))).
  { induction l as [|row l IH]; intros acc Hl Hacc; [exact Hacc|].
    cbn [foldl]. apply IH; [intros r Hr; apply Hl; now constructor|].
    assert (Hrow : row ∈ rows) by (apply Hl; constructor).
    destruct acc as [ins upd]. destruct Hacc as [Hins Hupd].
    unfold stage_row.
    destruct (truthy (normalizeHB (row !! "HB"))) eqn:Ht; cbn [negb];
      [|split; assumption].
    pose proof (existing_map_lookup hbs (master_list db) _
                  (hb_in_hbsToCheck rows row Hrow Ht)) as Hlook.
    fold M in Hlook. apply truthy_true in Ht.
    destruct (M !! normalizeHB (row !! "HB")) as [e|].
    - destruct Hlook as (m & Hm & Hhb & ->).
      change (existing_frl (select_existing m)) with (frl (item_fields m)).
      change (existing_tdf (select_existing m)) with (tdf (item_fields m)).
      change (existing_vbond (select_existing m)) with (vbond (item_fields m)).
      change (existing_id (select_existing m)) with (item_id m).
      fold (changed_fields m row).
      destruct (changed_fields m row) as [|c cs] eqn:Ec; cbn [length Nat.ltb Nat.leb];
        [split; assumption|].
      split; [exact Hins|]. cbn [snd]. apply Forall_app. split; [exact Hupd|].
      constructor; [|constructor].
      exists row, m. rewrite Ec. repeat split; try assumption. discriminate.
    - split; [|exact Hupd]. cbn [fst]. apply Forall_app. split; [exact Hins|].
      constructor; [|constructor].
      exists row. repeat split; assumption. }
  apply Hgen; [auto|]. split; constructor.
Qed.

End Staging.

(** ** Reconciliation in the local-storage gateway *)

Section LocalReconciliation.

Import LocalStorage.

Variable parseFloat : string -> number.
Variable numberToString : number -> string.

Abbreviation normalizeHB := (LocalStorage.normalizeHB parseFloat numberToString).
Abbreviation reconcile_row := (LocalStorage.reconcile_row parseFloat numberToString).
Abbreviation updateMasterList :=
  (LocalStorage.updateMasterList parseFloat numberToString).

Definition hb_of (m : master_item) : string := hb (item_fields m).

(** The rows of a batch that can be reconciled: those whose normalised
    identifier is not empty. *)
Definition reconcilable (rows : list csv_row) : list csv_row :=
  List.filter (fun row => truthy (normalizeHB (row !! "HB"))) rows.

Lemma findIndex_Some {A} (p : A -> bool) (l : list A) (i : nat) :
  findIndex p l = Some i ->
  exists x, l !! i = Some x /\ p x = true.
Proof.
  revert i. induction l as [|a l IH]; intros i; simpl; [discriminate|].
  destruct (p a) eqn:E.
  - intros [= <-]. now exists a.
  - destruct (findIndex p l) as [j|]; simpl; [|discriminate].
    intros [= <-]. now apply IH.
Qed.

Lemma findIndex_None {A} (p : A -> bool) (l : list A) :
  findIndex p l = None -> forall x, x ∈ l -> p x = false.
Proof.
  induction l as [|a l IH]; simpl; intros H x Hx; [inversion Hx|].
  destruct (p a) eqn:E; [discriminate|].
  destruct (findIndex p l); [discriminate|].
  apply elem_of_cons in Hx as [->|Hx]; [exact E | now apply IH].
Qed.

(** One turn of the loop, case by case. *)
Lemma reconcile_row_cases (now : Z) (uploadId : string) (s : loop_state)
    (row : csv_row) :
  let h := normalizeHB (row !! "HB") in
  (h = "" /\ reconcile_row now uploadId s row = s) \/
  (h <> "" /\
   exists i existing,
     masterList s !! i = Some existing /\ hb_of existing = h /\
     reconcile_row now uploadId s row =
     {| masterList :=
          <[i := merge existing (fields_of_row row h) uploadId now]> (masterList s);
        fresh := fresh s; added := added s; updated := S (updated s) |}) \/
  (h <> "" /\
   (forall m, m ∈ masterList s -> hb_of m <> h) /\
   reconcile_row now uploadId s row =
   {| masterList :=
        masterList s ++
        [{| item_id := fresh s; item_fields := fields_of_row row h;
            first_seen_upload_id := Some uploadId;
            last_updated_upload_id := Some uploadId;
            last_update_reason := None;
            created_at := Some now; updated_at := Some now |}];
      fresh := S (fresh s); added := S (added s); updated := updated s |}).
Proof.
  intros h. unfold LocalStorage.reconcile_row. fold h.
  destruct (truthy h) eqn:Ht; cbn [negb].
  - apply truthy_true in Ht. right.
    destruct (findIndex _ (masterList s)) as [i|] eqn:Ef.
    + left. split; [exact Ht|].
      apply findIndex_Some in Ef as (existing & Hi & Hp).
      apply String.eqb_eq in Hp. exists i, existing. rewrite Hi. auto.
    + right. split; [exact Ht|]. split; [|reflexivity].
      intros m Hm E. pose proof (findIndex_None _ _ Ef m Hm) as Hp.
      apply String.eqb_neq in Hp. now apply Hp.
  - apply truthy_false in Ht. left. auto.
Qed.

Lemma map_hb_insert (l : list master_item) (i : nat) (x y : master_item) :
  l !! i = Some x -> hb_of y = hb_of x ->
  map hb_of (<[i := y]> l) = map hb_of l.
Proof.
  intros Hi Hy. change (map hb_of) with (fmap (M:=list) hb_of).
  rewrite list_fmap_insert, Hy.
  apply list_insert_id. now rewrite list_lookup_fmap, Hi.
Qed.

(** The loop state after the rows [rows], from the state [s]. *)
Definition run (now : Z) (uploadId : string) (s : loop_state)
    (rows : list csv_row) : loop_state :=
  foldl (reconcile_row now uploadId) s rows.

(** The loop keeps the identifiers of the Master List pairwise distinct,
    adds one entry per addition it counts, and counts every row that can be
    reconciled once, as an addition or as an update. *)
Lemma run_invariant (now : Z) (uploadId : string) (rows : list csv_row)
    (s : loop_state) :
  let s' := run now uploadId s rows in
  (NoDup (map hb_of (masterList s)) -> NoDup (map hb_of (masterList s'))) /\
  length (masterList s') = (length (masterList s) + (added s' - added s))%nat /\
  (added s <= added s')%nat /\
  (added s' + updated s' = added s + updated s + length (reconcilable rows))%nat.
Proof.
  revert s. induction rows as [|row rows IH]; intros s.
  - cbn. repeat split; [tauto | lia | lia | lia].
  - cbn [run foldl]. specialize (IH (reconcile_row now uploadId s row)).
    fold (run now uploadId (reconcile_row now uploadId s row) rows) in *.
    cbv zeta in IH. destruct IH as (I1 & I2 & I3 & I4).
    unfold reconcilable in *. cbn [List.filter].
    destruct (reconcile_row_cases now uploadId s row)
      as [[Hh E]|[(Hh & i & ex & Hi & Hex & E)|(Hh & Hnew & E)]].
    + rewrite E in *. apply truthy_false in Hh. rewrite Hh.
      repeat split; [exact I1 | lia | lia | lia].
    + apply truthy_true in Hh. rewrite Hh. rewrite E in *.
      cbn [masterList added updated length] in *.
      rewrite length_insert in I2.
      rewrite (map_hb_insert _ i ex) in I1
        by (first [exact Hi | symmetry; exact Hex]).
      repeat split; [exact I1 | lia | lia | lia].
    + apply truthy_true in Hh. rewrite Hh. rewrite E in *.
      cbn [masterList added updated length] in *.
      rewrite length_app in I2. cbn [length] in I2.
      repeat split; [|lia|lia|lia].
      intros Hnd. apply I1. rewrite map_app. cbn [map].
      apply NoDup_app. split; [exact Hnd|]. split; [|apply NoDup_singleton].
      intros x Hx Hx'. apply list_elem_of_singleton in Hx'. subst x.
      apply list_elem_of_fmap in Hx as (m & Em & Hm).
      now apply (Hnew m Hm).
Qed.

(** X13.  [updateMasterList] of the local-storage gateway keeps the
    identifiers of the Master List pairwise distinct. *)
Theorem local_updateMasterList_keeps_unique (now : Z) (uploadId : string)
    (rows : list csv_row) (st : storage) :
  NoDup (map hb_of (master_list st)) ->
  NoDup (map hb_of (master_list (fst (updateMasterList now uploadId rows st)))).
Proof.
  intros Hnd. unfold LocalStorage.updateMasterList. cbn [fst master_list].
  now apply (run_invariant now uploadId rows
               {| masterList := master_list st; fresh := next_id st;
                  added := 0; updated := 0 |}).
Qed.

(** X14.  Every row with a non-empty identifier is counted once, as added or
    as updated, and the Master List grows by the number of additions. *)
Theorem local_updateMasterList_accounting (now : Z) (uploadId : string)
    (rows : list csv_row) (st : storage) :
  let r := updateMasterList now uploadId rows st in
  (itemsAdded (snd r) + itemsUpdated (snd r))%nat = length (reconcilable rows) /\
  length (master_list (fst r)) = (length (master_list st) + itemsAdded (snd r))%nat.
Proof.
  unfold LocalStorage.updateMasterList.
  cbn [fst snd master_list itemsAdded itemsUpdated].
  pose proof (run_invariant now uploadId rows
                {| masterList := master_list st; fresh := next_id st;
                   added := 0; updated := 0 |}) as (_ & H2 & H3 & H4).
  unfold run in *. cbn [masterList added updated] in *. split; lia.
Qed.

Lemma elem_of_insert_other {A} (l : list A) (i : nat) (x y m : A) :
  l !! i = Some x -> m <> x -> m ∈ l -> m ∈ <[i := y]> l.
Proof.
  intros Hi Hne Hm. apply list_elem_of_lookup in Hm as [j Hj].
  apply list_elem_of_lookup. exists j.
  rewrite list_lookup_insert_ne; [exact Hj|].
  intros ->. rewrite Hi in Hj. congruence.
Qed.

Lemma reconcile_row_keeps (now : Z) (uploadId : string) (s : loop_state)
    (row : csv_row) (m : master_item) :
  m ∈ masterList s -> hb_of m <> normalizeHB (row !! "HB") ->
  m ∈ masterList (reconcile_row now uploadId s row).
Proof.
  intros Hm Hne.
  destruct (reconcile_row_cases now uploadId s row)
    as [[Hh E]|[(Hh & i & ex & Hi & Hex & E)|(Hh & Hnew & E)]]; rewrite E.
  - exact Hm.
  - cbn [masterList]. apply (elem_of_insert_other _ i ex); [exact Hi| |exact Hm].
    intros ->. now apply Hne.
  - cbn [masterList]. apply elem_of_app. now left.
Qed.

Lemma reconcile_row_sets (now : Z) (uploadId : string) (s : loop_state)
    (row : csv_row) :
  let h := normalizeHB (row !! "HB") in
  h <> "" ->
  exists m, m ∈ masterList (reconcile_row now uploadId s row) /\
            hb_of m = h /\ item_fields m = fields_of_row row h /\
            last_updated_upload_id m = Some uploadId.
Proof.
  intros h Hne.
  destruct (reconcile_row_cases now uploadId s row)
    as [[Hh E]|[(Hh & i & ex & Hi & Hex & E)|(Hh & Hnew & E)]]; rewrite E.
  - now elim Hne.
  - eexists. split.
    + cbn [masterList]. apply list_elem_of_lookup. exists i.
      apply list_lookup_insert_eq. now apply lookup_lt_Some in Hi.
    + repeat split.
  - eexists. split.
    + cbn [masterList]. apply elem_of_app. right. constructor.
    + repeat split.
Qed.

(** The rows of the batch that carry the identifier [h]. *)
Definition rows_with (h : string) (rows : list csv_row) : list csv_row :=
  List.filter (fun row => String.eqb (normalizeHB (row !! "HB")) h) rows.

Lemma run_last_row_wins (now : Z) (uploadId : string) (rows : list csv_row)
    (s : loop_state) (h : string) (row : csv_row) :
  h <> "" -> last (rows_with h rows) = Some row ->
  exists m, m ∈ masterList (run now uploadId s rows) /\
            hb_of m = h /\ item_fields m = fields_of_row row h /\
            last_updated_upload_id m = Some uploadId.
Proof.
  intros Hne. revert row.
  induction rows as [|r rows IH] using rev_ind; intros row Hlast;
    [discriminate|].
  unfold run, rows_with in *. rewrite foldl_app. cbn [foldl].
  rewrite List.filter_app in Hlast. cbn [List.filter] in Hlast.
  destruct (String.eqb (normalizeHB (r !! "HB")) h) eqn:E.
  - apply String.eqb_eq in E. rewrite last_snoc in Hlast.
    injection Hlast as ->. rewrite <- E in *.
    now apply reconcile_row_sets.
  - apply String.eqb_neq in E. rewrite app_nil_r in Hlast.
    destruct (IH row Hlast) as (m & Hm & Hhb & Hf & Hu).
    exists m. split; [|auto].
    apply reconcile_row_keeps; [exact Hm | congruence].
Qed.

(** X15.  Last row wins: after [updateMasterList], each non-empty identifier
    of the batch has an entry that carries the fields of the last row of the
    batch with that identifier and is marked as last updated by the upload. *)
Theorem local_updateMasterList_last_row_wins (now : Z) (uploadId : string)
    (rows : list csv_row) (st : storage) (h : string) (row : csv_row) :
  h <> "" -> last (rows_with h rows) = Some row ->
  exists m, m ∈ master_list (fst (updateMasterList now uploadId rows st)) /\
            hb_of m = h /\ item_fields m = fields_of_row row h /\
            last_updated_upload_id m = Some uploadId.
Proof.
  intros Hne Hlast. unfold LocalStorage.updateMasterList. cbn [fst master_list].
  now apply run_last_row_wins.
Qed.

(** X16.  An entry whose identifier is not in the batch stays as it is. *)
Theorem local_updateMasterList_frame (now : Z) (uploadId : string)
    (rows : list csv_row) (st : storage) (m : master_item) :
  m ∈ master_list st ->
  (forall row, row ∈ rows -> normalizeHB (row !! "HB") <> hb_of m) ->
  m ∈ master_list (fst (updateMasterList now uploadId rows st)).
Proof.
  intros Hm Hrows. unfold LocalStorage.updateMasterList. cbn [fst master_list].
  set (s := {| masterList := master_list st; fresh := next_id st;
               added := 0; updated := 0 |}).
  change (m ∈ masterList s) in Hm. clearbody s.
  revert s Hm. induction rows as [|r rows IH]; intros s Hm; [exact Hm|].
  cbn [foldl]. apply IH.
  - intros row Hrow. apply Hrows. now constructor.
  - apply reconcile_row_keeps; [exact Hm|].
    intros E. apply (Hrows r); [constructor | now symmetry].
Qed.

End LocalReconciliation.

(** ** The local-storage gateway: saving uploads and comparing them *)

Module LocalUploads.

Import LocalStorage.

(** [saveUpload(filename, rowCount)], with the identifier that
    [generateId] returns and the clock reading. *)
Definition saveUpload (newId : string) (now : Z) (name : string) (rowCount : nat)
    (st : storage) : storage * upload :=
  let newUpload := {| upload_id := newId; filename := name;
                      row_count := rowCount; upload_date := now |} in
  ({| uploads := newUpload :: uploads st;
      report_data := report_data st;
      master_list := master_list st;
      next_id := next_id st |}, newUpload).

(** [getLatestUploadId()] *)
Definition getLatestUploadId (st : storage) : option string :=
  match uploads st with
  | u :: _ => Some (upload_id u)
  | [] => None
  end.

End LocalUploads.

Section LocalComparison.

Import LocalStorage.

Local Open Scope Z_scope.

(** The array of uploads lists the newest first, with dates strictly
    decreasing. *)
Fixpoint newest_first (l : list upload) : Prop :=
  match l with
  | [] => True
  | u :: l' => Forall (fun v => upload_date v < upload_date u) l' /\ newest_first l'
  end.

Lemma order_newest_first (l : list upload) :
  newest_first l -> Supabase.order_by_date_desc l = l.
Proof.
  induction l as [|u l IH]; [reflexivity|].
  intros [Hu Hl]. cbn [Supabase.order_by_date_desc foldr].
  fold (Supabase.order_by_date_desc l). rewrite IH by exact Hl.
  destruct l as [|v l']; [reflexivity|].
  cbn [Supabase.insert_by_date_desc].
  inversion Hu as [|? ? Hv _]; subst.
  destruct (Z.ltb_spec (upload_date u) (upload_date v)); [lia | reflexivity].
Qed.

Lemma filter_id_absent (cur : string) (l : list upload) :
  cur ∉ map upload_id l ->
  List.filter (fun u => String.eqb (upload_id u) cur) l = [].
Proof.
  intros H. apply List_filter_false. intros u Hu.
  apply String.eqb_neq. intros E. apply H. rewrite <- E.
  apply list_elem_of_fmap. now exists u.
Qed.

Lemma previous_by_position_or_date (l : list upload) (cur : string)
    (nid : nat) (rd : list report_row) (ml : list master_item) :
  newest_first l -> NoDup (map upload_id l) ->
  previousUpload {| uploads := l; report_data := rd; master_list := ml;
                    next_id := nid |} cur =
  Supabase.previousUpload
    {| Supabase.uploads := l; Supabase.report_data := rd;
       Supabase.master_list := ml; Supabase.next_item_id := nid |} cur.
Proof.
  unfold previousUpload, Supabase.previousUpload.
  cbn [uploads Supabase.uploads].
  induction l as [|u l IH]; intros Hs Hnd; [reflexivity|].
  destruct Hs as [Hu Hl]. cbn [map] in Hnd. apply NoDup_cons in Hnd as [Hfresh Hnd].
  cbn [findIndex List.filter].
  destruct (String.eqb (upload_id u) cur) eqn:E.
  - apply String.eqb_eq in E. rewrite <- E in *.
    rewrite (filter_id_absent (upload_id u) l Hfresh). cbn [Supabase.single].
    rewrite Z.ltb_irrefl.
    rewrite List_filter_all.
    + rewrite order_newest_first by exact Hl. now destruct l.
    + intros v Hv. rewrite Forall_forall in Hu. apply Z.ltb_lt. now apply Hu.
  - specialize (IH Hl Hnd).
    destruct (findIndex (fun u0 => String.eqb (upload_id u0) cur) l) as [i|] eqn:Ei;
      cbn [fmap option_fmap option_map].
    + change ((u :: l) !! S (S i)) with (l !! S i). rewrite IH.
      destruct (Supabase.single
                  (List.filter (fun u0 => String.eqb (upload_id u0) cur) l))
        as [c|] eqn:Ec; [|reflexivity].
      assert (Hc : c ∈ l).
      { destruct (List.filter _ l) as [|x [|y r]] eqn:Ef; try discriminate.
        injection Ec as ->.
        assert (H : c ∈ List.filter (fun u0 => String.eqb (upload_id u0) cur) l)
          by (rewrite Ef; constructor).
        now apply elem_of_List_filter in H as [H _]. }
      rewrite Forall_forall in Hu.
      destruct (Z.ltb_spec (upload_date u) (upload_date c)) as [Hlt|Hge];
        [|reflexivity].
      specialize (Hu c Hc). lia.
    + assert (Hnone : List.filter (fun u0 => String.eqb (upload_id u0) cur) l = []).
      { apply List_filter_false. intros v Hv.
        exact (findIndex_None _ _ Ei v Hv). }
      rewrite Hnone. reflexivity.
Qed.

(** The tables of the local storage, read as tables of the database. *)
Definition tables_of (st : storage) : Supabase.database := {|
  Supabase.uploads := uploads st;
  Supabase.report_data := report_data st;
  Supabase.master_list := master_list st;
  Supabase.next_item_id := next_id st
|}.

(** X18.  When the array of uploads lists the newest first and no identifier
    twice, the upload that follows the current one in the array is the one
    that [database.js] selects by date. *)
Theorem local_previousUpload_chronological (st : storage) (cur : string) :
  newest_first (uploads st) -> NoDup (map upload_id (uploads st)) ->
  previousUpload st cur = Supabase.previousUpload (tables_of st) cur.
Proof.
  intros Hs Hnd. destruct st as [l rd ml nid]. unfold tables_of.
  now apply previous_by_position_or_date.
Qed.

(** X19.  [saveUpload] with a later clock reading and a fresh identifier keeps
    the array newest first and the identifiers distinct; the new upload is
    the latest, and its previous upload is the one that was the latest. *)
Theorem local_saveUpload_keeps_order (newId : string) (now : Z) (name : string)
    (rowCount : nat) (st : storage) :
  newest_first (uploads st) -> NoDup (map upload_id (uploads st)) ->
  Forall (fun u => upload_date u < now) (uploads st) ->
  newId ∉ map upload_id (uploads st) ->
  let st' := fst (LocalUploads.saveUpload newId now name rowCount st) in
  newest_first (uploads st') /\ NoDup (map upload_id (uploads st')) /\
  LocalUploads.getLatestUploadId st' = Some newId /\
  previousUpload st' newId = head (uploads st).
Proof.
  intros Hs Hnd Hnow Hfresh. cbn.
  split; [split; assumption|]. split; [now apply NoDup_cons|].
  split; [reflexivity|].
  unfold previousUpload. cbn. rewrite String.eqb_refl.
  now destruct (uploads st).
Qed.

Lemma elements_filter_absent (c p : gset string) :
  length (List.filter (fun h => negb (bool_decide (h ∈ p))) (elements c)) =
  size (c ∖ p).
Proof.
  assert (E : c ∖ p =
              list_to_set
                (List.filter (fun h => negb (bool_decide (h ∈ p))) (elements c))).
  { apply set_eq. intros x.
    rewrite elem_of_difference, elem_of_list_to_set, elem_of_List_filter.
    rewrite elem_of_elements, negb_true_iff, bool_decide_eq_false. reflexivity. }
  rewrite E, size_list_to_set; [reflexivity|].
  apply NoDup_List_filter, NoDup_elements.
Qed.

(** X20.  With a previous upload in the array, the local-storage gateway
    counts identifiers, not rows: the new items are the identifiers of the
    current upload that the previous one lacks, the removed items those of
    the previous upload that the current one lacks. *)
Theorem local_detect_counts_identifiers (st : storage) (cur : string)
    (prev : upload) :
  previousUpload st cur = Some prev ->
  detectNewItems st cur = size (hb_set st cur ∖ hb_set st (upload_id prev)) /\
  detectRemovedItems st cur = size (hb_set st (upload_id prev) ∖ hb_set st cur).
Proof.
  intros Hprev. unfold detectNewItems, detectRemovedItems. rewrite Hprev.
  split; apply elements_filter_absent.
Qed.

End LocalComparison.

(** ** Validation and cleaning *)

Section CsvFacts.

Import CsvClean.

(** X21.  [validateColumns] accepts the headers exactly when every required
    column is among them, and otherwise lists the required columns that are
    not, in the order of the requirement. *)
Theorem validateColumns_spec (headers : list string) (mode : string) :
  let required :=
    if String.eqb mode "air" then AIR_REQUIRED_COLUMNS else REQUIRED_COLUMNS in
  let v := validateColumns headers mode in
  (isValid v = true <-> forall col, col ∈ required -> col ∈ headers) /\
  (forall col, col ∈ missingColumns v <-> col ∈ required /\ col ∉ headers) /\
  (isValid v = true -> message v = "CSV is valid") /\
  (isValid v = false ->
   message v = "Missing required columns: " +:+ join_comma (missingColumns v)).
Proof.
  intros required v. subst v. unfold validateColumns. fold required.
  set (missing := List.filter (fun col => negb (Supabase.string_in col headers))
                    required).
  assert (Hm : forall col, col ∈ missing <-> col ∈ required /\ col ∉ headers).
  { intros col. unfold missing. rewrite elem_of_List_filter, negb_true_iff.
    rewrite <- not_true_iff_false, string_in_spec. reflexivity. }
  destruct missing as [|c cs] eqn:E; cbn [length Nat.ltb Nat.leb isValid message
                                           missingColumns].
  - split; [|split; [|split]]; try discriminate; try reflexivity.
    + split; [|reflexivity]. intros _ col Hcol.
      destruct (decide (col ∈ headers)) as [|Hn]; [assumption|].
      assert (Hc : col ∈ @nil string) by (apply Hm; auto). inversion Hc.
    + intros col. split; [intros Hc; inversion Hc|].
      intros [Hr Hn]. apply Hm. auto.
  - split; [|split; [|split]]; try discriminate; try reflexivity.
    + split; [discriminate|]. intros Hall.
      assert (Hc : c ∈ c :: cs) by constructor.
      apply Hm in Hc as [Hr Hn]. elim Hn. apply Hall, Hr.
    + exact Hm.
Qed.

End CsvFacts.

Section CleanFacts.

Import CsvClean.

Variable parseFloat : string -> number.
Variable numberToString : number -> string.

Local Abbreviation normalizeHB := (CsvUtils.normalizeHB parseFloat numberToString).
Local Abbreviation clean_cell := (CsvClean.clean_cell parseFloat numberToString).
Local Abbreviation clean_row := (CsvClean.clean_row parseFloat numberToString).
Local Abbreviation cleanData := (CsvClean.cleanData parseFloat numberToString).

(** The runtime's round trip ([prints_back]) at the [HB] cell of a row. *)
Definition hb_prints_back (row : csv_row) : Prop :=
  prints_back parseFloat numberToString
    (parseFloat (trim (or_empty (row !! "HB")))).

Lemma clean_row_lookup (row : csv_row) (key : string) :
  clean_row row !! key =
  if String.eqb key "__proto__" then None else clean_cell key <$> row !! key.
Proof.
  unfold CsvClean.clean_row. rewrite map_lookup_imap.
  destruct (row !! key); simpl; destruct (String.eqb key "__proto__"); reflexivity.
Qed.

Lemma normalizeHB_trimmed (v : string) :
  prints_back parseFloat numberToString (parseFloat (trim v)) ->
  trim (normalizeHB (Some v)) = normalizeHB (Some v).
Proof.
  intros [Ht _]. rewrite csv_normalizeHB_some.
  destruct (CsvUtils.scientific_notation (trim v)); [|apply trim_idem].
  destruct (negb (isNaN (parseFloat (trim v)))); [exact Ht | apply trim_idem].
Qed.

Lemma clean_cell_fixed (key v : string) :
  (key = "HB" -> prints_back parseFloat numberToString (parseFloat (trim v))) ->
  trim (clean_cell key v) = clean_cell key v /\
  clean_cell key (clean_cell key v) = clean_cell key v.
Proof.
  intros H. unfold CsvClean.clean_cell. cbv zeta.
  destruct (String.eqb_spec key "HB") as [E|E].
  - specialize (H E).
    assert (H' : prints_back parseFloat numberToString
                   (parseFloat (trim (trim v)))) by now rewrite trim_idem.
    pose proof (normalizeHB_trimmed (trim v) H') as Ht.
    split; [exact Ht|]. rewrite Ht.
    apply (csv_normalizeHB_idem parseFloat numberToString (Some (trim v))).
    exact H'.
  - split; [apply trim_idem | now rewrite trim_idem].
Qed.

Lemma clean_row_idem (row : csv_row) :
  hb_prints_back row -> clean_row (clean_row row) = clean_row row.
Proof.
  intros H. apply map_eq. intros key. rewrite !clean_row_lookup.
  destruct (String.eqb key "__proto__"); [reflexivity|].
  destruct (row !! key) as [v|] eqn:E; [|reflexivity]. simpl. f_equal.
  apply clean_cell_fixed. intros ->. unfold hb_prints_back in H.
  now rewrite E in H.
Qed.

Lemma cleanData_cons (row : csv_row) (data : list csv_row) :
  cleanData (row :: data) =
  if keep_row (clean_row row) then clean_row row :: cleanData data
  else cleanData data.
Proof. reflexivity. Qed.

(** X22.  Every row that [cleanData] returns is the cleaned form of a row of the
    input and has a usable CONTAINER, HB or MBL; each of its cells is equal
    to its own trim, and its [HB] cell is a fixed point of [normalizeHB].
    The hypothesis is the runtime's round trip at the [HB] cells. *)
Theorem cleanData_cells (data : list csv_row) :
  Forall hb_prints_back data ->
  Forall (fun r =>
            (exists row, row ∈ data /\ r = clean_row row) /\
            keep_row r = true /\
            (forall key v, r !! key = Some v -> trim v = v) /\
            (forall v, r !! "HB" = Some v -> normalizeHB (Some v) = v))
    (cleanData data).
Proof.
  intros Hall. apply Forall_forall. intros r Hr.
  unfold CsvClean.cleanData in Hr.
  apply elem_of_List_filter in Hr as [Hin Hkeep].
  apply list_elem_of_fmap in Hin as (row & -> & Hrow).
  rewrite Forall_forall in Hall. specialize (Hall row Hrow).
  split; [now exists row|]. split; [exact Hkeep|]. split.
  - intros key v. rewrite clean_row_lookup.
    destruct (String.eqb key "__proto__"); [discriminate|].
    destruct (row !! key) as [w|] eqn:E; [|discriminate]. simpl.
    intros [= <-]. apply clean_cell_fixed. intros ->.
    unfold hb_prints_back in Hall. now rewrite E in Hall.
  - intros v. rewrite clean_row_lookup. cbn [String.eqb Ascii.eqb Bool.eqb].
    destruct (row !! "HB") as [w|] eqn:E; [|discriminate]. simpl.
    intros [= <-].
    assert (Hw : prints_back parseFloat numberToString (parseFloat (trim w))).
    { unfold hb_prints_back in Hall. now rewrite E in Hall. }
    destruct (clean_cell_fixed "HB" w (fun _ => Hw)) as [_ Hfix].
    unfold CsvClean.clean_cell in Hfix |- *. cbv zeta in *.
    cbn [String.eqb Ascii.eqb Bool.eqb] in *.
    assert (H' : prints_back parseFloat numberToString
                   (parseFloat (trim (trim w)))) by now rewrite trim_idem.
    rewrite (normalizeHB_trimmed (trim w) H') in Hfix. exact Hfix.
Qed.

(** X23.  Cleaning already cleaned data changes nothing. *)
Theorem cleanData_idempotent (data : list csv_row) :
  Forall hb_prints_back data ->
  cleanData (cleanData data) = cleanData data.
Proof.
  induction 1 as [|row data Hrow Hall IH]; [reflexivity|].
  rewrite cleanData_cons.
  destruct (keep_row (clean_row row)) eqn:Hkeep; [|exact IH].
  rewrite cleanData_cons, (clean_row_idem row Hrow), Hkeep, IH. reflexivity.
Qed.

(** X24.  A row whose CONTAINER, HB and MBL cells are missing or hold only white
    space is dropped. *)
Theorem cleanData_drops_blank (row : csv_row) (data : list csv_row) :
  trim (or_empty (row !! "CONTAINER")) = "" ->
  trim (or_empty (row !! "HB")) = "" ->
  trim (or_empty (row !! "MBL")) = "" ->
  cleanData (row :: data) = cleanData data.
Proof.
  intros Hc Hh Hm. rewrite cleanData_cons.
  replace (keep_row (clean_row row)) with false; [reflexivity|].
  unfold keep_row. rewrite !clean_row_lookup.
  cbn [String.eqb Ascii.eqb Bool.eqb].
  unfold CsvClean.clean_cell. cbv zeta. cbn [String.eqb Ascii.eqb Bool.eqb].
  destruct (row !! "CONTAINER") as [c|]; destruct (row !! "HB") as [h|];
    destruct (row !! "MBL") as [m|]; cbn [or_empty] in *; simpl fmap;
    rewrite ?csv_normalizeHB_some, ?trim_idem, ?Hc, ?Hh, ?Hm; reflexivity.
Qed.

End CleanFacts.

(** ** [updateMasterList] of [database.js] on a batch without repeated
    identifiers *)

Section Statements.

Import Supabase.

Definition staged_hb (d : itemData) : string := hb (data_fields d).

(** [hbsToCheck] *)
Definition identifiers (rows : list csv_row) : list string :=
  List.filter truthy (map (fun row => normalizeHB (row !! "HB")) rows).

(** What the schema keeps true of [master_list]: [hb] is unique, [id] is
    the primary key, and every [id] has been issued by the generator. *)
Definition well_formed (db : database) : Prop :=
  NoDup (map hb_of (master_list db)) /\
  NoDup (map item_id (master_list db)) /\
  Forall (fun m => (item_id m < next_item_id db)%nat) (master_list db).

(** The foreign keys of [master_list]: the upload that a statement
    refers to is recorded in [uploads]. *)
Definition recorded (uploadId : string) (db : database) : Prop :=
  uploadId ∈ map upload_id (uploads db).

Lemma recorded_id_Some (uploadId : string) (db : database) :
  recorded_id db (Some uploadId) = true <-> recorded uploadId db.
Proof. apply string_in_spec. Qed.

Definition with_master_list (db : database) (table : list master_item)
    (next : nat) : database :=
  {| uploads := uploads db; report_data := report_data db;
     master_list := table; next_item_id := next |}.

Lemma distinct_NoDup (l : list string) : distinct l = true <-> NoDup l.
Proof.
  induction l as [|x l IH]; simpl.
  - split; [constructor | reflexivity].
  - rewrite andb_true_iff, negb_true_iff, NoDup_cons, IH.
    rewrite <- not_true_iff_false, string_in_spec. reflexivity.
Qed.

Lemma distinct_ids_NoDup (l : list nat) : distinct_ids l = true <-> NoDup l.
Proof.
  induction l as [|x l IH]; simpl.
  - split; [constructor | reflexivity].
  - rewrite andb_true_iff, negb_true_iff, NoDup_cons, IH.
    rewrite <- not_true_iff_false, existsb_exists.
    split; intros [H1 H2]; (split; [|exact H2]); intros H; apply H1.
    + exists x. split; [now apply list_elem_of_In | apply Nat.eqb_refl].
    + destruct H as (y & Hy & E). apply Nat.eqb_eq in E. subst y.
      now apply list_elem_of_In.
Qed.

Lemma number_rows_app (i : nat) (a b : list itemData) :
  number_rows i (a ++ b) = number_rows i a ++ number_rows (i + length a) b.
Proof.
  revert i. induction a as [|d a IH]; intros i; simpl.
  - now rewrite Nat.add_0_r.
  - rewrite IH. do 3 f_equal. lia.
Qed.

Lemma number_rows_hb (i : nat) (b : list itemData) :
  map hb_of (number_rows i b) = map staged_hb b.
Proof. revert i. induction b as [|d b IH]; intros i; simpl; [|rewrite IH]; reflexivity. Qed.

Lemma number_rows_id (i : nat) (b : list itemData) :
  map item_id (number_rows i b) = seq i (length b).
Proof. revert i. induction b as [|d b IH]; intros i; simpl; [|rewrite IH]; reflexivity. Qed.

Lemma with_master_list_same (db : database) :
  with_master_list db (master_list db) (next_item_id db) = db.
Proof. now destruct db. Qed.

(** A statement that inserts staged objects whose identifiers are new and
    distinct succeeds and appends them, numbered by the generator. *)
Lemma insert_master_ok (batch : list itemData) (db : database) :
  NoDup (map hb_of (master_list db) ++ map staged_hb batch) ->
  forallb (references_recorded db) batch = true ->
  insert_master batch db =
  (with_master_list db (master_list db ++ number_rows (next_item_id db) batch)
     (next_item_id db + length batch), None).
Proof.
  intros H Hfk. unfold insert_master. cbv zeta.
  change (fun m : master_item => hb (item_fields m)) with hb_of.
  rewrite map_app, number_rows_hb.
  apply distinct_NoDup in H. now rewrite H, Hfk.
Qed.

Lemma insert_batches_ok (n fuel : nat) (items : list itemData) (db : database) :
  (0 < n)%nat -> (length items <= fuel)%nat ->
  NoDup (map hb_of (master_list db) ++ map staged_hb items) ->
  forallb (references_recorded db) items = true ->
  run_batches insert_master (batches_aux fuel n items) db =
  (with_master_list db (master_list db ++ number_rows (next_item_id db) items)
     (next_item_id db + length items),
   replicate (length (batches_aux fuel n items)) None).
Proof.
  intros Hn. revert items db.
  induction fuel as [|fuel IH]; intros items db Hlen Hnd Hfk.
  - destruct items; [|simpl in Hlen; lia]. simpl.
    now rewrite app_nil_r, Nat.add_0_r, with_master_list_same.
  - destruct items as [|d items].
    + simpl. now rewrite app_nil_r, Nat.add_0_r, with_master_list_same.
    + cbn [batches_aux]. remember (d :: items) as l eqn:Hl.
      cbn [run_batches length replicate].
      assert (Hsplit : l = take n l ++ drop n l) by now rewrite take_drop.
      assert (Hnd1 : NoDup (map hb_of (master_list db) ++ map staged_hb (take n l))).
      { rewrite Hsplit, map_app, app_assoc in Hnd.
        now apply NoDup_app in Hnd as (Hnd & _ & _). }
      assert (Hfk' : forallb (references_recorded db) (take n l) = true /\
                     forallb (references_recorded db) (drop n l) = true).
      { rewrite Hsplit, forallb_app in Hfk. now apply andb_true_iff in Hfk. }
      destruct Hfk' as [Hfk1 Hfk2].
      rewrite (insert_master_ok _ _ Hnd1 Hfk1).
      rewrite IH.
      * cbn [with_master_list master_list next_item_id uploads report_data].
        rewrite <- app_assoc, <- number_rows_app, <- Nat.add_assoc.
        rewrite <- length_app, <- Hsplit. reflexivity.
      * rewrite length_drop. subst l. cbn [length] in *. lia.
      * cbn [with_master_list master_list next_item_id].
        rewrite map_app, number_rows_hb, <- app_assoc, <- map_app, <- Hsplit.
        exact Hnd.
      * exact Hfk2.
Qed.

(** The pairs of primary key and identifier of a table. *)
Definition keys (table : list master_item) : list (nat * string) :=
  map (fun m => (item_id m, hb_of m)) table.

(** A staged update names an entry of the table and carries its
    identifier. *)
Definition applies (K : list (nat * string)) (d : itemData) : Prop :=
  exists i, data_id d = Some i /\ (i, staged_hb d) ∈ K.

Lemma keys_id (table : list master_item) : map fst (keys table) = map item_id table.
Proof. unfold keys. rewrite map_map. reflexivity. Qed.

Lemma keys_hb (table : list master_item) : map snd (keys table) = map hb_of table.
Proof. unfold keys. rewrite map_map. reflexivity. Qed.

Lemma upsert_row_keys (table : list master_item) (d : itemData) :
  NoDup (map item_id table) -> applies (keys table) d ->
  keys (upsert_row table d) = keys table.
Proof.
  intros Hnd (i & Hid & Hk). unfold upsert_row. rewrite Hid.
  apply list_elem_of_fmap in Hk as (m & [= -> Hhb] & Hm).
  assert (Hex : existsb (has_id (item_id m)) table = true).
  { apply existsb_exists. exists m. split; [now apply list_elem_of_In|].
    apply Nat.eqb_refl. }
  rewrite Hex. unfold keys. rewrite map_map. apply map_ext_in.
  intros m' Hm'. apply list_elem_of_In in Hm'.
  unfold has_id. destruct (Nat.eqb_spec (item_id m') (item_id m)) as [E|E];
    [|reflexivity].
  assert (m' = m) by (eapply NoDup_map_inj; eauto). subst m'.
  unfold hb_of. cbn [overwrite item_id item_fields]. f_equal. exact Hhb.
Qed.

Lemma foldl_upsert_keys (table : list master_item) (batch : list itemData) :
  NoDup (map item_id table) -> Forall (applies (keys table)) batch ->
  keys (foldl upsert_row table batch) = keys table.
Proof.
  revert table. induction batch as [|d batch IH]; intros table Hnd Hall;
    [reflexivity|].
  cbn [foldl]. inversion Hall as [|? ? Hd Hall']; subst.
  pose proof (upsert_row_keys table d Hnd Hd) as Hk.
  rewrite IH; [exact Hk | | now rewrite Hk].
  now rewrite <- keys_id, Hk, keys_id.
Qed.

Lemma upsert_master_ok (batch : list itemData) (db : database) :
  NoDup (omap data_id batch) ->
  Forall (applies (keys (master_list db))) batch ->
  NoDup (map item_id (master_list db)) ->
  NoDup (map hb_of (master_list db)) ->
  forallb (references_recorded db) batch = true ->
  upsert_master batch db =
  (with_master_list db (foldl upsert_row (master_list db) batch) (next_item_id db),
   None).
Proof.
  intros Hids Hall Hnd Hhb Hfk. unfold upsert_master.
  apply distinct_ids_NoDup in Hids. rewrite Hids. cbv zeta.
  change (fun m : master_item => hb (item_fields m)) with hb_of.
  rewrite <- keys_hb, (foldl_upsert_keys _ _ Hnd Hall), keys_hb.
  apply distinct_NoDup in Hhb. now rewrite Hhb, Hfk.
Qed.

Lemma upsert_batches_ok (n fuel : nat) (items : list itemData) (db : database) :
  (0 < n)%nat -> (length items <= fuel)%nat ->
  NoDup (omap data_id items) ->
  Forall (applies (keys (master_list db))) items ->
  NoDup (map item_id (master_list db)) ->
  NoDup (map hb_of (master_list db)) ->
  forallb (references_recorded db) items = true ->
  run_batches upsert_master (batches_aux fuel n items) db =
  (with_master_list db (foldl upsert_row (master_list db) items) (next_item_id db),
   replicate (length (batches_aux fuel n items)) None).
Proof.
  intros Hn. revert items db.
  induction fuel as [|fuel IH]; intros items db Hlen Hids Hall Hnd Hhb Hfk.
  - destruct items; [|simpl in Hlen; lia]. simpl.
    now rewrite with_master_list_same.
  - destruct items as [|d items].
    + simpl. now rewrite with_master_list_same.
    + cbn [batches_aux]. remember (d :: items) as l eqn:Hl.
      cbn [run_batches length replicate].
      assert (Hsplit : l = take n l ++ drop n l) by now rewrite take_drop.
      assert (Hids' : NoDup (omap data_id (take n l) ++ omap data_id (drop n l))).
      { now rewrite <- omap_app, <- Hsplit. }
      apply NoDup_app in Hids' as (Hids1 & _ & Hids2).
      assert (Hall' : Forall (applies (keys (master_list db))) (take n l) /\
                      Forall (applies (keys (master_list db))) (drop n l)).
      { apply Forall_app. now rewrite <- Hsplit. }
      destruct Hall' as [Hall1 Hall2].
      assert (Hfk' : forallb (references_recorded db) (take n l) = true /\
                     forallb (references_recorded db) (drop n l) = true).
      { rewrite Hsplit, forallb_app in Hfk. now apply andb_true_iff in Hfk. }
      destruct Hfk' as [Hfk1 Hfk2].
      rewrite (upsert_master_ok _ _ Hids1 Hall1 Hnd Hhb Hfk1).
      pose proof (foldl_upsert_keys _ _ Hnd Hall1) as Hk.
      rewrite IH; cbn [with_master_list master_list next_item_id uploads report_data].
      * rewrite <- foldl_app, <- Hsplit. reflexivity.
      * rewrite length_drop. subst l. cbn [length] in *. lia.
      * exact Hids2.
      * now rewrite Hk.
      * now rewrite <- keys_id, Hk, keys_id.
      * now rewrite <- keys_hb, Hk, keys_hb.
      * exact Hfk2.
Qed.

(** Where the entries of a table end up under a sequence of staged
    updates that name each primary key once. *)
Lemma omap_id_cons (d : itemData) (batch : list itemData) :
  omap data_id (d :: batch) =
  match data_id d with
  | Some i => i :: omap data_id batch
  | None => omap data_id batch
  end.
Proof. reflexivity. Qed.

Lemma foldl_upsert_keeps (batch : list itemData) (table : list master_item)
    (m : master_item) :
  m ∈ table -> (forall d, d ∈ batch -> data_id d <> Some (item_id m)) ->
  m ∈ foldl upsert_row table batch.
Proof.
  revert table. induction batch as [|d batch IH]; intros table Hm Hno;
    [exact Hm|].
  cbn [foldl]. apply IH; [|intros d' Hd'; apply Hno; now constructor].
  assert (Hd : data_id d <> Some (item_id m)) by (apply Hno; constructor).
  unfold upsert_row. destruct (data_id d) as [i|]; [|exact Hm].
  destruct (existsb (has_id i) table).
  - apply list_elem_of_fmap. exists m. split; [|exact Hm].
    unfold has_id. destruct (Nat.eqb_spec (item_id m) i); [congruence|reflexivity].
  - apply elem_of_app. now left.
Qed.

Lemma foldl_upsert_overwrites (batch : list itemData) (table : list master_item)
    (m : master_item) (d : itemData) :
  NoDup (omap data_id batch) ->
  m ∈ table -> d ∈ batch -> data_id d = Some (item_id m) ->
  overwrite m d ∈ foldl upsert_row table batch.
Proof.
  revert table. induction batch as [|d0 batch IH]; intros table Hnd Hm Hd Hid;
    [inversion Hd|].
  cbn [foldl].
  assert (Hother : forall d', d' ∈ batch -> data_id d' = Some (item_id m) ->
                     data_id d0 <> Some (item_id m)).
  { intros d' Hd' E E0. rewrite omap_id_cons, E0 in Hnd.
    apply NoDup_cons in Hnd as [Hnd _]. apply Hnd.
    apply list_elem_of_omap. now exists d'. }
  apply elem_of_cons in Hd as [->|Hd].
  - apply foldl_upsert_keeps.
    + unfold upsert_row. rewrite Hid.
      assert (Hex : existsb (has_id (item_id m)) table = true).
      { apply existsb_exists. exists m. split; [now apply list_elem_of_In|].
        apply Nat.eqb_refl. }
      rewrite Hex. apply list_elem_of_fmap. exists m. split; [|exact Hm].
      unfold has_id. now rewrite Nat.eqb_refl.
    + intros d' Hd' E. cbn [overwrite item_id] in E.
      exact (Hother d' Hd' E Hid).
  - apply IH; [|  | exact Hd | exact Hid].
    + rewrite omap_id_cons in Hnd. destruct (data_id d0); [|exact Hnd].
      now apply NoDup_cons in Hnd as [_ Hnd].
    + specialize (Hother d Hd Hid).
      unfold upsert_row. destruct (data_id d0) as [i|]; [|exact Hm].
      destruct (existsb (has_id i) table).
      * apply list_elem_of_fmap. exists m. split; [|exact Hm].
        unfold has_id. destruct (Nat.eqb_spec (item_id m) i); [congruence|reflexivity].
      * apply elem_of_app. now left.
Qed.

End Statements.

Section DistinctBatch.

Import Supabase.

Variables (now : Z) (uploadId : string).

(** The object staged for a row whose identifier the Master List lacks. *)
Definition insert_of (row : csv_row) : itemData :=
  {| data_fields := fields_of_row row (normalizeHB (row !! "HB"));
     data_last_updated_upload_id := uploadId;
     data_updated_at := now;
     data_id := None;
     data_last_update_reason := None;
     data_first_seen_upload_id := Some uploadId;
     data_created_at := Some now |}.

(** The object staged for a row that changes a tracked field of the
    entry [m]. *)
Definition update_of (row : csv_row) (m : master_item) : itemData :=
  {| data_fields := fields_of_row row (normalizeHB (row !! "HB"));
     data_last_updated_upload_id := uploadId;
     data_updated_at := now;
     data_id := Some (item_id m);
     data_last_update_reason := Some (join_comma (changed_fields m row));
     data_first_seen_upload_id := None;
     data_created_at := None |}.

Lemma hasValueChanged_equal (oldVal newVal : option string) :
  trim (or_empty oldVal) = trim (or_empty newVal) ->
  hasValueChanged oldVal newVal = false.
Proof.
  intros E. unfold hasValueChanged. rewrite E.
  destruct (truthy (trim (or_empty newVal))); cbn [negb andb]; [|reflexivity].
  now rewrite String.eqb_refl.
Qed.

Lemma or_empty_or_null (x : option string) : or_empty (or_null x) = or_empty x.
Proof. destruct x as [[|c s]|]; reflexivity. Qed.

(** A row changes no tracked field of an entry that holds its values. *)
Lemma changed_fields_same (m : master_item) (row : csv_row) (h : string) :
  item_fields m = fields_of_row row h -> changed_fields m row = [].
Proof.
  intros E. unfold changed_fields. rewrite E. cbn [fields_of_row frl tdf vbond].
  rewrite !hasValueChanged_equal by now rewrite or_empty_or_null.
  reflexivity.
Qed.

Lemma identifiers_cons (row : csv_row) (rows : list csv_row) :
  identifiers (row :: rows) =
  if truthy (normalizeHB (row !! "HB"))
  then normalizeHB (row !! "HB") :: identifiers rows
  else identifiers rows.
Proof. reflexivity. Qed.

Lemma identifiers_elem (rows : list csv_row) (row : csv_row) :
  row ∈ rows -> normalizeHB (row !! "HB") <> "" ->
  normalizeHB (row !! "HB") ∈ identifiers rows.
Proof.
  intros Hrow Hh. apply elem_of_List_filter. split; [|now apply truthy_true].
  apply list_elem_of_fmap. now exists row.
Qed.

(** With distinct identifiers, a row is determined by its identifier. *)
Lemma identifiers_inj (rows : list csv_row) (r1 r2 : csv_row) :
  NoDup (identifiers rows) -> r1 ∈ rows -> r2 ∈ rows ->
  normalizeHB (r1 !! "HB") <> "" ->
  normalizeHB (r1 !! "HB") = normalizeHB (r2 !! "HB") -> r1 = r2.
Proof.
  induction rows as [|row rows IH]; intros Hnd H1 H2 Hh E; [inversion H1|].
  rewrite identifiers_cons in Hnd.
  assert (Hin : forall r, r ∈ rows ->
                  normalizeHB (r !! "HB") = normalizeHB (r1 !! "HB") ->
                  normalizeHB (r1 !! "HB") ∈ identifiers rows).
  { intros r Hr Er. rewrite <- Er. apply identifiers_elem; [exact Hr|].
    now rewrite Er. }
  apply elem_of_cons in H1 as [->|H1]; apply elem_of_cons in H2 as [->|H2].
  - reflexivity.
  - apply truthy_true in Hh. rewrite Hh in Hnd.
    apply NoDup_cons in Hnd as [Hnd _]. elim Hnd. now apply (Hin r2).
  - rewrite <- E in Hnd. apply truthy_true in Hh. rewrite Hh in Hnd.
    apply NoDup_cons in Hnd as [Hnd _]. elim Hnd. now apply (Hin r1).
  - apply IH; try assumption.
    destruct (truthy (normalizeHB (row !! "HB"))); [|exact Hnd].
    now apply NoDup_cons in Hnd as [_ Hnd].
Qed.

(** One turn of the staging loop, case by case. *)
Lemma stage_row_cases (rows : list csv_row) (db : database)
    (acc : list itemData * list itemData) (row : csv_row) :
  let M := existing_map (identifiers rows) (master_list db) in
  let h := normalizeHB (row !! "HB") in
  row ∈ rows ->
  (h = "" /\ stage_row now uploadId M acc row = acc) \/
  (h <> "" /\ (forall m, m ∈ master_list db -> hb_of m <> h) /\
   stage_row now uploadId M acc row = (fst acc ++ [insert_of row], snd acc)) \/
  (h <> "" /\ exists m, m ∈ master_list db /\ hb_of m = h /\
     ((changed_fields m row = [] /\ stage_row now uploadId M acc row = acc) \/
      (changed_fields m row <> [] /\
       stage_row now uploadId M acc row = (fst acc, snd acc ++ [update_of row m])))).
Proof.
  intros M h Hrow. subst h. destruct acc as [ins upd]. unfold stage_row.
  destruct (truthy (normalizeHB (row !! "HB"))) eqn:Ht; cbn [negb].
  2:{ left. split; [now apply truthy_false | reflexivity]. }
  right.
  pose proof (existing_map_lookup (identifiers rows) (master_list db) _
                (hb_in_hbsToCheck rows row Hrow Ht)) as Hlook.
  fold M in Hlook. apply truthy_true in Ht.
  destruct (M !! normalizeHB (row !! "HB")) as [e|].
  - right. split; [exact Ht|].
    destruct Hlook as (m & Hm & Hhb & ->). exists m.
    split; [exact Hm|]. split; [exact Hhb|].
    change (existing_frl (select_existing m)) with (frl (item_fields m)).
    change (existing_tdf (select_existing m)) with (tdf (item_fields m)).
    change (existing_vbond (select_existing m)) with (vbond (item_fields m)).
    change (existing_id (select_existing m)) with (item_id m).
    fold (changed_fields m row).
    destruct (changed_fields m row) as [|c cs] eqn:Ec; cbn [length Nat.ltb Nat.leb].
    + left. split; reflexivity.
    + right. split; [discriminate|]. unfold update_of. rewrite Ec. reflexivity.
  - left. split; [exact Ht|]. split; [exact Hlook | reflexivity].
Qed.

(** What the staging loop leaves in the two arrays. *)
Lemma foldl_stage (rows : list csv_row) (db : database) (l : list csv_row)
    (acc : list itemData * list itemData) :
  let M := existing_map (identifiers rows) (master_list db) in
  (forall r, r ∈ l -> r ∈ rows) ->
  exists X Y,
    foldl (stage_row now uploadId M) acc l = (fst acc ++ X, snd acc ++ Y) /\
    map staged_hb X `sublist_of` identifiers l /\
    map staged_hb Y `sublist_of` identifiers l /\
    Forall (staged_insert_ok now uploadId rows db) X /\
    Forall (staged_update_ok now uploadId rows db) Y /\
    (forall row, row ∈ l -> normalizeHB (row !! "HB") <> "" ->
       ((forall m, m ∈ master_list db -> hb_of m <> normalizeHB (row !! "HB")) /\
        insert_of row ∈ X) \/
       (exists m, m ∈ master_list db /\ hb_of m = normalizeHB (row !! "HB") /\
          (changed_fields m row = [] \/ update_of row m ∈ Y))).
Proof.
  intros M. revert acc. induction l as [|row l IH]; intros acc Hl.
  - exists [], []. cbn [foldl]. rewrite !app_nil_r. destruct acc.
    split; [reflexivity|]. split; [constructor|]. split; [constructor|].
    split; [constructor|]. split; [constructor|].
    intros row Hrow. inversion Hrow.
  - cbn [foldl]. rewrite identifiers_cons.
    assert (Hrow : row ∈ rows) by (apply Hl; constructor).
    assert (Hl' : forall r, r ∈ l -> r ∈ rows)
      by (intros r Hr; apply Hl; now constructor).
    pose proof (stage_row_cases rows db acc row Hrow) as Hcase.
    cbv zeta in Hcase. fold M in Hcase.
    destruct Hcase as [[Hh Hs]|[(Hh & Hno & Hs)|(Hh & m & Hm & Hhb & Hs)]].
    + rewrite Hs. destruct (IH acc Hl') as (X & Y & HE & HX & HY & HsX & HsY & Hc).
      exists X, Y. split; [exact HE|].
      apply truthy_false in Hh. rewrite Hh.
      split; [exact HX|]. split; [exact HY|].
      split; [exact HsX|]. split; [exact HsY|].
      intros r Hr Hr'. apply elem_of_cons in Hr as [->|Hr]; [|now apply Hc].
      apply truthy_false in Hh. contradiction.
    + rewrite Hs.
      destruct (IH (fst acc ++ [insert_of row], snd acc) Hl')
        as (X & Y & HE & HX & HY & HsX & HsY & Hc).
      exists (insert_of row :: X), Y. cbn [fst snd] in HE.
      rewrite <- app_assoc in HE. split; [exact HE|].
      pose proof Hh as Ht. apply truthy_true in Ht. rewrite Ht.
      split; [now apply sublist_skip|]. split; [now apply sublist_cons|].
      split; [|split; [exact HsY|]].
      { constructor; [|exact HsX]. exists row. cbv zeta.
        split; [exact Hrow|]. split; [exact Hh|]. split; [exact Hno|reflexivity]. }
      intros r Hr Hr'. apply elem_of_cons in Hr as [->|Hr].
      * left. split; [exact Hno | constructor].
      * destruct (Hc r Hr Hr') as [[H1 H2]|H]; [|now right].
        left. split; [exact H1 | now constructor].
    + pose proof Hh as Ht. apply truthy_true in Ht. rewrite Ht.
      destruct Hs as [[Hch Hs]|[Hch Hs]]; rewrite Hs.
      * destruct (IH acc Hl') as (X & Y & HE & HX & HY & HsX & HsY & Hc).
        exists X, Y. split; [exact HE|].
        split; [now apply sublist_cons|]. split; [now apply sublist_cons|].
        split; [exact HsX|]. split; [exact HsY|].
        intros r Hr Hr'. apply elem_of_cons in Hr as [->|Hr]; [|now apply Hc].
        right. exists m. auto.
      * destruct (IH (fst acc, snd acc ++ [update_of row m]) Hl')
          as (X & Y & HE & HX & HY & HsX & HsY & Hc).
        exists X, (update_of row m :: Y). cbn [fst snd] in HE.
        rewrite <- app_assoc in HE. split; [exact HE|].
        split; [now apply sublist_cons|]. split; [now apply sublist_skip|].
        split; [exact HsX|]. split.
        { constructor; [|exact HsY]. exists row, m. cbv zeta.
          split; [exact Hrow|]. split; [exact Hm|]. split; [exact Hh|].
          split; [exact Hhb|]. split; [exact Hch|reflexivity]. }
        intros r Hr Hr'. apply elem_of_cons in Hr as [->|Hr].
        -- right. exists m. split; [exact Hm|]. split; [exact Hhb|].
           right. constructor.
        -- destruct (Hc r Hr Hr') as [H|(m' & H1 & H2 & [H3|H3])]; [now left|  |].
           ++ right. exists m'. auto.
           ++ right. exists m'. split; [exact H1|]. split; [exact H2|].
              right. now constructor.
Qed.

(** The two arrays after the loop, for a batch without repeated
    identifiers. *)
Lemma stage_facts (rows : list csv_row) (db : database) :
  well_formed db -> NoDup (identifiers rows) ->
  let ins := fst (stage now uploadId rows db) in
  let upd := snd (stage now uploadId rows db) in
  NoDup (map hb_of (master_list db) ++ map staged_hb ins) /\
  NoDup (omap data_id upd) /\
  Forall (staged_update_ok now uploadId rows db) upd /\
  (forall row, row ∈ rows -> normalizeHB (row !! "HB") <> "" ->
     ((forall m, m ∈ master_list db -> hb_of m <> normalizeHB (row !! "HB")) /\
      insert_of row ∈ ins) \/
     (exists m, m ∈ master_list db /\ hb_of m = normalizeHB (row !! "HB") /\
        (changed_fields m row = [] \/ update_of row m ∈ upd))).
Proof.
  intros (Hhb & Hid & Hlt) Hnd ins upd. subst ins upd. unfold stage.
  fold (identifiers rows).
  destruct (foldl_stage rows db rows ([], []) (fun r H => H))
    as (X & Y & HE & HX & HY & HsX & HsY & Hc).
  cbv zeta in HE. rewrite HE. cbn [fst snd app].
  split; [|split; [|split; [exact HsY | exact Hc]]].
  - apply NoDup_app. split; [exact Hhb|]. split.
    + intros h Hin Hin'. apply list_elem_of_fmap in Hin as (m & -> & Hm).
      apply list_elem_of_fmap in Hin' as (d & E & Hd).
      rewrite Forall_forall in HsX.
      destruct (HsX d Hd) as (row & _ & _ & Hno & ->).
      exact (Hno m Hm E).
    + exact (sublist_NoDup _ _ Hnd HX).
  - pose proof (sublist_NoDup _ _ Hnd HY) as HndY.
    clear HE HY Hc. induction Y as [|d Y IH]; [constructor|].
    inversion HsY as [|? ? Hd HsY']; subst.
    cbn [map] in HndY. apply NoDup_cons in HndY as [Hd' HndY].
    destruct Hd as (row & m & Hrow & Hm & Hh & Hm' & Hch & ->).
    rewrite omap_id_cons. cbn [data_id]. apply NoDup_cons.
    split; [|now apply IH].
    intros Hin. apply list_elem_of_omap in Hin as (d' & Hd'in & E).
    rewrite Forall_forall in HsY'.
    destruct (HsY' d' Hd'in) as (row' & m' & Hrow' & Hm'in & Hh' & Hm'' & Hch' & ->).
    cbn [data_id] in E. injection E as E.
    assert (m' = m) by (eapply NoDup_map_inj; eauto). subst m'.
    apply Hd'. apply list_elem_of_fmap. exists (update_of row' m).
    split; [|exact Hd'in]. unfold staged_hb, update_of.
    cbn [data_fields fields_of_row hb]. now rewrite <- Hm', <- Hm''.
Qed.

(** The Master List after the staged objects have been written. *)
Definition reconciled (rows : list csv_row) (db : database) : list master_item :=
  foldl upsert_row
    (master_list db ++
     number_rows (next_item_id db) (fst (stage now uploadId rows db)))
    (snd (stage now uploadId rows db)).

Lemma inserted_well_formed (db : database) (ins : list itemData) :
  well_formed db ->
  NoDup (map hb_of (master_list db) ++ map staged_hb ins) ->
  well_formed
    (with_master_list db (master_list db ++ number_rows (next_item_id db) ins)
       (next_item_id db + length ins)).
Proof.
  intros (Hhb & Hid & Hlt) Hnd. unfold well_formed.
  cbn [with_master_list master_list next_item_id].
  rewrite !map_app, number_rows_hb, number_rows_id.
  split; [exact Hnd|]. rewrite Forall_forall in Hlt. split.
  - apply NoDup_app. split; [exact Hid|]. split; [|apply NoDup_seq].
    intros i Hi Hi'. apply list_elem_of_fmap in Hi as (m & -> & Hm).
    apply list_elem_of_In, in_seq in Hi'. specialize (Hlt m Hm). lia.
  - apply Forall_app. split.
    + apply Forall_forall. intros m Hm. specialize (Hlt m Hm). lia.
    + apply Forall_forall. intros m Hm.
      assert (Hi : item_id m ∈ map item_id
                     (number_rows (next_item_id db) ins)).
      { apply list_elem_of_fmap. now exists m. }
      rewrite number_rows_id in Hi. apply list_elem_of_In, in_seq in Hi. lia.
Qed.

Lemma staged_update_applies (rows : list csv_row) (db : database)
    (extra : list master_item) (d : itemData) :
  staged_update_ok now uploadId rows db d ->
  applies (keys (master_list db ++ extra)) d.
Proof.
  intros (row & m & Hrow & Hm & Hh & Hhb & Hch & ->).
  exists (item_id m). split; [reflexivity|].
  apply list_elem_of_fmap. exists m. split.
  - unfold staged_hb, hb_of. cbn [data_fields fields_of_row hb]. now rewrite Hhb.
  - apply elem_of_app. now left.
Qed.

(** The staged objects refer to the upload being reconciled. *)
Lemma staged_references_recorded (rows : list csv_row) (db : database)
    (d : itemData) :
  recorded uploadId db ->
  staged_insert_ok now uploadId rows db d \/
  staged_update_ok now uploadId rows db d ->
  references_recorded db d = true.
Proof.
  intros Hrec%recorded_id_Some
    [(row & _ & _ & _ & ->)|(row & m & _ & _ & _ & _ & _ & ->)];
    unfold references_recorded;
    cbn [data_first_seen_upload_id data_last_updated_upload_id];
    rewrite Hrec; reflexivity.
Qed.

(** With the upload recorded, a well-formed table and a batch without
    repeated identifiers, every statement of [updateMasterList] succeeds. *)
Lemma updateMasterList_distinct (rows : list csv_row) (db : database) :
  recorded uploadId db -> well_formed db -> NoDup (identifiers rows) ->
  updateMasterList now uploadId rows db =
  (with_master_list db (reconciled rows db)
     (next_item_id db + length (fst (stage now uploadId rows db))),
   {| itemsAdded := length (fst (stage now uploadId rows db));
      itemsUpdated := length (snd (stage now uploadId rows db)) |}).
Proof.
  intros Hrec Hwf Hnd.
  destruct (stage_facts rows db Hwf Hnd) as (Hins & Hupd & Hok & _).
  cbv zeta in Hins, Hupd, Hok.
  destruct (foldl_stage rows db rows ([], []) (fun r H => H))
    as (X & Y & HE & HX & HY & HsX & HsY & _).
  cbv zeta in HE.
  assert (Est : stage now uploadId rows db = (X, Y)) by exact HE.
  unfold updateMasterList, reconciled. rewrite Est in *. cbn [fst snd] in *.
  fold (identifiers rows).
  destruct (identifiers rows) as [|h hs] eqn:Eh.
  - apply sublist_nil_r in HX, HY.
    destruct X; [|discriminate]. destruct Y; [|discriminate].
    cbn [app length foldl number_rows].
    now rewrite app_nil_r, Nat.add_0_r, with_master_list_same.
  - unfold batches.
    rewrite (insert_batches_ok 1000 (length X) X db); [|lia|lia|exact Hins|].
    2:{ apply forallb_forall. intros d Hd. apply list_elem_of_In in Hd.
        rewrite Forall_forall in HsX.
        apply (staged_references_recorded rows db d Hrec). left. now apply HsX. }
    pose proof (inserted_well_formed db X Hwf Hins) as (Hhb' & Hid' & _).
    cbn [with_master_list master_list next_item_id] in Hhb', Hid'.
    rewrite (upsert_batches_ok 1000 (length Y) Y).
    + reflexivity.
    + lia.
    + lia.
    + exact Hupd.
    + cbn [with_master_list master_list]. eapply Forall_impl; [exact Hok|].
      intros d Hd. now apply (staged_update_applies rows db).
    + exact Hid'.
    + exact Hhb'.
    + apply forallb_forall. intros d Hd. apply list_elem_of_In in Hd.
      rewrite Forall_forall in HsY.
      apply (staged_references_recorded rows db d Hrec). right. now apply HsY.
Qed.

Lemma elem_of_number_rows (i : nat) (batch : list itemData) (d : itemData) :
  d ∈ batch ->
  exists k, (i <= k)%nat /\ new_row k d ∈ number_rows i batch.
Proof.
  revert i. induction batch as [|d0 batch IH]; intros i Hd; [inversion Hd|].
  apply elem_of_cons in Hd as [->|Hd].
  - exists i. split; [lia | constructor].
  - destruct (IH (S i) Hd) as (k & Hk & Hin). exists k.
    split; [lia | now constructor].
Qed.

(** Where each row of the batch ends up. *)
Lemma reconciled_entry (rows : list csv_row) (db : database) (row : csv_row) :
  well_formed db -> NoDup (identifiers rows) ->
  row ∈ rows ->
  let h := normalizeHB (row !! "HB") in
  h <> "" ->
  exists m, m ∈ reconciled rows db /\ hb_of m = h /\ changed_fields m row = [] /\
    ((forall m0, m0 ∈ master_list db -> hb_of m0 <> h) ->
       item_fields m = fields_of_row row h /\
       first_seen_upload_id m = Some uploadId /\
       last_updated_upload_id m = Some uploadId /\
       last_update_reason m = None) /\
    (forall m0, m0 ∈ master_list db -> hb_of m0 = h ->
       item_id m = item_id m0 /\
       first_seen_upload_id m = first_seen_upload_id m0 /\
       match changed_fields m0 row with
       | [] => m = m0
       | reasons =>
           item_fields m = fields_of_row row h /\
           last_updated_upload_id m = Some uploadId /\
           last_update_reason m = Some (join_comma reasons)
       end).
Proof.
  intros Hwf Hnd Hrow h Hh. subst h.
  destruct (stage_facts rows db Hwf Hnd) as (Hins & Hupd & Hok & Hc).
  cbv zeta in Hins, Hupd, Hok, Hc.
  destruct Hwf as (Hhb & Hid & Hlt). rewrite Forall_forall in Hlt. rewrite Forall_forall in Hok.
  unfold reconciled.
  set (ins := fst (stage now uploadId rows db)) in *.
  set (upd := snd (stage now uploadId rows db)) in *.
  destruct (Hc row Hrow Hh) as [[Hno Hin]|(m0 & Hm0 & Hhb0 & Hcase)].
  - destruct (elem_of_number_rows (next_item_id db) ins _ Hin) as (k & Hk & Hnew).
    exists (new_row k (insert_of row)). split; [|split; [reflexivity|split]].
    + apply foldl_upsert_keeps; [apply elem_of_app; now right|].
      intros d Hd E. destruct (Hok d Hd) as (r & m & _ & Hm & _ & _ & _ & ->).
      cbn [update_of data_id new_row item_id] in E. injection E as E.
      specialize (Hlt m Hm). cbn beta in Hlt. lia.
    + now apply (changed_fields_same _ _ (normalizeHB (row !! "HB"))).
    + split; [intros _; repeat split|].
      intros m0 Hm0 E. elim (Hno m0 Hm0 E).
  - assert (Huniq : forall m, m ∈ master_list db ->
                      hb_of m = normalizeHB (row !! "HB") -> m = m0).
    { intros m Hm E. eapply (NoDup_map_inj hb_of); eauto. congruence. }
    destruct Hcase as [Hch|Hin].
    + exists m0. split; [|split; [exact Hhb0|split; [exact Hch|split]]].
      * apply foldl_upsert_keeps; [apply elem_of_app; now left|].
        intros d Hd E.
        destruct (Hok d Hd) as (r & m & Hr & Hm & Hrh & Hmh & Hrch & ->).
        cbv zeta in Hrh, Hmh. cbn [update_of data_id] in E. injection E as E.
        assert (m = m0) by (eapply (NoDup_map_inj item_id); eauto). subst m.
        assert (r = row).
        { apply (identifiers_inj rows); try assumption.
          unfold hb_of in Hhb0. congruence. }
        subst r. contradiction.
      * intros Hno. elim (Hno m0 Hm0 Hhb0).
      * intros m Hm E. rewrite (Huniq m Hm E), Hch. repeat split.
    + exists (overwrite m0 (update_of row m0)).
      split; [|split; [reflexivity|split; [|split]]].
      * apply foldl_upsert_overwrites; try assumption; [|reflexivity].
        apply elem_of_app. now left.
      * now apply (changed_fields_same _ _ (normalizeHB (row !! "HB"))).
      * intros Hno. elim (Hno m0 Hm0 Hhb0).
      * intros m Hm E. rewrite (Huniq m Hm E).
        split; [reflexivity|]. split; [reflexivity|].
        destruct (Hok _ Hin) as (r & m' & Hr & Hm' & Hrh & Hmh & Hrch & Ed).
        cbv zeta in Hrh, Hmh.
        assert (Em : m' = m0).
        { unfold update_of in Ed. injection Ed as _ Eid _.
          eapply (NoDup_map_inj item_id); eauto. }
        subst m'.
        assert (r = row).
        { symmetry. apply (identifiers_inj rows); try assumption.
          unfold hb_of in Hhb0. congruence. }
        subst r.
        destruct (changed_fields m0 row) as [|c cs] eqn:Ech; [contradiction|].
        cbn [overwrite update_of item_fields last_updated_upload_id
               last_update_reason data_fields data_last_updated_upload_id
               data_last_update_reason].
        rewrite Ech. repeat split.
Qed.

Lemma reconciled_keys (rows : list csv_row) (db : database) :
  well_formed db -> NoDup (identifiers rows) ->
  keys (reconciled rows db) =
  keys (master_list db ++
        number_rows (next_item_id db) (fst (stage now uploadId rows db))).
Proof.
  intros Hwf Hnd.
  destruct (stage_facts rows db Hwf Hnd) as (Hins & Hupd & Hok & _).
  cbv zeta in Hins, Hupd, Hok.
  pose proof (inserted_well_formed db _ Hwf Hins) as (_ & Hid' & _).
  cbn [with_master_list master_list] in Hid'.
  unfold reconciled. apply foldl_upsert_keys; [exact Hid'|].
  eapply Forall_impl; [exact Hok|].
  intros d Hd. now apply (staged_update_applies rows db).
Qed.

Lemma reconciled_well_formed (rows : list csv_row) (db : database) :
  well_formed db -> NoDup (identifiers rows) ->
  well_formed
    (with_master_list db (reconciled rows db)
       (next_item_id db + length (fst (stage now uploadId rows db)))).
Proof.
  intros Hwf Hnd.
  destruct (stage_facts rows db Hwf Hnd) as (Hins & _).
  cbv zeta in Hins.
  pose proof (inserted_well_formed db _ Hwf Hins) as (Hhb' & Hid' & Hlt').
  pose proof (reconciled_keys rows db Hwf Hnd) as Hk.
  cbn [with_master_list master_list next_item_id] in *.
  unfold well_formed. cbn [with_master_list master_list next_item_id].
  rewrite <- keys_hb, <- keys_id, Hk, keys_hb, keys_id.
  split; [exact Hhb'|]. split; [exact Hid'|].
  apply Forall_forall. intros m Hm.
  assert (Hi : item_id m ∈ map item_id (reconciled rows db)).
  { apply list_elem_of_fmap. now exists m. }
  rewrite <- keys_id, Hk, keys_id in Hi.
  apply list_elem_of_fmap in Hi as (m' & E & Hm').
  rewrite Forall_forall in Hlt'. rewrite E. now apply Hlt'.
Qed.

End DistinctBatch.

Section DistinctBatchResults.

Import Supabase.

(** X3.  On a Master List that the schema's constraints hold of, for a
    recorded upload and a batch in which no identifier is repeated,
    [updateMasterList] of [database.js] persists what the reconciliation
    calls for: the
    constraints still hold, the list grows by [itemsAdded], and every row
    with an identifier ends with one entry; an identifier that was absent
    gets a new entry with the row's fields, first seen and last updated by
    this upload; an entry that was present keeps its primary key and its
    first-seen upload, is left as it was when the row changes no tracked
    field, and otherwise carries the row's fields, this upload as the last
    update and the names of the changed fields as the reason. *)
Theorem supabase_updateMasterList_distinct_batch (now : Z) (uploadId : string)
    (rows : list csv_row) (db : database) :
  recorded uploadId db -> well_formed db -> NoDup (identifiers rows) ->
  let db' := fst (updateMasterList now uploadId rows db) in
  let c := snd (updateMasterList now uploadId rows db) in
  well_formed db' /\
  length (master_list db') = (length (master_list db) + itemsAdded c)%nat /\
  forall row, row ∈ rows ->
    let h := normalizeHB (row !! "HB") in
    h <> "" ->
    exists m, m ∈ master_list db' /\ hb_of m = h /\
      ((forall m0, m0 ∈ master_list db -> hb_of m0 <> h) ->
         item_fields m = fields_of_row row h /\
         first_seen_upload_id m = Some uploadId /\
         last_updated_upload_id m = Some uploadId /\
         last_update_reason m = None) /\
      (forall m0, m0 ∈ master_list db -> hb_of m0 = h ->
         item_id m = item_id m0 /\
         first_seen_upload_id m = first_seen_upload_id m0 /\
         match changed_fields m0 row with
         | [] => m = m0
         | reasons =>
             item_fields m = fields_of_row row h /\
             last_updated_upload_id m = Some uploadId /\
             last_update_reason m = Some (join_comma reasons)
         end).
Proof.
  intros Hrec Hwf Hnd db' c. subst db' c.
  rewrite (updateMasterList_distinct now uploadId rows db Hrec Hwf Hnd).
  cbn [fst snd itemsAdded]. split; [now apply reconciled_well_formed|].
  cbn [with_master_list master_list]. split.
  - pose proof (reconciled_keys now uploadId rows db Hwf Hnd) as Hk.
    apply (f_equal (@length _)) in Hk. unfold keys in Hk.
    rewrite !length_map, length_app in Hk. rewrite Hk. f_equal.
    clear. generalize (next_item_id db).
    induction (fst (stage now uploadId rows db)) as [|d l IH]; intros i;
      simpl; [|rewrite IH]; reflexivity.
  - intros row Hrow Hh.
    destruct (reconciled_entry now uploadId rows db row Hwf Hnd Hrow Hh)
      as (m & Hm & Hhb & _ & Hnew & Hold).
    exists m. auto.
Qed.

(** X4.  Reconciling the same batch again, after a first reconciliation under
    the same conditions, changes nothing and reports no item added and none
    updated. *)
Theorem supabase_updateMasterList_idempotent (now now' : Z)
    (uploadId uploadId' : string) (rows : list csv_row) (db : database) :
  recorded uploadId db -> well_formed db -> NoDup (identifiers rows) ->
  let db' := fst (updateMasterList now uploadId rows db) in
  updateMasterList now' uploadId' rows db' =
  (db', {| itemsAdded := 0; itemsUpdated := 0 |}).
Proof.
  intros Hrec Hwf Hnd db'. subst db'.
  rewrite (updateMasterList_distinct now uploadId rows db Hrec Hwf Hnd). cbn [fst].
  set (db' := with_master_list db _ _).
  assert (Hwf' : well_formed db') by now apply reconciled_well_formed.
  assert (Hent : forall row, row ∈ rows -> normalizeHB (row !! "HB") <> "" ->
            exists m, m ∈ master_list db' /\
              hb_of m = normalizeHB (row !! "HB") /\ changed_fields m row = []).
  { intros row Hrow Hh.
    destruct (reconciled_entry now uploadId rows db row Hwf Hnd Hrow Hh)
      as (m & Hm & Hhb & Hch & _).
    exists m. auto. }
  destruct (stage_facts now' uploadId' rows db' Hwf' Hnd) as (_ & _ & Hok & _).
  pose proof (foldl_stage now' uploadId' rows db' rows ([], []) (fun r H => H))
    as (X & Y & HE & _ & _ & HsX & _).
  cbv zeta in Hok, HE.
  assert (Est : stage now' uploadId' rows db' = (X, Y)) by exact HE.
  rewrite Est in Hok. cbn [snd] in Hok.
  assert (X = []) as ->.
  { destruct X as [|d X]; [reflexivity|]. exfalso.
    inversion HsX as [|? ? (row & Hrow & Hh & Hno & _) _]; subst.
    destruct (Hent row Hrow Hh) as (m & Hm & Hhb & _). exact (Hno m Hm Hhb). }
  assert (Y = []) as ->.
  { destruct Y as [|d Y]; [reflexivity|]. exfalso.
    inversion Hok as [|? ? (row & m & Hrow & Hm & Hh & Hhb & Hch & _) _]; subst.
    destruct (Hent row Hrow Hh) as (m' & Hm' & Hhb' & Hch').
    destruct Hwf' as (Hu & _).
    assert (m' = m).
    { eapply (NoDup_map_inj hb_of); eauto. unfold hb_of in Hhb' |- *. congruence. }
    subst m'. contradiction. }
  unfold updateMasterList. rewrite Est.
  destruct (List.filter truthy _); reflexivity.
Qed.

Lemma elem_of_batches_aux {A} (fuel n : nat) (items b : list A) (x : A) :
  b ∈ batches_aux fuel n items -> x ∈ b -> x ∈ items.
Proof.
  revert items. induction fuel as [|fuel IH]; intros items Hb Hx;
    [inversion Hb|].
  destruct items as [|a items]; [inversion Hb|].
  cbn [batches_aux] in Hb. apply elem_of_cons in Hb as [->|Hb].
  - apply list_elem_of_In. apply list_elem_of_In in Hx.
    rewrite <- (take_drop n (a :: items)). apply in_or_app. now left.
  - specialize (IH _ Hb Hx).
    apply list_elem_of_In. apply list_elem_of_In in IH.
    rewrite <- (take_drop n (a :: items)). apply in_or_app. now right.
Qed.

Lemma run_batches_invariant (P : database -> Prop)
    (op : list itemData -> database -> database * option pg_error)
    (bs : list (list itemData)) (db : database) :
  (forall b db, b ∈ bs -> P db -> P (fst (op b db))) ->
  P db -> P (fst (run_batches op bs db)).
Proof.
  revert db. induction bs as [|b bs IH]; intros db Hop HP; [exact HP|].
  cbn [run_batches].
  destruct (op b db) as [db1 r] eqn:E1.
  destruct (run_batches op bs db1) as [db2 rs] eqn:E2. cbn [fst].
  change db2 with (fst (db2, rs)). rewrite <- E2. apply IH.
  - intros b' db0 Hb'. apply Hop. now constructor.
  - change db1 with (fst (db1, r)). rewrite <- E1. apply Hop; [constructor|exact HP].
Qed.

(** X5.  Whatever its statements return, [updateMasterList] of [database.js],
    for a recorded upload, leaves the uploads and the report rows as they
    are and, the primary key of the Master List being unique, leaves every
    entry whose identifier the batch does not name as it is. *)
Theorem supabase_updateMasterList_frame (now : Z) (uploadId : string)
    (rows : list csv_row) (db : database) :
  recorded uploadId db -> NoDup (map item_id (master_list db)) ->
  let db' := fst (updateMasterList now uploadId rows db) in
  uploads db' = uploads db /\
  report_data db' = report_data db /\
  forall m, m ∈ master_list db -> hb_of m ∉ identifiers rows ->
    m ∈ master_list db'.
Proof.
  intros _ Hid db'. subst db'.
  set (P := fun (m : option master_item) (d : database) =>
              uploads d = uploads db /\ report_data d = report_data db /\
              match m with Some m => m ∈ master_list d | None => True end).
  assert (Hgen : forall m,
            match m with
            | Some m => m ∈ master_list db /\ hb_of m ∉ identifiers rows
            | None => True
            end ->
            P m (fst (updateMasterList now uploadId rows db))).
  { intros m Hm.
    assert (HP0 : P m db).
    { split; [reflexivity|]. split; [reflexivity|]. destruct m; tauto. }
    unfold updateMasterList. fold (identifiers rows).
    destruct (identifiers rows) as [|h0 hs] eqn:Eh; [exact HP0|].
    rewrite <- Eh in *. clear Eh h0 hs.
    pose proof (foldl_stage now uploadId rows db rows ([], []) (fun r H => H))
      as (X & Y & HE & _ & _ & _ & HsY & _).
    cbv zeta in HE.
    assert (Est : stage now uploadId rows db = (X, Y)) by exact HE.
    rewrite Est.
    destruct (run_batches insert_master (batches 1000 X) db) as [db1 r1] eqn:E1.
    destruct (run_batches upsert_master (batches 1000 Y) db1) as [db2 r2] eqn:E2.
    cbn [fst].
    change db2 with (fst (db2, r2)). rewrite <- E2.
    apply run_batches_invariant.
    - intros b d Hb (HU & HR & HM). unfold upsert_master.
      destruct (distinct_ids (omap data_id b)); [|now repeat split].
      cbv zeta. destruct (distinct _); [|now repeat split].
      destruct (forallb _ b); [|now repeat split].
      cbn [fst]. split; [exact HU|]. split; [exact HR|].
      destruct m as [m|]; [|exact I]. cbn [master_list].
      destruct Hm as [Hm Hout].
      apply foldl_upsert_keeps; [exact HM|].
      intros d0 Hd0 E.
      assert (Hin : d0 ∈ Y) by (eapply elem_of_batches_aux; eauto).
      rewrite Forall_forall in HsY.
      destruct (HsY d0 Hin) as (row & m' & Hrow & Hm' & Hh & Hhb & _ & ->).
      cbv zeta in Hh, Hhb. cbn [data_id] in E. injection E as E.
      assert (m' = m) by (eapply (NoDup_map_inj item_id); eauto). subst m'.
      apply Hout. unfold hb_of. rewrite Hhb. now apply identifiers_elem.
    - change db1 with (fst (db1, r1)). rewrite <- E1.
      apply run_batches_invariant; [|exact HP0].
      intros b d Hb (HU & HR & HM). unfold insert_master. cbv zeta.
      destruct (distinct _); [|now repeat split].
      destruct (forallb _ b); [|now repeat split].
      cbn [fst]. split; [exact HU|]. split; [exact HR|].
      destruct m as [m|]; [|exact I]. cbn [master_list].
      apply elem_of_app. now left. }
  split; [exact (proj1 (Hgen None I))|].
  split; [exact (proj1 (proj2 (Hgen None I)))|].
  intros m Hm Hout. exact (proj2 (proj2 (Hgen (Some m) (conj Hm Hout)))).
Qed.

End DistinctBatchResults.

(** ** The scientific-notation test of [normalizeHB] *)

Section ScientificNotation.

Import CsvUtils.

Fixpoint all_digits (s : string) : bool :=
  match s with
  | EmptyString => true
  | String c s' => is_digit c && all_digits s'
  end.

(** The strings of [/^-?\d+\.?\d*[eE][+-]?\d+$/], piece by piece. *)
Definition matches_scientific (s : string) : Prop :=
  exists sign int dot frac e esign exp,
    s = sign +:+ int +:+ dot +:+ frac +:+ String e (esign +:+ exp) /\
    (sign = "" \/ sign = "-") /\
    (all_digits int = true /\ int <> "") /\
    (dot = "" \/ dot = ".") /\
    all_digits frac = true /\
    (e = "e"%char \/ e = "E"%char) /\
    (esign = "" \/ esign = "+" \/ esign = "-") /\
    (all_digits exp = true /\ exp <> "").

Fixpoint take_digits (s : string) : string :=
  match s with
  | String c s' => if is_digit c then String c (take_digits s') else EmptyString
  | EmptyString => EmptyString
  end.

Definition strip_minus (s : string) : string :=
  match s with String "-" s' => s' | _ => s end.

Definition strip_dot (s : string) : string :=
  match s with String "." s' => s' | _ => s end.

Definition strip_sign (s : string) : string :=
  match s with
  | String "+" s' => s'
  | String "-" s' => s'
  | _ => s
  end.

Definition exponent (s : string) : bool :=
  match s with
  | String c s5 =>
      (Ascii.eqb c "e" || Ascii.eqb c "E") &&
      (starts_with_digit (strip_sign s5) &&
       match skip_digits (strip_sign s5) with EmptyString => true | _ => false end)
  | EmptyString => false
  end.

Lemma scientific_notation_steps (s : string) :
  scientific_notation s =
  starts_with_digit (strip_minus s) &&
  exponent (skip_digits (strip_dot (skip_digits (strip_minus s)))).
Proof. reflexivity. Qed.

Lemma take_skip_digits (s : string) :
  s = take_digits s +:+ skip_digits s /\ all_digits (take_digits s) = true.
Proof.
  induction s as [|c s [IH1 IH2]]; [split; reflexivity|].
  cbn [take_digits skip_digits]. destruct (is_digit c) eqn:E.
  - rewrite append_cons, <- IH1. cbn [all_digits]. rewrite E, IH2.
    split; reflexivity.
  - split; reflexivity.
Qed.

Lemma take_digits_nonempty (s : string) :
  starts_with_digit s = true -> take_digits s <> "".
Proof.
  destruct s as [|c s]; cbn [starts_with_digit take_digits]; [discriminate|].
  now intros ->.
Qed.

Lemma skip_digits_stop (s : string) :
  starts_with_digit s = false -> skip_digits s = s.
Proof.
  destruct s as [|c s]; cbn [starts_with_digit skip_digits]; [reflexivity|].
  now intros ->.
Qed.

Lemma skip_digits_append (d r : string) :
  all_digits d = true -> skip_digits (d +:+ r) = skip_digits r.
Proof.
  induction d as [|c d IH]; [reflexivity|]. cbn [all_digits].
  rewrite andb_true_iff. intros [Hc Hd]. rewrite append_cons.
  cbn [skip_digits]. rewrite Hc. now apply IH.
Qed.

Lemma starts_with_digit_append (d r : string) :
  all_digits d = true -> d <> "" -> starts_with_digit (d +:+ r) = true.
Proof.
  destruct d as [|c d]; [congruence|]. cbn [all_digits].
  rewrite andb_true_iff. intros [Hc _] _. rewrite append_cons. exact Hc.
Qed.

Lemma append_empty (s : string) : s +:+ "" = s.
Proof. induction s as [|c s IH]; [reflexivity|]. now rewrite append_cons, IH. Qed.

Lemma strip_minus_cases (s : string) :
  (s = "-" +:+ strip_minus s) \/
  (strip_minus s = s).
Proof.
  destruct s as [|c s]; [now right|].
  destruct c as [[] [] [] [] [] [] [] []];
    try (right; reflexivity); left; reflexivity.
Qed.

Lemma strip_dot_cases (s : string) :
  (s = "." +:+ strip_dot s) \/ (strip_dot s = s).
Proof.
  destruct s as [|c s]; [now right|].
  destruct c as [[] [] [] [] [] [] [] []];
    try (right; reflexivity); left; reflexivity.
Qed.

Lemma strip_sign_cases (s : string) :
  (s = "+" +:+ strip_sign s) \/ (s = "-" +:+ strip_sign s) \/
  (strip_sign s = s).
Proof.
  destruct s as [|c s]; [now right; right|].
  destruct c as [[] [] [] [] [] [] [] []];
    try (right; right; reflexivity); try (left; reflexivity);
    right; left; reflexivity.
Qed.

Lemma strip_digit (c : ascii) (s : string) :
  is_digit c = true ->
  strip_minus (String c s) = String c s /\
  strip_dot (String c s) = String c s /\
  strip_sign (String c s) = String c s.
Proof.
  destruct c as [[] [] [] [] [] [] [] []]; intros H;
    try discriminate H; repeat split.
Qed.

Lemma strip_digits (d r : string) :
  all_digits d = true -> d <> "" ->
  strip_minus (d +:+ r) = d +:+ r /\
  strip_dot (d +:+ r) = d +:+ r /\
  strip_sign (d +:+ r) = d +:+ r.
Proof.
  destruct d as [|c d]; [congruence|]. cbn [all_digits].
  rewrite andb_true_iff. intros [Hc _] _. rewrite append_cons.
  now apply strip_digit.
Qed.

Lemma exponent_letter (c : ascii) :
  Ascii.eqb c "e" || Ascii.eqb c "E" = true ->
  (c = "e"%char \/ c = "E"%char) /\ is_digit c = false /\
  forall s, strip_dot (String c s) = String c s.
Proof.
  rewrite orb_true_iff, !Ascii.eqb_eq.
  intros [->| ->]; (split; [tauto|]); split; reflexivity.
Qed.

(** X25.  The test of [normalizeHB] accepts exactly the strings of its regular
    expression: an optional minus sign, digits, an optional point, digits
    or none, the letter e in either case, an optional sign and digits. *)
Theorem scientific_notation_spec (s : string) :
  scientific_notation s = true <-> matches_scientific s.
Proof.
  rewrite scientific_notation_steps. split.
  - rewrite andb_true_iff. intros [Hint Hexp].
    set (s1 := strip_minus s) in *.
    destruct (take_skip_digits s1) as [E1 D1].
    set (s2 := skip_digits s1) in *.
    set (s3 := strip_dot s2) in *.
    destruct (take_skip_digits s3) as [E3 D3].
    destruct (skip_digits s3) as [|c s5] eqn:E4; [discriminate|].
    cbn [exponent] in Hexp. rewrite !andb_true_iff in Hexp.
    destruct Hexp as (Hc & Hd & Hend).
    apply exponent_letter in Hc as (Hc & _).
    set (s6 := strip_sign s5) in *.
    destruct (take_skip_digits s6) as [E6 D6].
    destruct (skip_digits s6) eqn:E7; [|discriminate].
    rewrite append_empty in E6.
    assert (Hsign : exists sign, (sign = "" \/ sign = "-") /\ s = sign +:+ s1).
    { destruct (strip_minus_cases s) as [H|H].
      - exists "-". split; [now right | exact H].
      - exists "". split; [now left | now rewrite append_nil]. }
    assert (Hdot : exists dot, (dot = "" \/ dot = ".") /\ s2 = dot +:+ s3).
    { destruct (strip_dot_cases s2) as [H|H].
      - exists ".". split; [now right | exact H].
      - exists "". split; [now left | now rewrite append_nil]. }
    assert (Hes : exists esign, (esign = "" \/ esign = "+" \/ esign = "-") /\
                                s5 = esign +:+ s6).
    { destruct (strip_sign_cases s5) as [H|[H|H]].
      - exists "+". split; [tauto | exact H].
      - exists "-". split; [tauto | exact H].
      - exists "". split; [tauto | now rewrite append_nil]. }
    destruct Hsign as (sign & Hsign & Es).
    destruct Hdot as (dot & Hdot & Ed).
    destruct Hes as (esign & Hes & Ee).
    exists sign, (take_digits s1), dot, (take_digits s3), c, esign, s6.
    split; [|repeat split; try assumption].
    + rewrite <- Ee, <- E3, <- Ed. fold s2. now rewrite <- E1.
    + now apply take_digits_nonempty.
    + now rewrite E6.
    + rewrite E6. now apply take_digits_nonempty.
  - intros (sign & int & dot & frac & e & esign & exp & -> & Hsign & [Di Hi]
            & Hdot & Df & He & Hes & [De Hexp]).
    assert (Hletter : Ascii.eqb e "e" || Ascii.eqb e "E" = true).
    { destruct He as [->| ->]; reflexivity. }
    destruct (exponent_letter e Hletter) as (_ & Hnd & Hsd).
    set (X := String e (esign +:+ exp)).
    assert (Hstop : skip_digits X = X) by (apply skip_digits_stop; exact Hnd).
    assert (H1 : strip_minus (sign +:+ int +:+ dot +:+ frac +:+ X) =
                 int +:+ dot +:+ frac +:+ X).
    { destruct Hsign as [->| ->]; [|reflexivity].
      rewrite append_nil. now apply strip_digits. }
    rewrite H1, (starts_with_digit_append _ _ Di Hi), andb_true_l.
    rewrite (skip_digits_append _ _ Di).
    assert (H3 : skip_digits (strip_dot (skip_digits (dot +:+ frac +:+ X))) = X).
    { destruct Hdot as [->| ->].
      - rewrite append_nil, (skip_digits_append _ _ Df), Hstop.
        unfold X at 1. now rewrite Hsd.
      - change (skip_digits ("." +:+ frac +:+ X)) with ("." +:+ frac +:+ X).
        change (strip_dot ("." +:+ frac +:+ X)) with (frac +:+ X).
        now rewrite (skip_digits_append _ _ Df). }
    rewrite H3. unfold X. cbn [exponent]. rewrite Hletter, andb_true_l.
    assert (H6 : strip_sign (esign +:+ exp) = exp).
    { destruct Hes as [->|[->| ->]]; try reflexivity.
      rewrite append_nil. rewrite <- (append_empty exp).
      now apply strip_digits. }
    rewrite H6. rewrite <- (append_empty exp) at 1.
    rewrite (starts_with_digit_append _ _ De Hexp), andb_true_l.
    rewrite <- (append_empty exp), (skip_digits_append _ _ De). reflexivity.
Qed.

End ScientificNotation.

(** ** The local-storage gateway: the views of updated entries *)

Module LocalViews.

Import LocalStorage.

(** [m.last_updated_upload_id === latestUploadId && m.last_update_reason] *)
Definition updated_by (latestUploadId : string) (m : master_item) : bool :=
  Supabase.references latestUploadId (last_updated_upload_id m)
  && match last_update_reason m with
     | Some reason => truthy reason
     | None => false
     end.

(** [getMasterListUpdatedItems()] *)
Definition getMasterListUpdatedItems (st : storage) : nat * list master_item :=
  match LocalUploads.getLatestUploadId st with
  | Some latestUploadId =>
      if negb (truthy latestUploadId) then (0%nat, [])
      else
        let data := List.filter (updated_by latestUploadId) (master_list st) in
        (length data, data)
  | None => (0%nat, [])
  end.

(** [s.includes('FRL')] *)
Fixpoint includes_FRL (s : string) : bool :=
  match s with
  | String "F" (String "R" (String "L" _)) => true
  | String _ s' => includes_FRL s'
  | EmptyString => false
  end.

(** [getMasterListNewFrl()] *)
Definition getMasterListNewFrl (st : storage) : nat * list master_item :=
  match LocalUploads.getLatestUploadId st with
  | Some latestUploadId =>
      if negb (truthy latestUploadId) then (0%nat, [])
      else
        let data :=
          List.filter
            (fun m => updated_by latestUploadId m
                      && match last_update_reason m with
                         | Some reason => includes_FRL reason
                         | None => false
                         end)
            (master_list st) in
        (length data, data)
  | None => (0%nat, [])
  end.

End LocalViews.

Section LocalReasons.

Import LocalStorage LocalViews.

Variable parseFloat : string -> number.
Variable numberToString : number -> string.

Local Abbreviation reconcile_row :=
  (LocalStorage.reconcile_row parseFloat numberToString).
Local Abbreviation updateMasterList :=
  (LocalStorage.updateMasterList parseFloat numberToString).

Definition no_reason (m : master_item) : Prop := last_update_reason m = None.

Lemma reconcile_row_no_reason (now : Z) (uploadId : string) (s : loop_state)
    (row : csv_row) :
  Forall no_reason (masterList s) ->
  Forall no_reason (masterList (reconcile_row now uploadId s row)).
Proof.
  intros Hall.
  destruct (reconcile_row_cases parseFloat numberToString now uploadId s row)
    as [[_ E]|[(_ & i & ex & Hi & _ & E)|(_ & _ & E)]]; rewrite E; clear E.
  - exact Hall.
  - cbn [masterList]. apply Forall_insert; [exact Hall|].
    unfold no_reason. cbn [merge last_update_reason].
    exact (Forall_lookup_1 _ _ _ _ Hall Hi).
  - cbn [masterList]. apply Forall_app. split; [exact Hall|].
    constructor; [reflexivity | constructor].
Qed.

Lemma filter_no_reason (p : master_item -> bool) (l : list master_item) :
  Forall no_reason l ->
  (forall m, last_update_reason m = None -> p m = false) ->
  List.filter p l = [].
Proof.
  intros Hall Hp. induction Hall as [|m l Hm Hall IH]; [reflexivity|].
  cbn [List.filter]. now rewrite (Hp m Hm).
Qed.

(** X17.  The local-storage gateway never records why an entry was updated:
    [updateMasterList] leaves every entry without an update reason when
    none had one, and then the views of updated entries and of newly
    released entries are empty whatever the batch changed. *)
Theorem local_updateMasterList_records_no_reason (now : Z) (uploadId : string)
    (rows : list csv_row) (st : storage) :
  Forall no_reason (master_list st) ->
  let st' := fst (updateMasterList now uploadId rows st) in
  Forall no_reason (master_list st') /\
  getMasterListUpdatedItems st' = (0%nat, []) /\
  getMasterListNewFrl st' = (0%nat, []).
Proof.
  intros Hall st'.
  assert (Hall' : Forall no_reason (master_list st')).
  { subst st'. unfold LocalStorage.updateMasterList. cbn [fst master_list].
    set (s := {| masterList := master_list st; fresh := next_id st;
                 added := 0; updated := 0 |}).
    change (Forall no_reason (masterList s)) in Hall. clearbody s.
    revert s Hall. induction rows as [|r rows IH]; intros s Hall; [exact Hall|].
    cbn [foldl]. apply IH. now apply reconcile_row_no_reason. }
  split; [exact Hall'|].
  unfold getMasterListUpdatedItems, getMasterListNewFrl.
  destruct (LocalUploads.getLatestUploadId st') as [latest|]; [|split; reflexivity].
  destruct (truthy latest); cbn [negb]; [|split; reflexivity].
  cbv zeta. rewrite !(filter_no_reason _ _ Hall'); [split; reflexivity| |].
  - intros m Hm. unfold updated_by. rewrite Hm. now rewrite andb_false_r.
  - intros m Hm. unfold updated_by. now rewrite Hm, andb_false_r.
Qed.

End LocalReasons.

(** ** The views of new and of updated entries after a reconciliation *)

Section ViewsAfterReconciliation.

Import Supabase Views.

Definition first_seen_by (u : string) (m : master_item) : bool :=
  references u (first_seen_upload_id m).

Definition updated_with_reason (u : string) (m : master_item) : bool :=
  references u (last_updated_upload_id m)
  && match last_update_reason m with Some _ => true | None => false end.

Lemma upsert_row_first_seen (table : list master_item) (d : itemData) :
  applies (keys table) d ->
  map first_seen_upload_id (upsert_row table d) = map first_seen_upload_id table.
Proof.
  intros (i & Hid & Hk). unfold upsert_row. rewrite Hid.
  apply list_elem_of_fmap in Hk as (m & [= -> _] & Hm).
  assert (Hex : existsb (has_id (item_id m)) table = true).
  { apply existsb_exists. exists m. split; [now apply list_elem_of_In|].
    apply Nat.eqb_refl. }
  rewrite Hex, map_map. apply map_ext. intros m'.
  destruct (has_id (item_id m) m'); reflexivity.
Qed.

Lemma foldl_upsert_first_seen (table : list master_item) (batch : list itemData) :
  NoDup (map item_id table) -> Forall (applies (keys table)) batch ->
  map first_seen_upload_id (foldl upsert_row table batch) =
  map first_seen_upload_id table.
Proof.
  revert table. induction batch as [|d batch IH]; intros table Hnd Hall;
    [reflexivity|].
  cbn [foldl]. inversion Hall as [|? ? Hd Hall']; subst.
  pose proof (upsert_row_keys table d Hnd Hd) as Hk.
  rewrite IH; [now apply upsert_row_first_seen | | now rewrite Hk].
  now rewrite <- keys_id, Hk, keys_id.
Qed.

(** The latest upload is a recorded one. *)
Lemma latest_recorded (db : database) (uploadId : string) :
  getLatestUploadId db = Some uploadId -> recorded uploadId db.
Proof.
  unfold getLatestUploadId, recorded.
  pose proof (head_order_by_date_desc (uploads db)) as H.
  destruct (order_by_date_desc (uploads db)) as [|u l]; simpl in *;
    [discriminate|].
  destruct H as [Hu _]. destruct (truthy (upload_id u)); [|discriminate].
  intros [= <-]. apply list_elem_of_fmap. now exists u.
Qed.

Lemma length_filter_all {A} (p : A -> bool) (l : list A) :
  (forall x, x ∈ l -> p x = true) -> length (List.filter p l) = length l.
Proof.
  induction l as [|x l IH]; intros H; [reflexivity|]. cbn [List.filter].
  rewrite (H x) by constructor. cbn [length]. rewrite IH; [reflexivity|].
  intros y Hy. apply H. now constructor.
Qed.

Lemma length_filter_none {A} (p : A -> bool) (l : list A) :
  (forall x, x ∈ l -> p x = false) -> length (List.filter p l) = 0%nat.
Proof.
  induction l as [|x l IH]; intros H; [reflexivity|]. cbn [List.filter].
  rewrite (H x) by constructor. apply IH.
  intros y Hy. apply H. now constructor.
Qed.

(** Overwriting the one entry with the primary key [i], which the
    predicate [q] did not hold of, by an entry it holds of. *)
Lemma length_filter_overwrite (q : master_item -> bool) (d : itemData)
    (table : list master_item) (m0 : master_item) :
  NoDup (map item_id table) -> m0 ∈ table ->
  q m0 = false -> q (overwrite m0 d) = true ->
  length (List.filter q
            (map (fun m => if has_id (item_id m0) m then overwrite m d else m)
               table)) =
  S (length (List.filter q table)).
Proof.
  intros Hnd Hm0 Hq Hq'.
  assert (Hsame : forall l, item_id m0 ∉ map item_id l ->
            map (fun m => if has_id (item_id m0) m then overwrite m d else m) l = l).
  { induction l as [|m l IHl]; intros Hout; [reflexivity|].
    cbn [map]. rewrite IHl by (intros Hin; apply Hout; now constructor).
    replace (has_id (item_id m0) m) with false; [reflexivity|].
    symmetry. apply Nat.eqb_neq. intros E. apply Hout. rewrite <- E. constructor. }
  induction table as [|m table IH]; [inversion Hm0|].
  cbn [map] in Hnd. apply NoDup_cons in Hnd as [Hm Hnd].
  cbn [map]. apply elem_of_cons in Hm0 as [<-|Hm0].
  - rewrite (Hsame table Hm). unfold has_id. rewrite Nat.eqb_refl.
    cbn [List.filter]. now rewrite Hq', Hq.
  - replace (has_id (item_id m0) m) with false.
    + cbn [List.filter]. destruct (q m); cbn [length]; now rewrite (IH Hnd Hm0).
    + symmetry. apply Nat.eqb_neq. intros E. apply Hm. rewrite E.
      apply list_elem_of_fmap. now exists m0.
Qed.

Lemma foldl_upsert_count (q : master_item -> bool) (batch : list itemData)
    (table : list master_item) :
  NoDup (map item_id table) ->
  NoDup (omap data_id batch) ->
  Forall (fun d => exists m, m ∈ table /\ data_id d = Some (item_id m) /\
                     q m = false /\ forall m', q (overwrite m' d) = true) batch ->
  length (List.filter q (foldl upsert_row table batch)) =
  (length (List.filter q table) + length batch)%nat.
Proof.
  revert table. induction batch as [|d batch IH]; intros table Hnd Hids Hall.
  - cbn [foldl length]. lia.
  - cbn [foldl length]. inversion Hall as [|? ? Hd Hall']; subst.
    destruct Hd as (m0 & Hm0 & Hid & Hq & Hq').
    rewrite omap_id_cons, Hid in Hids. apply NoDup_cons in Hids as [Hfresh Hids].
    assert (Hex : existsb (has_id (item_id m0)) table = true).
    { apply existsb_exists. exists m0. split; [now apply list_elem_of_In|].
      apply Nat.eqb_refl. }
    assert (Hup : upsert_row table d =
                  map (fun m => if has_id (item_id m0) m then overwrite m d else m)
                    table).
    { unfold upsert_row. now rewrite Hid, Hex. }
    assert (Hidmap : map item_id (upsert_row table d) = map item_id table).
    { rewrite Hup, map_map. apply map_ext. intros m.
      destruct (has_id (item_id m0) m); reflexivity. }
    rewrite IH.
    + rewrite Hup, (length_filter_overwrite q d table m0 Hnd Hm0 Hq (Hq' m0)). lia.
    + now rewrite Hidmap.
    + exact Hids.
    + rewrite Forall_forall in Hall'. apply Forall_forall. intros d' Hd'.
      destruct (Hall' d' Hd') as (m & Hm & Hid' & Hqm & Hq'm).
      exists m. split; [|auto]. rewrite Hup.
      apply list_elem_of_fmap. exists m. split; [|exact Hm].
      unfold has_id. destruct (Nat.eqb_spec (item_id m) (item_id m0)) as [E|E];
        [|reflexivity].
      elim Hfresh. apply list_elem_of_omap. exists d'. split; [exact Hd'|].
      now rewrite Hid', E.
Qed.

(** X6.  When the upload being reconciled is the latest one recorded and no
    entry of the Master List refers to it yet, the views of new and of updated
    entries count, after [updateMasterList] on a batch without repeated
    identifiers, what [updateMasterList] reported as added and as
    updated. *)
Theorem supabase_views_count_reconciliation (now : Z) (uploadId : string)
    (rows : list csv_row) (db : database) :
  well_formed db -> NoDup (identifiers rows) ->
  getLatestUploadId db = Some uploadId ->
  (forall m, m ∈ master_list db ->
     first_seen_by uploadId m = false /\
     references uploadId (last_updated_upload_id m) = false) ->
  let db' := fst (updateMasterList now uploadId rows db) in
  let c := snd (updateMasterList now uploadId rows db) in
  fst (getMasterListNewItems db') = itemsAdded c /\
  fst (getMasterListUpdatedItems db') = itemsUpdated c.
Proof.
  intros Hwf Hnd Hlatest Hfresh db' c. subst db' c.
  rewrite (updateMasterList_distinct now uploadId rows db
             (latest_recorded db uploadId Hlatest) Hwf Hnd).
  cbn [fst snd itemsAdded itemsUpdated].
  unfold getMasterListNewItems, getMasterListUpdatedItems.
  assert (Hl : getLatestUploadId
                 (with_master_list db (reconciled now uploadId rows db)
                    (next_item_id db +
                     length (fst (stage now uploadId rows db)))) =
               Some uploadId) by exact Hlatest.
  rewrite Hl. cbv zeta. cbn [fst with_master_list master_list].
  destruct (stage_facts now uploadId rows db Hwf Hnd) as (Hins & Hupd & Hok & _).
  cbv zeta in Hins, Hupd, Hok.
  pose proof (inserted_well_formed db _ Hwf Hins) as (_ & Hid' & _).
  cbn [with_master_list master_list] in Hid'.
  destruct (foldl_stage now uploadId rows db rows ([], []) (fun r H => H))
    as (X & Y & HE & _ & _ & HsX & _).
  cbv zeta in HE.
  assert (Est : stage now uploadId rows db = (X, Y)) by exact HE.
  unfold reconciled. rewrite Est in *. cbn [fst snd] in *.
  set (T := master_list db ++ number_rows (next_item_id db) X) in *.
  assert (Happ : Forall (applies (keys T)) Y).
  { eapply Forall_impl; [exact Hok|].
    intros d Hd. now apply (staged_update_applies now uploadId rows db). }
  assert (Hnew : forall m, m ∈ number_rows (next_item_id db) X ->
            first_seen_by uploadId m = true /\ last_update_reason m = None).
  { intros m Hm. clear -Hm HsX. revert Hm. generalize (next_item_id db).
    induction HsX as [|d X Hd HsX IH]; intros i Hm; [inversion Hm|].
    cbn [number_rows] in Hm. apply elem_of_cons in Hm as [->|Hm]; [|eauto].
    destruct Hd as (row & _ & _ & _ & ->).
    unfold first_seen_by. cbn [new_row first_seen_upload_id last_update_reason
      data_first_seen_upload_id data_last_update_reason references].
    now rewrite String.eqb_refl. }
  split.
  - rewrite <- (length_filter_map first_seen_upload_id (references uploadId)).
    rewrite (foldl_upsert_first_seen T Y Hid' Happ).
    rewrite (length_filter_map first_seen_upload_id (references uploadId)).
    unfold T. rewrite List.filter_app, length_app.
    rewrite length_filter_none by (intros m Hm; now apply Hfresh).
    rewrite length_filter_all by (intros m Hm; now apply Hnew).
    cbn [plus]. clear. generalize (next_item_id db).
    induction X as [|d X IH]; intros i; simpl; [|rewrite IH]; reflexivity.
  - change (fun m : master_item =>
              references uploadId (last_updated_upload_id m)
              && match last_update_reason m with Some _ => true | None => false end)
      with (updated_with_reason uploadId).
    rewrite (foldl_upsert_count (updated_with_reason uploadId) Y T Hid' Hupd).
    + unfold T. rewrite List.filter_app, length_app.
      rewrite !length_filter_none; [reflexivity| |].
      * intros m Hm. unfold updated_with_reason.
        now rewrite (proj2 (Hnew m Hm)), andb_false_r.
      * intros m Hm. unfold updated_with_reason.
        now rewrite (proj2 (Hfresh m Hm)).
    + eapply Forall_impl; [exact Hok|].
      intros d (row & m & _ & Hm & _ & _ & _ & ->).
      exists m. split; [unfold T; apply elem_of_app; now left|].
      split; [reflexivity|]. split.
      * unfold updated_with_reason. now rewrite (proj2 (Hfresh m Hm)).
      * intros m'. unfold updated_with_reason.
        cbn [overwrite last_updated_upload_id last_update_reason
               data_last_updated_upload_id data_last_update_reason references].
        now rewrite String.eqb_refl.
Qed.

End ViewsAfterReconciliation.

(** ** The properties on a scenario *)

Module Scenario.

Definition entry (i : nat) (h : string) (f : option string) (u : string)
  : master_item :=
  {| item_id := i; item_fields := Sample.stored h f;
     first_seen_upload_id := Some u; last_updated_upload_id := Some u;
     last_update_reason := None; created_at := Some 1000%Z;
     updated_at := Some 1000%Z |}.

(** Tuesday's batch: A1 is new, B2 is released, C3 is as it was. *)
Definition batch : list csv_row :=
  [Sample.parsed "A1" "04/02/2012"; Sample.parsed " b2 " "04/03/2012";
   Sample.parsed "C3" ""].

(** The tables once Tuesday's upload is saved and before it is
    reconciled: Monday listed B2 and C3, neither released. *)
Definition before : Supabase.database := {|
  Supabase.uploads := [Sample.tuesday; Sample.monday];
  Supabase.report_data := [];
  Supabase.master_list := [entry 0 "B2" None "u1"; entry 1 "C3" None "u1"];
  Supabase.next_item_id := 2
|}.

(** The same in the local storage, with the rows of both uploads. *)
Definition stored_locally : LocalStorage.storage := {|
  LocalStorage.uploads := [Sample.tuesday; Sample.monday];
  LocalStorage.report_data := Supabase.report_data Sample.two_uploads;
  LocalStorage.master_list := [entry 0 "B2" None "u1"; entry 1 "C3" None "u1"];
  LocalStorage.next_id := 2
|}.

(** A batch as parsed, before cleaning: an identifier in scientific
    notation, a blank row and the text that a spreadsheet writes for a
    missing number. *)
Definition raw : list csv_row :=
  [ <["HB" := " 6.17E+08 "]> (<["CONTAINER" := " C1 "]> ∅);
    <["HB" := "  "]> (<["MBL" := ""]> ∅);
    <["HB" := "nan"]> (<["FRL" := "x"]> ∅) ].

End Scenario.

Section ScenarioFacts.

Import Scenario.

Abbreviation parseFloat := DecimalRuntime.parseFloat.
Abbreviation numberToString := DecimalRuntime.numberToString.

Lemma before_well_formed : well_formed before.
Proof.
  split; [|split].
  - apply (bool_decide_unpack _). vm_compute. exact I.
  - apply (bool_decide_unpack _). vm_compute. exact I.
  - repeat constructor.
Qed.

Lemma tuesday_recorded : recorded "u2" before.
Proof. unfold recorded. cbn. left. Qed.

Lemma batch_distinct : NoDup (identifiers batch).
Proof. apply (bool_decide_unpack _). vm_compute. exact I. Qed.

Lemma raw_prints_back : Forall (hb_prints_back parseFloat numberToString) raw.
Proof.
  repeat constructor; try (vm_compute; reflexivity);
    intros _; vm_compute; reflexivity.
Qed.

Lemma local_entries_distinct :
  NoDup (map hb_of (LocalStorage.master_list stored_locally)).
Proof. apply (bool_decide_unpack _). vm_compute. exact I. Qed.

Lemma local_uploads_ordered :
  newest_first (LocalStorage.uploads stored_locally) /\
  NoDup (map upload_id (LocalStorage.uploads stored_locally)).
Proof.
  split.
  - repeat split; repeat constructor.
  - apply (bool_decide_unpack _). vm_compute. exact I.
Qed.

End ScenarioFacts.

Lemma local_updateMasterList_keeps_unique_witness :
  NoDup (map hb_of
           (LocalStorage.master_list
              (fst (LocalStorage.updateMasterList DecimalRuntime.parseFloat
                      DecimalRuntime.numberToString 2000 "u2" Scenario.batch
                      Scenario.stored_locally)))).
Proof.
  apply (local_updateMasterList_keeps_unique DecimalRuntime.parseFloat
           DecimalRuntime.numberToString 2000 "u2" Scenario.batch
           Scenario.stored_locally).
  exact local_entries_distinct.
Defined.

Lemma local_updateMasterList_last_row_wins_witness :
  let rows := [Sample.parsed "A1" ""; Sample.parsed "B2" "x";
               Sample.parsed " A1" "04/02/2012"] in
  exists m,
    m ∈ LocalStorage.master_list
          (fst (LocalStorage.updateMasterList DecimalRuntime.parseFloat
                  DecimalRuntime.numberToString 2000 "u2" rows
                  Scenario.stored_locally)) /\
    hb_of m = "A1" /\
    item_fields m = fields_of_row (Sample.parsed " A1" "04/02/2012") "A1" /\
    last_updated_upload_id m = Some "u2".
Proof.
  intros rows.
  apply (local_updateMasterList_last_row_wins DecimalRuntime.parseFloat
           DecimalRuntime.numberToString 2000 "u2" rows Scenario.stored_locally
           "A1" (Sample.parsed " A1" "04/02/2012")).
  - discriminate.
  - vm_compute. reflexivity.
Defined.

Lemma local_updateMasterList_frame_witness :
  Scenario.entry 1 "C3" None "u1" ∈
  LocalStorage.master_list
    (fst (LocalStorage.updateMasterList DecimalRuntime.parseFloat
            DecimalRuntime.numberToString 2000 "u2"
            [Sample.parsed "A1" "04/02/2012"] Scenario.stored_locally)).
Proof.
  apply (local_updateMasterList_frame DecimalRuntime.parseFloat
           DecimalRuntime.numberToString 2000 "u2"
           [Sample.parsed "A1" "04/02/2012"] Scenario.stored_locally
           (Scenario.entry 1 "C3" None "u1")).
  - vm_compute. right. left.
  - intros row Hrow. apply list_elem_of_singleton in Hrow. subst row.
    vm_compute. discriminate.
Defined.

Lemma local_updateMasterList_records_no_reason_witness :
  let st' := fst (LocalStorage.updateMasterList DecimalRuntime.parseFloat
                    DecimalRuntime.numberToString 2000 "u2" Scenario.batch
                    Scenario.stored_locally) in
  Forall no_reason (LocalStorage.master_list st') /\
  LocalViews.getMasterListUpdatedItems st' = (0%nat, []) /\
  LocalViews.getMasterListNewFrl st' = (0%nat, []).
Proof.
  apply (local_updateMasterList_records_no_reason DecimalRuntime.parseFloat
           DecimalRuntime.numberToString 2000 "u2" Scenario.batch
           Scenario.stored_locally).
  repeat constructor.
Defined.

Lemma local_previousUpload_chronological_witness :
  LocalStorage.previousUpload Scenario.stored_locally "u2" =
  Supabase.previousUpload (tables_of Scenario.stored_locally) "u2".
Proof.
  apply (local_previousUpload_chronological Scenario.stored_locally "u2").
  - exact (proj1 local_uploads_ordered).
  - exact (proj2 local_uploads_ordered).
Defined.

Lemma local_saveUpload_keeps_order_witness :
  let st' := fst (LocalUploads.saveUpload "u3" 3000 "wed.csv" 1
                    Scenario.stored_locally) in
  newest_first (LocalStorage.uploads st') /\
  NoDup (map upload_id (LocalStorage.uploads st')) /\
  LocalUploads.getLatestUploadId st' = Some "u3" /\
  LocalStorage.previousUpload st' "u3" =
  head (LocalStorage.uploads Scenario.stored_locally).
Proof.
  apply (local_saveUpload_keeps_order "u3" 3000 "wed.csv" 1
           Scenario.stored_locally).
  - exact (proj1 local_uploads_ordered).
  - exact (proj2 local_uploads_ordered).
  - repeat constructor.
  - apply (bool_decide_unpack _). vm_compute. exact I.
Defined.

Lemma local_detect_counts_identifiers_witness :
  LocalStorage.detectNewItems Scenario.stored_locally "u2" =
  size (LocalStorage.hb_set Scenario.stored_locally "u2"
        ∖ LocalStorage.hb_set Scenario.stored_locally "u1") /\
  LocalStorage.detectRemovedItems Scenario.stored_locally "u2" =
  size (LocalStorage.hb_set Scenario.stored_locally "u1"
        ∖ LocalStorage.hb_set Scenario.stored_locally "u2").
Proof.
  apply (local_detect_counts_identifiers Scenario.stored_locally "u2"
           Sample.monday).
  reflexivity.
Defined.

Lemma cleanData_cells_witness :
  Forall (fun r =>
            (exists row, row ∈ Scenario.raw /\
               r = CsvClean.clean_row DecimalRuntime.parseFloat
                     DecimalRuntime.numberToString row) /\
            CsvClean.keep_row r = true /\
            (forall key v, r !! key = Some v -> trim v = v) /\
            (forall v, r !! "HB" = Some v ->
               CsvUtils.normalizeHB DecimalRuntime.parseFloat
                 DecimalRuntime.numberToString (Some v) = v))
    (CsvClean.cleanData DecimalRuntime.parseFloat DecimalRuntime.numberToString
       Scenario.raw).
Proof.
  apply (cleanData_cells DecimalRuntime.parseFloat DecimalRuntime.numberToString
           Scenario.raw).
  exact raw_prints_back.
Defined.

Lemma cleanData_idempotent_witness :
  CsvClean.cleanData DecimalRuntime.parseFloat DecimalRuntime.numberToString
    (CsvClean.cleanData DecimalRuntime.parseFloat DecimalRuntime.numberToString
       Scenario.raw) =
  CsvClean.cleanData DecimalRuntime.parseFloat DecimalRuntime.numberToString
    Scenario.raw.
Proof.
  apply (cleanData_idempotent DecimalRuntime.parseFloat
           DecimalRuntime.numberToString Scenario.raw).
  exact raw_prints_back.
Defined.

Lemma cleanData_drops_blank_witness :
  let blank : csv_row :=
    <["HB" := "  "]> (<["MBL" := ""]> (<["FRL" := "04/02/2012"]> ∅)) in
  CsvClean.cleanData DecimalRuntime.parseFloat DecimalRuntime.numberToString
    (blank :: Scenario.raw) =
  CsvClean.cleanData DecimalRuntime.parseFloat DecimalRuntime.numberToString
    Scenario.raw.
Proof.
  intros blank.
  apply (cleanData_drops_blank DecimalRuntime.parseFloat
           DecimalRuntime.numberToString blank Scenario.raw);
    vm_compute; reflexivity.
Defined.

Lemma supabase_updateMasterList_distinct_batch_witness :
  let db' := fst (Supabase.updateMasterList 2000 "u2" Scenario.batch
                    Scenario.before) in
  well_formed db' /\
  length (Supabase.master_list db') = 3%nat /\
  exists m, m ∈ Supabase.master_list db' /\ hb_of m = "B2" /\
            item_id m = 0%nat /\
            first_seen_upload_id m = Some "u1" /\
            last_updated_upload_id m = Some "u2" /\
            last_update_reason m = Some "FRL".
Proof.
  intros db'.
  destruct (supabase_updateMasterList_distinct_batch 2000 "u2" Scenario.batch
              Scenario.before tuesday_recorded before_well_formed batch_distinct)
    as (Hwf & Hlen & Hrows).
  split; [exact Hwf|]. split; [exact Hlen|].
  destruct (Hrows (Sample.parsed " b2 " "04/03/2012")) as (m & Hm & Hhb & _ & Hold).
  - right. left.
  - discriminate.
  - destruct (Hold (Scenario.entry 0 "B2" None "u1")) as (Hid & Hfirst & Hchanged).
    + left.
    + reflexivity.
    + exists m. split; [exact Hm|]. split; [exact Hhb|].
      split; [exact Hid|]. split; [exact Hfirst|]. exact (proj2 Hchanged).
Defined.

Lemma supabase_updateMasterList_idempotent_witness :
  let db' := fst (Supabase.updateMasterList 2000 "u2" Scenario.batch
                    Scenario.before) in
  Supabase.updateMasterList 3000 "u3" Scenario.batch db' =
  (db', {| itemsAdded := 0; itemsUpdated := 0 |}).
Proof.
  apply (supabase_updateMasterList_idempotent 2000 3000 "u2" "u3" Scenario.batch
           Scenario.before).
  - exact tuesday_recorded.
  - exact before_well_formed.
  - exact batch_distinct.
Defined.

Lemma supabase_updateMasterList_frame_witness :
  let db' := fst (Supabase.updateMasterList 2000 "u2"
                    [Sample.parsed "A1" ""; Sample.parsed "A1" "x"]
                    Scenario.before) in
  Supabase.uploads db' = Supabase.uploads Scenario.before /\
  Supabase.report_data db' = Supabase.report_data Scenario.before /\
  forall m, m ∈ Supabase.master_list Scenario.before ->
    hb_of m ∉ identifiers [Sample.parsed "A1" ""; Sample.parsed "A1" "x"] ->
    m ∈ Supabase.master_list db'.
Proof.
  apply (supabase_updateMasterList_frame 2000 "u2"
           [Sample.parsed "A1" ""; Sample.parsed "A1" "x"] Scenario.before).
  - exact tuesday_recorded.
  - exact (proj1 (proj2 before_well_formed)).
Defined.

Lemma supabase_views_count_reconciliation_witness :
  let db' := fst (Supabase.updateMasterList 2000 "u2" Scenario.batch
                    Scenario.before) in
  fst (Views.getMasterListNewItems db') = 1%nat /\
  fst (Views.getMasterListUpdatedItems db') = 1%nat.
Proof.
  apply (supabase_views_count_reconciliation 2000 "u2" Scenario.batch
           Scenario.before).
  - exact before_well_formed.
  - exact batch_distinct.
  - reflexivity.
  - intros m Hm. vm_compute in Hm.
    apply list_elem_of_In in Hm. destruct Hm as [<-|[<-|[]]]; split; reflexivity.
Defined.

Lemma getNewlyFrldData_spec_witness :
  Supabase.detectNewlyFrld Zone.utc DecimalRuntime.parseFloat Sample.two_uploads "u2" =
  length (Views.getNewlyFrldData Zone.utc DecimalRuntime.parseFloat Sample.two_uploads "u2").
Proof.
  apply (getNewlyFrldData_spec Zone.utc DecimalRuntime.parseFloat
           Sample.two_uploads "u2").
  apply (bool_decide_unpack _). vm_compute. exact I.
Defined.
